(** * Sentinel Index Vault: the main contract, embedded and verified

    A shallow embedding of [contracts/assembly/contracts/main.ts]: the
    key/value [Storage] of the contract as a finite map from strings to
    strings, 64-bit unsigned integers as [Z] with their wrap-around written
    out, and every entry point as a function in a state-and-revert monad over
    the contract's storage, its event log and the external world (token
    contracts, the Dusa router, the host's deferred-call facility).

    Conventions of the embedding:
    - a failed [assert], a sub-call that fails, [Storage.get] or [Storage.del]
      on a key that is not there all abort the call: the call [Revert]s and
      the chain keeps the state from before the call ([step]);
    - [u64] arithmetic wraps; numbers are stored as decimal text and read
      back with [U64.parseInt], whose digit loop wraps as well;
    - a [u256] that comes back from a token or from the router is a natural
      number; [toU64] keeps its low 64 bits;
    - every [generateEvent] appends a structured [Event] to the event log, and
      every call that leaves the contract is recorded in a call log, so that
      theorems can speak of what a call emitted and what it sent;
    - the arguments of an entry point are taken as already decoded. *)

From Stdlib Require Import ZArith Lia List Ascii String.
From stdpp Require Import base option strings gmap fin_maps.

Open Scope string_scope.
Open Scope Z_scope.

(** ** 64-bit unsigned arithmetic (AssemblyScript [u64]) *)

Module U64.

Definition modulus : Z := 2 ^ 64.

Definition wrap (z : Z) : Z := z mod modulus.

Definition add (a b : Z) : Z := wrap (a + b).
Definition sub (a b : Z) : Z := wrap (a - b).
Definition mul (a b : Z) : Z := wrap (a * b).
(** Both operands are in range, so is the quotient: no wrap is needed. The
    contract divides by constants or by a divisor it has checked to be
    positive. *)
Definition div (a b : Z) : Z := a / b.

Definition in_range (z : Z) : Prop := 0 <= z < modulus.

(** *** Decimal text of a number ([toString]) and its parser ([parseInt])

    The storage of the contract keeps every number as decimal text. *)

Definition digit_char (d : Z) : ascii :=
  ascii_of_nat (48 + Z.to_nat d).

Definition digit_value (c : ascii) : option Z :=
  let n := Z.of_nat (nat_of_ascii c) in
  if (48 <=? n) && (n <=? 57) then Some (n - 48) else None.

Fixpoint digits_go (fuel : nat) (n : Z) (acc : string) : string :=
  match fuel with
  | O => acc
  | S fuel' =>
      let acc' := String (digit_char (n mod 10)) acc in
      if n / 10 =? 0 then acc' else digits_go fuel' (n / 10) acc'
  end.

(** [x.toString()] for an unsigned [x] (64 or 256 bits wide). *)
Definition toString (n : Z) : string :=
  digits_go (S (Z.to_nat (Z.log2 n))) n "".

(** The digit loop of [strtol<u64>]: [num = num * radix + code], in 64-bit
    arithmetic, stopping at the first character that is no digit. *)
Fixpoint parse_go (s : string) (num : Z) : Z :=
  match s with
  | EmptyString => num
  | String c rest =>
      match digit_value c with
      | Some d => parse_go rest (add (mul num 10) d)
      | None => num
      end
  end.

(** [U64.parseInt(s)] on the texts the contract stores: decimal digits, or a
    text with no leading digit (which reads as 0). Leading white space, signs
    and radix prefixes never occur in the contract's storage. *)
Definition parseInt (s : string) : Z := parse_go s 0.

End U64.

(** ** Constants of the contract *)

Definition NAME_KEY := "name".
Definition SYMBOL_KEY := "symbol".
Definition OWNER_KEY := "owner".
Definition TARGETS_BPS_KEY := "targets_bps".
Definition MAX_DRIFT_BPS_KEY := "max_drift_bps".
Definition REBALANCE_EPOCH_SECONDS_KEY := "rebalance_epoch_seconds".
Definition MIN_DEPOSIT_USDC_KEY := "min_deposit_usdc".
Definition MIN_SLICE_VALUE_KEY := "min_slice_value".
Definition TOTAL_SHARES_KEY := "total_shares".
Definition GUARD_ARMED_KEY := "guard_armed".
Definition LAST_REBALANCE_KEY := "last_rebalance".
Definition PAUSED_KEY := "paused".
Definition REENTRANCY_GUARD_KEY := "reentrancy_guard".
Definition DEFERRED_CALL_ID_KEY := "deferred_call_id".
Definition NEXT_REBALANCE_TIMESTAMP_KEY := "next_rebalance_timestamp".
Definition REBALANCE_COUNT_KEY := "rebalance_count".
Definition LAST_REBALANCE_STATUS_KEY := "last_rebalance_status".
Definition LAST_ERROR_KEY := "last_error".
Definition DEFERRED_CALL_ACTIVE_KEY := "deferred_call_active".
Definition USDCE_KEY := "usdce_address".
Definition WMAS_KEY := "wmas_address".
Definition WETHB_KEY := "wethb_address".
Definition DUSA_ROUTER_KEY := "dusa_router".
Definition EAGLEFI_ROUTER_KEY := "eaglefi_router".
Definition AUTONOMOUS_MODE_ENABLED := "AUTONOMOUS_MODE_ENABLED".
Definition AUTON_SCHEDULED := "auton_scheduled".

Definition MIN_GAS_BANK_BALANCE : Z := 2000000000.
Definition LOW_GAS_WARNING : Z := 5000000000.

Definition WMAS_ADDRESS := "AS12U4TZfNK7qoLyEERBBRDMu8nm5MKoRzPXDXans4v9wdATZedz9".
Definition WETH_ADDRESS := "AS124vf3YfAJCSCQVYKczzuWWpXrximFpbTmX4rheLs5uNSftiiRY".
Definition USDC_ADDRESS := "AS1hCJXjndR4c9vekLWsXGnrdigp4AaZ7uYG3UKFzzKnWVsrNLPJ".
Definition DUSA_ROUTER := "AS1gUwVGA3A5Dnmev8c2BjBR2wC8y9hb7CFZXVzLb1iwASFHUZ1p".
Definition DUSA_FACTORY := "AS127Lxdux4HCUkZL89SrRYR5kq2u8t64Jt3aYj786t6fBF1cZGcu".

Definition BIN_STEP_USDC_WMAS : Z := 20.
Definition BIN_STEP_WMAS_WETH : Z := 15.
Definition STORAGE_FEE_PER_SWAP : Z := 10000000.
Definition SWAP_DEADLINE_BUFFER : Z := 600000.

Definition userSharesKey (address : string) : string := "shares:" +:+ address.

(** ** Events and external calls *)

(** The payload of every [generateEvent] of the contract, one constructor per
    event text, the interpolated values as fields. *)
Inductive Event : Type :=
| ConstructorCalled (name symbol : string) (timestamp : Z)
| AutonomousStartSkipped (reason : string)
| InsufficientGasBank (current required topUpNeeded : Z)
| AutonomousModeStarted (deferredId : string)
    (targetSlot quote timestamp nextRebalance : Z)
| TriggerRebalanceStarted (caller : string) (timestamp : Z)
| AutonomousModeStopped (reason : string) (figures : list Z)
| NextRebalanceScheduled (deferredId : string) (targetSlot quote : Z)
| BinStepsValidation (usdcWmas wmasWeth : string)
| SwapExecuted (tokenIn tokenOut : string)
    (amountIn amountOut balanceBefore balanceAfter : Z)
| MultiHopSwapExecuted (amountIn amountOut balanceBefore balanceAfter : Z)
| RebalanceSkipped (reason : string) (figures : list Z)
| DriftCalculated (wmasCurrent wethCurrent usdcCurrent
                   wmasDrift wethDrift usdcDrift maxDrift : Z)
| RebalanceExecuted (epoch totalSwaps maxDrift threshold : Z)
| MinimumDepositUpdated (minDeposit : Z)
| Deposit (user : string) (amount shares : Z)
| RedeemSwapExecuted (path : string) (amountIn amountOut : Z)
| RedeemExecutedToUSDC (shares usdcFinal : Z)
| RedeemExecuted (shares wmasOut wethOut usdcOut : Z)
| Withdraw (user : string) (shares wmas weth usdc : Z) (toUSDC : bool)
| GuardArmed (armed : bool)
| GasBankUpdated (newBalance change : Z)
| AutonomousRebalanceSkipped (balance : Z)
| ManualRebalanceTriggered (caller : string)
| ContractPaused (timestamp : Z)
| ContractUnpaused (timestamp : Z)
| TargetsUpdated (target0 target1 target2 : Z)
| MaxDriftUpdated (maxDrift : Z)
| RebalanceEpochUpdated (epoch : Z)
| EmergencyWithdraw (token : string) (amount : Z) (to : string)
| OwnershipTransferred (oldOwner newOwner : string).

(** The calls the contract makes to other contracts and to the host, in the
    order it makes them (read-only balance queries are not logged). *)
Inductive ExtCall : Type :=
| CallTransferFrom (token from to : string) (amount : Z)
| CallTransfer (token to : string) (amount : Z)
| CallIncreaseAllowance (token spender : string) (amount : Z)
| CallSwap (amountIn amountOutMin : Z) (pairBinSteps : list Z)
    (tokenPath : list string) (to : string) (deadline coins : Z)
| CallSelf (function : string) (coins : Z)
| CallDeferredRegister (target function : string) (period maxGas : Z).

Record Slot : Type := mkSlot { period : Z; thread : Z }.

(** ** The external world

    Everything outside the contract's own storage: the MRC20 token contracts,
    the Dusa router and factory, and the host (native balance, deferred
    calls). A sub-call that reverts returns [None]. Amounts that come back as
    [u256] are natural numbers. External contracts do not call back into the
    vault; the one call the vault makes to itself is modelled explicitly. *)
Class Host (W : Type) : Type := {
  (** [balanceOf w token account] *)
  balanceOf : W -> string -> string -> option N;
  (** [transferFrom w token spender from to amount] *)
  transferFrom : W -> string -> string -> string -> string -> Z -> option W;
  (** [transfer w token sender to amount] *)
  transfer : W -> string -> string -> string -> Z -> option W;
  (** [increaseAllowance w token owner spender amount] *)
  increaseAllowance : W -> string -> string -> string -> Z -> option W;
  (** [swapExactTokensForTokens w sender amountIn amountOutMin pairBinSteps
      isLegacyPools tokenPath to deadline coins], with the output amount *)
  swapExactTokensForTokens :
    W -> string -> Z -> Z -> list Z -> list bool -> list string -> string ->
    Z -> Z -> option (W * N);
  (** [getAvailableLBPairBinSteps w tokenX tokenY] *)
  getAvailableLBPairBinSteps : W -> string -> string -> option (list Z);
  (** the vault's own native balance, in nanoMAS: the gas bank *)
  balance : W -> Z;
  (** [findCheapestSlot w firstPeriod lastPeriod maxGas paramsSize] *)
  findCheapestSlot : W -> Z -> Z -> Z -> Z -> Slot;
  (** [deferredCallQuote w slot maxGas paramsSize] *)
  deferredCallQuote : W -> Slot -> Z -> Z -> Z;
  (** [deferredCallRegister w target function slot maxGas coins], with the
      identifier of the registered call *)
  deferredCallRegister :
    W -> string -> string -> Slot -> Z -> Z -> option (W * string);
  (** the coins the vault attaches to the call of its own [rebalance] *)
  sendCoinsToSelf : W -> string -> Z -> option W
}.

(** ** Execution state and the contract monad *)

Record CallContext : Type := mkContext {
  caller : string;
  callee : string;
  timestamp : Z;
  currentPeriod : Z;
  transferredCoins : Z;
  isDeployingContract : bool
}.

Record State (W : Type) : Type := mkState {
  storage : gmap string string;
  events : list Event;
  calls : list ExtCall;
  world : W
}.
Arguments mkState {W} _ _ _ _.
Arguments storage {W} _.
Arguments events {W} _.
Arguments calls {W} _.
Arguments world {W} _.

(** A call either returns a value and a new state, or reverts with a message
    and leaves nothing behind. *)
Inductive Result (W A : Type) : Type :=
| Ok (a : A) (s : State W)
| Revert (msg : string).
Arguments Ok {W A} _ _.
Arguments Revert {W A} _.

Definition M (W A : Type) : Type := State W -> Result W A.

#[export] Instance M_ret {W} : MRet (M W) := fun A a s => Ok a s.
#[export] Instance M_bind {W} : MBind (M W) := fun A B f m s =>
  match m s with
  | Ok a s' => f a s'
  | Revert msg => Revert msg
  end.

Definition revert {W A} (msg : string) : M W A := fun _ => Revert msg.

Definition assert {W} (cond : bool) (msg : string) : M W unit :=
  if cond then mret tt else revert msg.

Definition generateEvent {W} (e : Event) : M W unit := fun s =>
  Ok tt (mkState (storage s) (events s ++ [e]) (calls s) (world s)).

Definition logCall {W} (c : ExtCall) : M W unit := fun s =>
  Ok tt (mkState (storage s) (events s) (calls s ++ [c]) (world s)).

Definition getWorld {W} : M W W := fun s => Ok (world s) s.

Definition setWorld {W} (w : W) : M W unit := fun s =>
  Ok tt (mkState (storage s) (events s) (calls s) w).

(** Run a sub-call of the world: a revert of the sub-call aborts the call. *)
Definition external {W A} (r : option (W * A)) (msg : string) : M W A :=
  match r with
  | Some (w, a) => setWorld w ;; mret a
  | None => revert msg
  end.

Definition external_ {W} (r : option W) (msg : string) : M W unit :=
  external (fmap (fun w => (w, tt)) r) msg.

Module Storage.

Definition has {W} (key : string) : M W bool := fun s =>
  Ok (bool_decide (is_Some (storage s !! key))) s.

(** Reading a key that is not there aborts the call. *)
Definition get {W} (key : string) : M W string := fun s =>
  match storage s !! key with
  | Some v => Ok v s
  | None => Revert "data entry not found"
  end.

Definition set {W} (key value : string) : M W unit := fun s =>
  Ok tt (mkState (<[key := value]> (storage s)) (events s) (calls s) (world s)).

(** Deleting a key that is not there aborts the call, as the host's ledger
    does. *)
Definition del {W} (key : string) : M W unit := fun s =>
  match storage s !! key with
  | Some _ =>
      Ok tt (mkState (delete key (storage s)) (events s) (calls s) (world s))
  | None => Revert "data entry not found"
  end.

End Storage.

(** ** The contract *)

Record ConstructorArgs : Type := mkConstructorArgs {
  arg_name : string;
  arg_symbol : string;
  arg_target0 : Z;
  arg_target1 : Z;
  arg_target2 : Z;
  arg_maxDriftBps : Z;
  arg_rebalanceEpochSeconds : Z;
  arg_minDepositUSDC : Z;
  arg_minSliceValue : Z;
  arg_usdceAddress : string;
  arg_wmasAddress : string;
  arg_wethbAddress : string;
  arg_dusaRouter : string;
  arg_eaglefiRouter : string
}.

Record AutonomousStatus : Type := mkAutonomousStatus {
  autonomousEnabled : bool;
  deferredCallActive : bool;
  lastRebalanceTime : Z;
  nextRebalanceTime : Z;
  rebalanceCount : Z;
  lastStatus : string;
  lastError : string;
  gasBank : Z
}.

(** [s.split(',')] *)
Fixpoint split_commas (s : string) (current : string) : list string :=
  match s with
  | EmptyString => [current]
  | String c rest =>
      if Ascii.eqb c ","%char
      then current :: split_commas rest ""
      else split_commas rest (current +:+ String c "")
  end.

(** [`${a},${b},${c}`] *)
Definition joinTargets (target0 target1 target2 : Z) : string :=
  U64.toString target0 +:+ "," +:+ U64.toString target1 +:+ ","
  +:+ U64.toString target2.

Definition boolText (b : bool) : string := if b then "true" else "false".

(** Lines 241-244: the message [startAutonomousRebalancing] aborts with when
    the gas bank is below the quote,
    [`Insufficient gas bank: ${gasBankMAS} MAS available, ${quoteMAS} MAS
    required. Top up ${requiredMAS} MAS.`] *)
Definition insufficientGasBankText (gasBankMAS quoteMAS requiredMAS : Z)
  : string :=
  "Insufficient gas bank: " +:+ U64.toString gasBankMAS
  +:+ " MAS available, " +:+ U64.toString quoteMAS
  +:+ " MAS required. Top up " +:+ U64.toString requiredMAS +:+ " MAS.".

Section Contract.

Context {W : Type} `{Host W}.

#[local] Abbreviation M := (M W).

(** [parts[i]]: an index out of range aborts. *)
Definition part (parts : list string) (i : nat) : M string :=
  match parts !! i with
  | Some p => mret p
  | None => revert "Index out of range"
  end.

(** [Storage.has(key) ? Storage.get(key) : fallback] *)
Definition getOr (key fallback : string) : M string :=
  present ← Storage.has key;
  if present : bool then Storage.get key else mret fallback.

Definition constructor (ctx : CallContext) (args : ConstructorArgs) : M unit :=
  assert (isDeployingContract ctx) "Can only be called during deployment";;
  let target0 := arg_target0 args in
  let target1 := arg_target1 args in
  let target2 := arg_target2 args in
  assert (U64.add (U64.add target0 target1) target2 =? 10000)
    "Targets must sum to 10000 bps";;
  Storage.set NAME_KEY (arg_name args);;
  Storage.set SYMBOL_KEY (arg_symbol args);;
  Storage.set OWNER_KEY (caller ctx);;
  Storage.set TARGETS_BPS_KEY (joinTargets target0 target1 target2);;
  Storage.set MAX_DRIFT_BPS_KEY (U64.toString (arg_maxDriftBps args));;
  Storage.set REBALANCE_EPOCH_SECONDS_KEY
    (U64.toString (arg_rebalanceEpochSeconds args));;
  Storage.set MIN_DEPOSIT_USDC_KEY (U64.toString (arg_minDepositUSDC args));;
  Storage.set MIN_SLICE_VALUE_KEY (U64.toString (arg_minSliceValue args));;
  Storage.set USDCE_KEY (arg_usdceAddress args);;
  Storage.set WMAS_KEY (arg_wmasAddress args);;
  Storage.set WETHB_KEY (arg_wethbAddress args);;
  Storage.set DUSA_ROUTER_KEY (arg_dusaRouter args);;
  Storage.set EAGLEFI_ROUTER_KEY (arg_eaglefiRouter args);;
  Storage.set TOTAL_SHARES_KEY "0";;
  Storage.set LAST_REBALANCE_KEY (U64.toString (timestamp ctx));;
  generateEvent
    (ConstructorCalled (arg_name args) (arg_symbol args) (timestamp ctx)).

Definition startAutonomousRebalancing (ctx : CallContext) : M unit :=
  owner ← Storage.get OWNER_KEY;
  assert (String.eqb (caller ctx) owner)
    "Only owner can start autonomous rebalancing";;
  totalSharesStr ← getOr TOTAL_SHARES_KEY "0";
  let totalShares := U64.parseInt totalSharesStr in
  if totalShares =? 0 then
    generateEvent (AutonomousStartSkipped "No deposits in vault")
  else
    guardArmed ← Storage.has GUARD_ARMED_KEY;
    if negb guardArmed then
      generateEvent (AutonomousStartSkipped "Guard not armed")
    else
      epochStr ← getOr REBALANCE_EPOCH_SECONDS_KEY "1800";
      let epochSeconds := U64.parseInt epochStr in
      let slotsToAdd := U64.mul epochSeconds 2 in
      let targetPeriod := U64.add (currentPeriod ctx) slotsToAdd in
      let maxGas := 200000000 in
      let paramsSize := 0 in
      w ← getWorld;
      let targetSlot :=
        findCheapestSlot w targetPeriod (U64.add targetPeriod 100)
          maxGas paramsSize in
      let quote := deferredCallQuote w targetSlot maxGas paramsSize in
      let gasBank := balance w in
      (if gasBank <? quote then
         let gasBankMAS := U64.div gasBank 1000000000 in
         let quoteMAS := U64.div quote 1000000000 in
         let requiredMAS := U64.div (U64.sub quote gasBank) 1000000000 in
         generateEvent (InsufficientGasBank gasBankMAS quoteMAS requiredMAS);;
         assert false
           (insufficientGasBankText gasBankMAS quoteMAS requiredMAS)
       else mret tt);;
      logCall (CallDeferredRegister (callee ctx) "triggerRebalance"
                 (period targetSlot) maxGas);;
      deferredId ← external
        (deferredCallRegister w (callee ctx) "triggerRebalance" targetSlot
           maxGas 0) "deferred call registration failed";
      let currentTimestamp := timestamp ctx in
      let nextRebalanceTimestamp :=
        U64.add currentTimestamp (U64.mul epochSeconds 1000) in
      Storage.set DEFERRED_CALL_ID_KEY deferredId;;
      Storage.set AUTONOMOUS_MODE_ENABLED "true";;
      Storage.set LAST_REBALANCE_KEY (U64.toString currentTimestamp);;
      Storage.set NEXT_REBALANCE_TIMESTAMP_KEY
        (U64.toString nextRebalanceTimestamp);;
      Storage.set DEFERRED_CALL_ACTIVE_KEY "true";;
      Storage.set LAST_REBALANCE_STATUS_KEY "pending";;
      Storage.set LAST_ERROR_KEY "";;
      hasCount ← Storage.has REBALANCE_COUNT_KEY;
      (if negb hasCount then Storage.set REBALANCE_COUNT_KEY "0" else mret tt);;
      generateEvent
        (AutonomousModeStarted deferredId (period targetSlot) quote
           currentTimestamp nextRebalanceTimestamp).

Definition isAutonomousScheduled : M bool :=
  Storage.has AUTONOMOUS_MODE_ENABLED.

Definition getAutonomousStatus : M AutonomousStatus :=
  autonomousEnabled ← Storage.has AUTONOMOUS_MODE_ENABLED;
  hasActive ← Storage.has DEFERRED_CALL_ACTIVE_KEY;
  deferredCallActive ←
    (if hasActive : bool then
       value ← Storage.get DEFERRED_CALL_ACTIVE_KEY;
       mret (String.eqb value "true")
     else mret false);
  lastRebalanceStr ← getOr LAST_REBALANCE_KEY "0";
  nextRebalanceStr ← getOr NEXT_REBALANCE_TIMESTAMP_KEY "0";
  rebalanceCountStr ← getOr REBALANCE_COUNT_KEY "0";
  lastStatus ← getOr LAST_REBALANCE_STATUS_KEY "none";
  lastError ← getOr LAST_ERROR_KEY "";
  w ← getWorld;
  mret (mkAutonomousStatus autonomousEnabled deferredCallActive
          (U64.parseInt lastRebalanceStr) (U64.parseInt nextRebalanceStr)
          (U64.parseInt rebalanceCountStr) lastStatus lastError (balance w)).

(** *** Token helpers *)

(** [getTokenBalance]: the [u256] answer of [balanceOf], cut to its low 64
    bits by [toU64]. *)
Definition getTokenBalance (ctx : CallContext) (tokenAddress : string) : M Z :=
  w ← getWorld;
  match balanceOf w tokenAddress (callee ctx) with
  | Some bal => mret (U64.wrap (Z.of_N bal))
  | None => revert "balanceOf failed"
  end.

(** [getTokenBalanceString]: the same answer as decimal text. *)
Definition getTokenBalanceString (ctx : CallContext) (tokenAddress : string)
  : M string :=
  w ← getWorld;
  match balanceOf w tokenAddress (callee ctx) with
  | Some bal => mret (U64.toString (Z.of_N bal))
  | None => revert "balanceOf failed"
  end.

Definition approveToken (ctx : CallContext) (tokenAddress : string) (amount : Z)
  : M unit :=
  logCall (CallIncreaseAllowance tokenAddress DUSA_ROUTER amount);;
  w ← getWorld;
  external_ (increaseAllowance w tokenAddress (callee ctx) DUSA_ROUTER amount)
    "increaseAllowance failed".

(** The router call shared by every swap site: [swapExactTokensForTokens]
    with the vault as recipient. *)
Definition routerSwap (ctx : CallContext) (amountIn amountOutMin : Z)
    (pairBinSteps : list Z) (isLegacyPools : list bool)
    (tokenPath : list string) (deadline coins : Z) : M N :=
  logCall (CallSwap amountIn amountOutMin pairBinSteps tokenPath (callee ctx)
             deadline coins);;
  w ← getWorld;
  external
    (swapExactTokensForTokens w (callee ctx) amountIn amountOutMin
       pairBinSteps isLegacyPools tokenPath (callee ctx) deadline coins)
    "swapExactTokensForTokens failed".

Definition queryAvailableBinSteps (tokenX tokenY : string) : M string :=
  w ← getWorld;
  match getAvailableLBPairBinSteps w tokenX tokenY with
  | Some steps =>
      mret (String.concat "," (map U64.toString steps))
  | None => revert "getAvailableLBPairBinSteps failed"
  end.

Definition validateBinSteps : M unit :=
  usdcWmasBinSteps ← queryAvailableBinSteps USDC_ADDRESS WMAS_ADDRESS;
  wmasWethBinSteps ← queryAvailableBinSteps WMAS_ADDRESS WETH_ADDRESS;
  generateEvent (BinStepsValidation usdcWmasBinSteps wmasWethBinSteps).

Definition executeTestSwap (ctx : CallContext) (tokenIn tokenOut : string)
    (amountIn minAmountOut : Z) : M N :=
  tokenBalance ← getTokenBalance ctx tokenIn;
  balanceBefore ← getTokenBalance ctx tokenOut;
  approveToken ctx tokenIn amountIn;;
  let deadline := U64.add (timestamp ctx) SWAP_DEADLINE_BUFFER in
  let masToSend := STORAGE_FEE_PER_SWAP in
  let binStep :=
    if String.eqb tokenIn WMAS_ADDRESS && String.eqb tokenOut WETH_ADDRESS
    then BIN_STEP_WMAS_WETH else BIN_STEP_USDC_WMAS in
  amountOut ← routerSwap ctx amountIn minAmountOut [binStep] [false]
                [tokenIn; tokenOut] deadline masToSend;
  (* Verify balance increased (DISABLED FOR DEBUGGING): the balance is read
     again, the assertion on it is commented out in the source. *)
  balanceAfter ← getTokenBalance ctx tokenOut;
  generateEvent
    (SwapExecuted tokenIn tokenOut amountIn (Z.of_N amountOut)
       balanceBefore balanceAfter);;
  mret amountOut.

Definition executeMultiHopSwap (ctx : CallContext) (amountIn minAmountOut : Z)
  : M N :=
  balanceBefore ← getTokenBalance ctx WETH_ADDRESS;
  approveToken ctx USDC_ADDRESS amountIn;;
  let deadline := U64.add (timestamp ctx) SWAP_DEADLINE_BUFFER in
  let masToSend := STORAGE_FEE_PER_SWAP in
  amountOut ← routerSwap ctx amountIn minAmountOut
                [BIN_STEP_USDC_WMAS; BIN_STEP_WMAS_WETH] [false; false]
                [USDC_ADDRESS; WMAS_ADDRESS; WETH_ADDRESS] deadline masToSend;
  (* Verify balance increased (DISABLED FOR DEBUGGING), as above. *)
  balanceAfter ← getTokenBalance ctx WETH_ADDRESS;
  generateEvent
    (MultiHopSwapExecuted amountIn (Z.of_N amountOut) balanceBefore
       balanceAfter);;
  mret amountOut.

(** *** Rebalancing *)

(** [a > b ? a - b : b - a] *)
Definition absDiff (a b : Z) : Z :=
  if a >? b then U64.sub a b else U64.sub b a.

(** The nested conditional that picks the largest of the three drifts. *)
Definition max3 (wmasDrift wethDrift usdcDrift : Z) : Z :=
  if wmasDrift >? wethDrift
  then (if wmasDrift >? usdcDrift then wmasDrift else usdcDrift)
  else (if wethDrift >? usdcDrift then wethDrift else usdcDrift).

(** [deficit > usdcBalance ? usdcBalance / 2 : deficit] *)
Definition swapAmountOf (deficitValue usdcBalance : Z) : Z :=
  if deficitValue >? usdcBalance then U64.div usdcBalance 2 else deficitValue.

(** The nested contract call of [scheduleNextRebalance] runs [rebalance]
    with the vault as its own caller. *)
Definition selfContext (ctx : CallContext) (coins : Z) : CallContext :=
  mkContext (callee ctx) (callee ctx) (timestamp ctx) (currentPeriod ctx)
    coins false.

Section Recursion.

(** [rebalance], as run by the nested call. *)
Variable self : CallContext -> M unit.

Definition scheduleNextRebalance (ctx : CallContext) : M unit :=
  w ← getWorld;
  let gasBankBalance := balance w in
  if gasBankBalance >? 100000000 then
    let callCoins := 50000000 in
    logCall (CallSelf "rebalance" callCoins);;
    external_ (sendCoinsToSelf w (callee ctx) callCoins) "call failed";;
    self (selfContext ctx callCoins);;
    Storage.set AUTON_SCHEDULED "true"
  else
    Storage.set AUTON_SCHEDULED "false".

(** Lines 720-746: the leg that buys WMAS with USDC. Returns the number of
    swaps it counted. *)
Definition wmasLeg (ctx : CallContext)
    (wmasCurrentBps wmasTargetBps wmasTargetValue wmasValueUSDC
     usdcBalance : Z) : M Z :=
  if wmasCurrentBps <? U64.sub wmasTargetBps 100 then
    let wmasDeficitValue := U64.sub wmasTargetValue wmasValueUSDC in
    let swapAmount := swapAmountOf wmasDeficitValue usdcBalance in
    if (swapAmount >=? 10000) && (usdcBalance >=? swapAmount) then
      let minOut := 1 in
      amountOut ← executeTestSwap ctx USDC_ADDRESS WMAS_ADDRESS swapAmount
                    minOut;
      mret (if N.eqb amountOut 0 then 0 else 1)
    else mret 0
  else mret 0.

(** Lines 748-769: the leg that buys WETH with USDC through WMAS. *)
Definition wethLeg (ctx : CallContext)
    (wethCurrentBps wethTargetBps wethTargetValue wethValueUSDC
     usdcBalance : Z) : M Z :=
  if wethCurrentBps <? U64.sub wethTargetBps 100 then
    let wethDeficitValue := U64.sub wethTargetValue wethValueUSDC in
    let swapAmount := swapAmountOf wethDeficitValue usdcBalance in
    if (swapAmount >=? 10000) && (usdcBalance >=? swapAmount) then
      let minOut := 1 in
      amountOut ← executeMultiHopSwap ctx swapAmount minOut;
      mret (if N.eqb amountOut 0 then 0 else 1)
    else mret 0
  else mret 0.

Definition executeRebalanceInternal (ctx : CallContext) : M unit :=
  Storage.set LAST_REBALANCE_KEY (U64.toString (timestamp ctx));;
  wmasBalanceStr ← getTokenBalanceString ctx WMAS_ADDRESS;
  wethBalanceStr ← getTokenBalanceString ctx WETH_ADDRESS;
  usdcBalanceStr ← getTokenBalanceString ctx USDC_ADDRESS;
  let wmasBalance := U64.parseInt wmasBalanceStr in
  let wethBalance := U64.parseInt wethBalanceStr in
  let usdcBalance := U64.parseInt usdcBalanceStr in
  let wmasValueUSDC := U64.div (U64.mul wmasBalance 6) 100000 in
  let wethValueUSDC := U64.div (U64.mul wethBalance 3) 1000000000 in
  let usdcValueUSDC := usdcBalance in
  let totalValueUSDC :=
    U64.add (U64.add wmasValueUSDC wethValueUSDC) usdcValueUSDC in
  if totalValueUSDC =? 0 then
    generateEvent (RebalanceSkipped "Zero portfolio value" [])
  else
    let wmasCurrentBps :=
      U64.div (U64.mul wmasValueUSDC 10000) totalValueUSDC in
    let wethCurrentBps :=
      U64.div (U64.mul wethValueUSDC 10000) totalValueUSDC in
    let usdcCurrentBps :=
      U64.div (U64.mul usdcValueUSDC 10000) totalValueUSDC in
    targetsStr ← Storage.get TARGETS_BPS_KEY;
    let targetsParts := split_commas targetsStr "" in
    p0 ← part targetsParts 0;
    p1 ← part targetsParts 1;
    p2 ← part targetsParts 2;
    let wmasTargetBps := U64.parseInt p0 in
    let wethTargetBps := U64.parseInt p1 in
    let usdcTargetBps := U64.parseInt p2 in
    let wmasDrift := absDiff wmasCurrentBps wmasTargetBps in
    let wethDrift := absDiff wethCurrentBps wethTargetBps in
    let usdcDrift := absDiff usdcCurrentBps usdcTargetBps in
    let maxDrift := max3 wmasDrift wethDrift usdcDrift in
    maxDriftStr ← Storage.get MAX_DRIFT_BPS_KEY;
    let maxDriftBps := U64.parseInt maxDriftStr in
    generateEvent
      (DriftCalculated wmasCurrentBps wethCurrentBps usdcCurrentBps
         wmasDrift wethDrift usdcDrift maxDrift);;
    if maxDrift <=? maxDriftBps then
      generateEvent
        (RebalanceSkipped "Drift within threshold" [maxDrift; maxDriftBps]);;
      scheduleNextRebalance ctx
    else
      let wmasTargetValue :=
        U64.div (U64.mul totalValueUSDC wmasTargetBps) 10000 in
      let wethTargetValue :=
        U64.div (U64.mul totalValueUSDC wethTargetBps) 10000 in
      swaps1 ← wmasLeg ctx wmasCurrentBps wmasTargetBps wmasTargetValue
                 wmasValueUSDC usdcBalance;
      swaps2 ← wethLeg ctx wethCurrentBps wethTargetBps wethTargetValue
                 wethValueUSDC usdcBalance;
      let swapCount := U64.add swaps1 swaps2 in
      generateEvent
        (RebalanceExecuted (timestamp ctx) swapCount maxDrift maxDriftBps);;
      scheduleNextRebalance ctx.

Definition rebalance_body (ctx : CallContext) : M unit :=
  owner ← Storage.get OWNER_KEY;
  assert (String.eqb (caller ctx) owner
          || String.eqb (caller ctx) (callee ctx))
    "Unauthorized rebalance";;
  totalSharesStr ← Storage.get TOTAL_SHARES_KEY;
  let totalShares := U64.parseInt totalSharesStr in
  if totalShares =? 0 then
    Storage.set AUTON_SCHEDULED "false";;
    generateEvent (RebalanceSkipped "No deposits" [])
  else
    guardArmed ← Storage.has GUARD_ARMED_KEY;
    if negb guardArmed then
      Storage.del AUTON_SCHEDULED;;
      generateEvent (RebalanceSkipped "Guard off" [])
    else
      w ← getWorld;
      let gasBankBalance := balance w in
      if gasBankBalance <? 100000000 then
        Storage.set AUTON_SCHEDULED "false";;
        generateEvent (AutonomousRebalanceSkipped gasBankBalance)
      else
        (* Epoch gating *)
        lastRebalanceStr ← getOr LAST_REBALANCE_KEY "0";
        let lastRebalance := U64.parseInt lastRebalanceStr in
        epochStr ← Storage.get REBALANCE_EPOCH_SECONDS_KEY;
        let epochSeconds := U64.parseInt epochStr in
        let now := timestamp ctx in
        if (lastRebalance >? 0)
           && (now <? U64.add lastRebalance (U64.mul epochSeconds 1000))
        then
          let waitTime :=
            U64.sub (U64.add lastRebalance (U64.mul epochSeconds 1000)) now in
          generateEvent (RebalanceSkipped "Too soon" [waitTime])
        else
          executeRebalanceInternal ctx;;
          Storage.set LAST_REBALANCE_KEY (U64.toString now);;
          scheduleNextRebalance ctx;;
          if String.eqb (caller ctx) owner
          then generateEvent (ManualRebalanceTriggered (caller ctx))
          else mret tt.

End Recursion.

(** The vault calls its own [rebalance] from [scheduleNextRebalance]; the
    host bounds the depth of nested calls, and a call chain that exceeds the
    bound aborts. [depth] is the number of nested calls still allowed. *)
Fixpoint rebalance (depth : nat) (ctx : CallContext) : M unit :=
  match depth with
  | O => revert "call stack depth exceeded"
  | S depth' => rebalance_body (rebalance depth') ctx
  end.

Definition triggerRebalance (depth : nat) (ctx : CallContext) : M unit :=
  generateEvent (TriggerRebalanceStarted (caller ctx) (timestamp ctx));;
  executeRebalanceInternal (rebalance depth) ctx;;
  autonomousEnabled ← Storage.has AUTONOMOUS_MODE_ENABLED;
  if autonomousEnabled : bool then
    w ← getWorld;
    let gasBank := balance w in
    if gasBank <? MIN_GAS_BANK_BALANCE then
      Storage.set AUTONOMOUS_MODE_ENABLED "false";;
      let gasBankMAS := U64.div gasBank 1000000000 in
      generateEvent (AutonomousModeStopped "Low gas bank" [gasBankMAS])
    else
      epochStr ← getOr REBALANCE_EPOCH_SECONDS_KEY "1800";
      let epochSeconds := U64.parseInt epochStr in
      let slotsToAdd := U64.mul epochSeconds 2 in
      let targetPeriod := U64.add (currentPeriod ctx) slotsToAdd in
      let maxGas := 200000000 in
      let paramsSize := 0 in
      let targetSlot :=
        findCheapestSlot w targetPeriod (U64.add targetPeriod 100)
          maxGas paramsSize in
      let quote := deferredCallQuote w targetSlot maxGas paramsSize in
      let currentGasBank := balance w in
      if (currentGasBank >=? quote) && (currentGasBank >=? MIN_GAS_BANK_BALANCE)
      then
        logCall (CallDeferredRegister (callee ctx) "triggerRebalance"
                   (period targetSlot) maxGas);;
        deferredId ← external
          (deferredCallRegister w (callee ctx) "triggerRebalance" targetSlot
             maxGas 0) "deferred call registration failed";
        Storage.set DEFERRED_CALL_ID_KEY deferredId;;
        generateEvent
          (NextRebalanceScheduled deferredId (period targetSlot) quote)
      else
        Storage.set AUTONOMOUS_MODE_ENABLED "false";;
        generateEvent
          (AutonomousModeStopped "Insufficient gas bank" [quote; gasBank])
  else mret tt.

(** *** Configuration and queries *)

Record Config : Type := mkConfig {
  cfg_name : string;
  cfg_symbol : string;
  cfg_owner : string;
  cfg_target0 : Z;
  cfg_target1 : Z;
  cfg_target2 : Z;
  cfg_maxDriftBps : Z;
  cfg_rebalanceEpochSeconds : Z;
  cfg_minDepositUSDC : Z;
  cfg_minSliceValue : Z
}.

Definition getConfig : M Config :=
  name ← Storage.get NAME_KEY;
  symbol ← Storage.get SYMBOL_KEY;
  owner ← Storage.get OWNER_KEY;
  targetsStr ← Storage.get TARGETS_BPS_KEY;
  let targetsParts := split_commas targetsStr "" in
  p0 ← part targetsParts 0;
  p1 ← part targetsParts 1;
  p2 ← part targetsParts 2;
  maxDriftStr ← Storage.get MAX_DRIFT_BPS_KEY;
  epochStr ← Storage.get REBALANCE_EPOCH_SECONDS_KEY;
  minDepositStr ← Storage.get MIN_DEPOSIT_USDC_KEY;
  minSliceStr ← Storage.get MIN_SLICE_VALUE_KEY;
  mret (mkConfig name symbol owner (U64.parseInt p0) (U64.parseInt p1)
          (U64.parseInt p2) (U64.parseInt maxDriftStr)
          (U64.parseInt epochStr) (U64.parseInt minDepositStr)
          (U64.parseInt minSliceStr)).

Definition setMinDeposit (ctx : CallContext) (newMinDeposit : Z) : M unit :=
  owner ← Storage.get OWNER_KEY;
  assert (String.eqb (caller ctx) owner) "Only owner can set minimum deposit";;
  Storage.set MIN_DEPOSIT_USDC_KEY (U64.toString newMinDeposit);;
  generateEvent (MinimumDepositUpdated newMinDeposit).

(** Returns [(totalValueUSDC, wmasBalance, wethBalance, usdceBalance,
    totalShares)]. *)
Definition getBalances (ctx : CallContext) : M (Z * Z * Z * Z * Z) :=
  totalSharesStr ← getOr TOTAL_SHARES_KEY "0";
  let totalShares :=
    if String.eqb totalSharesStr "0" then 0 else U64.parseInt totalSharesStr in
  wmasBalance ← getTokenBalance ctx WMAS_ADDRESS;
  wethBalance ← getTokenBalance ctx WETH_ADDRESS;
  usdceBalance ← getTokenBalance ctx USDC_ADDRESS;
  let totalValueUSDC := usdceBalance in
  mret (totalValueUSDC, wmasBalance, wethBalance, usdceBalance, totalShares).

Definition getUserShares (userAddress : string) : M string :=
  getOr (userSharesKey userAddress) "0".

Definition getGuardStatus : M bool := Storage.has GUARD_ARMED_KEY.

Definition isPaused : M bool := Storage.has PAUSED_KEY.

(** *** The share ledger *)

Definition transferTokenToUser (ctx : CallContext)
    (tokenAddress userAddress : string) (amount : Z) : M unit :=
  if amount =? 0 then mret tt
  else
    logCall (CallTransfer tokenAddress userAddress amount);;
    w ← getWorld;
    external_ (transfer w tokenAddress (callee ctx) userAddress amount)
      "transfer failed".

Definition deposit (ctx : CallContext) (amount : Z) : M unit :=
  paused ← Storage.has PAUSED_KEY;
  (if paused : bool then assert false "Contract is paused" else mret tt);;
  entered ← Storage.has REENTRANCY_GUARD_KEY;
  (if entered : bool then assert false "Reentrancy attempt detected"
   else mret tt);;
  Storage.set REENTRANCY_GUARD_KEY "true";;
  let caller := caller ctx in
  minDepositStr ← Storage.get MIN_DEPOSIT_USDC_KEY;
  let minDeposit := U64.parseInt minDepositStr in
  assert (amount >=? minDeposit) "Amount below minimum deposit";;
  balanceBeforeStr ← getTokenBalanceString ctx USDC_ADDRESS;
  let balanceBefore := U64.parseInt balanceBeforeStr in
  logCall (CallTransferFrom USDC_ADDRESS caller (callee ctx) amount);;
  w ← getWorld;
  external_ (transferFrom w USDC_ADDRESS (callee ctx) caller (callee ctx) amount)
    "transferFrom failed";;
  balanceAfterStr ← getTokenBalanceString ctx USDC_ADDRESS;
  let balanceAfter := U64.parseInt balanceAfterStr in
  assert (balanceAfter >=? U64.add balanceBefore amount)
    "USDC transfer failed - check allowance and balance";;
  let sharesAmount := amount in
  let sharesKey := userSharesKey caller in
  hasShares ← Storage.has sharesKey;
  currentShares ←
    (if hasShares : bool then
       currentStr ← Storage.get sharesKey; mret (U64.parseInt currentStr)
     else mret 0);
  let newShares := U64.add currentShares sharesAmount in
  Storage.set sharesKey (U64.toString newShares);;
  totalSharesStr ← Storage.get TOTAL_SHARES_KEY;
  let totalShares := U64.parseInt totalSharesStr in
  Storage.set TOTAL_SHARES_KEY (U64.toString (U64.add totalShares sharesAmount));;
  Storage.del REENTRANCY_GUARD_KEY;;
  generateEvent (Deposit caller amount sharesAmount).

Definition redeem (ctx : CallContext) (shares : Z) (toUSDC : bool) : M unit :=
  let caller := caller ctx in
  let sharesKey := userSharesKey caller in
  hasShares ← Storage.has sharesKey;
  assert hasShares "No shares to redeem";;
  currentStr ← Storage.get sharesKey;
  let currentShares := U64.parseInt currentStr in
  assert (currentShares >=? shares) "Insufficient shares";;
  totalSharesStr ← Storage.get TOTAL_SHARES_KEY;
  let totalShares := U64.parseInt totalSharesStr in
  assert (totalShares >? 0) "No shares in circulation";;
  wmasBalanceStr ← getTokenBalanceString ctx WMAS_ADDRESS;
  wethBalanceStr ← getTokenBalanceString ctx WETH_ADDRESS;
  usdcBalanceStr ← getTokenBalanceString ctx USDC_ADDRESS;
  let wmasBalance := U64.parseInt wmasBalanceStr in
  let wethBalance := U64.parseInt wethBalanceStr in
  let usdcBalance := U64.parseInt usdcBalanceStr in
  let userWmas := U64.div (U64.mul shares wmasBalance) totalShares in
  let userWeth := U64.div (U64.mul shares wethBalance) totalShares in
  let userUsdc := U64.div (U64.mul shares usdcBalance) totalShares in
  let newShares := U64.sub currentShares shares in
  (if newShares >? 0 then Storage.set sharesKey (U64.toString newShares)
   else Storage.del sharesKey);;
  Storage.set TOTAL_SHARES_KEY (U64.toString (U64.sub totalShares shares));;
  (if toUSDC then
     let totalUSDC := userUsdc in
     totalUSDC ←
       (if userWmas >? 0 then
          let minOut := 1 in
          approveToken ctx WMAS_ADDRESS userWmas;;
          result ← routerSwap ctx userWmas minOut [BIN_STEP_USDC_WMAS] [false]
                     [WMAS_ADDRESS; USDC_ADDRESS]
                     (U64.add (timestamp ctx) SWAP_DEADLINE_BUFFER)
                     STORAGE_FEE_PER_SWAP;
          let swappedAmount := U64.wrap (Z.of_N result) in
          generateEvent (RedeemSwapExecuted "WMAS->USDC" userWmas swappedAmount);;
          mret (U64.add totalUSDC swappedAmount)
        else mret totalUSDC);
     totalUSDC ←
       (if userWeth >? 0 then
          let minOut := 1 in
          approveToken ctx WETH_ADDRESS userWeth;;
          result ← routerSwap ctx userWeth minOut
                     [BIN_STEP_WMAS_WETH; BIN_STEP_USDC_WMAS] [false; false]
                     [WETH_ADDRESS; WMAS_ADDRESS; USDC_ADDRESS]
                     (U64.add (timestamp ctx) SWAP_DEADLINE_BUFFER)
                     STORAGE_FEE_PER_SWAP;
          let swappedAmount := U64.wrap (Z.of_N result) in
          generateEvent
            (RedeemSwapExecuted "WETH->WMAS->USDC" userWeth swappedAmount);;
          mret (U64.add totalUSDC swappedAmount)
        else mret totalUSDC);
     (* [totalUSDC] is not read again: the amount sent is the vault's whole
        balance of the base asset. *)
     finalUsdcStr ← getTokenBalanceString ctx USDC_ADDRESS;
     let finalUsdc := U64.parseInt finalUsdcStr in
     transferTokenToUser ctx USDC_ADDRESS caller finalUsdc;;
     generateEvent (RedeemExecutedToUSDC shares finalUsdc)
   else
     transferTokenToUser ctx WMAS_ADDRESS caller userWmas;;
     transferTokenToUser ctx WETH_ADDRESS caller userWeth;;
     transferTokenToUser ctx USDC_ADDRESS caller userUsdc;;
     generateEvent (RedeemExecuted shares userWmas userWeth userUsdc));;
  generateEvent (Withdraw caller shares userWmas userWeth userUsdc toUSDC).

(** *** Guard, pause and administration *)

Definition setGuard (ctx : CallContext) (armed : bool) : M unit :=
  owner ← Storage.get OWNER_KEY;
  assert (String.eqb (caller ctx) owner) "Only owner can set guard";;
  Storage.set GUARD_ARMED_KEY (boolText armed);;
  generateEvent (GuardArmed armed).

Definition topUpGasBank (ctx : CallContext) : M unit :=
  let amount := transferredCoins ctx in
  w ← getWorld;
  let newBalance := balance w in
  generateEvent (GasBankUpdated newBalance amount).

Definition pause (ctx : CallContext) : M unit :=
  owner ← Storage.get OWNER_KEY;
  assert (String.eqb (caller ctx) owner) "Only owner can pause";;
  Storage.set PAUSED_KEY "true";;
  generateEvent (ContractPaused (timestamp ctx)).

Definition unpause (ctx : CallContext) : M unit :=
  owner ← Storage.get OWNER_KEY;
  assert (String.eqb (caller ctx) owner) "Only owner can unpause";;
  Storage.set PAUSED_KEY "false";;
  generateEvent (ContractUnpaused (timestamp ctx)).

Definition updateTargets (ctx : CallContext) (target0 target1 target2 : Z)
  : M unit :=
  owner ← Storage.get OWNER_KEY;
  assert (String.eqb (caller ctx) owner) "Only owner can update targets";;
  assert (U64.add (U64.add target0 target1) target2 =? 10000)
    "Targets must sum to 10000 bps";;
  Storage.set TARGETS_BPS_KEY (joinTargets target0 target1 target2);;
  generateEvent (TargetsUpdated target0 target1 target2).

Definition updateMaxDrift (ctx : CallContext) (newMaxDrift : Z) : M unit :=
  owner ← Storage.get OWNER_KEY;
  assert (String.eqb (caller ctx) owner) "Only owner can update max drift";;
  assert ((newMaxDrift >? 0) && (newMaxDrift <=? 2000))
    "Max drift must be 1-2000 bps";;
  Storage.set MAX_DRIFT_BPS_KEY (U64.toString newMaxDrift);;
  generateEvent (MaxDriftUpdated newMaxDrift).

Definition updateRebalanceEpoch (ctx : CallContext) (newEpoch : Z) : M unit :=
  owner ← Storage.get OWNER_KEY;
  assert (String.eqb (caller ctx) owner)
    "Only owner can update rebalance epoch";;
  assert (newEpoch >=? 300) "Epoch must be at least 300 seconds (5 minutes)";;
  Storage.set REBALANCE_EPOCH_SECONDS_KEY (U64.toString newEpoch);;
  generateEvent (RebalanceEpochUpdated newEpoch).

Definition emergencyWithdraw (ctx : CallContext) (tokenAddress : string)
    (amount : Z) : M unit :=
  owner ← Storage.get OWNER_KEY;
  assert (String.eqb (caller ctx) owner) "Only owner can emergency withdraw";;
  paused ← Storage.has PAUSED_KEY;
  (if negb paused
   then assert false "Contract must be paused for emergency withdrawal"
   else mret tt);;
  transferTokenToUser ctx tokenAddress owner amount;;
  generateEvent (EmergencyWithdraw tokenAddress amount owner).

Definition transferOwnership (ctx : CallContext) (newOwner : string) : M unit :=
  owner ← Storage.get OWNER_KEY;
  assert (String.eqb (caller ctx) owner) "Only owner can transfer ownership";;
  assert (negb (String.eqb newOwner "")) "New owner address cannot be empty";;
  Storage.set OWNER_KEY newOwner;;
  generateEvent (OwnershipTransferred owner newOwner).

(** *** Calls as data, and the vault as a transition system *)

(** The entry points that can write to the storage or to the world. *)
Inductive Call : Type :=
| CConstructor (args : ConstructorArgs)
| CStartAutonomousRebalancing
| CTriggerRebalance
| CValidateBinSteps
| CSetMinDeposit (newMinDeposit : Z)
| CDeposit (amount : Z)
| CRedeem (shares : Z) (toUSDC : bool)
| CSetGuard (armed : bool)
| CTopUpGasBank
| CRebalance
| CPause
| CUnpause
| CUpdateTargets (target0 target1 target2 : Z)
| CUpdateMaxDrift (newMaxDrift : Z)
| CUpdateRebalanceEpoch (newEpoch : Z)
| CEmergencyWithdraw (tokenAddress : string) (amount : Z)
| CTransferOwnership (newOwner : string).

Definition dispatch (depth : nat) (ctx : CallContext) (c : Call) : M unit :=
  match c with
  | CConstructor args => constructor ctx args
  | CStartAutonomousRebalancing => startAutonomousRebalancing ctx
  | CTriggerRebalance => triggerRebalance depth ctx
  | CValidateBinSteps => validateBinSteps
  | CSetMinDeposit n => setMinDeposit ctx n
  | CDeposit amount => deposit ctx amount
  | CRedeem shares toUSDC => redeem ctx shares toUSDC
  | CSetGuard armed => setGuard ctx armed
  | CTopUpGasBank => topUpGasBank ctx
  | CRebalance => rebalance depth ctx
  | CPause => pause ctx
  | CUnpause => unpause ctx
  | CUpdateTargets t0 t1 t2 => updateTargets ctx t0 t1 t2
  | CUpdateMaxDrift d => updateMaxDrift ctx d
  | CUpdateRebalanceEpoch e => updateRebalanceEpoch ctx e
  | CEmergencyWithdraw token amount => emergencyWithdraw ctx token amount
  | CTransferOwnership newOwner => transferOwnership ctx newOwner
  end.

(** One call on the chain: a call that reverts leaves the state as it was. *)
Definition step (depth : nat) (s : State W) (c : CallContext * Call) : State W :=
  match dispatch depth (fst c) (snd c) s with
  | Ok _ s' => s'
  | Revert _ => s
  end.

Definition run (depth : nat) (cs : list (CallContext * Call)) (s : State W)
  : State W :=
  fold_left (step depth) cs s.

(** *** Observations on the ledger *)

(** The share count recorded for a holder (0 when there is no record). *)
Definition sharesOf (st : gmap string string) (holder : string) : Z :=
  match st !! userSharesKey holder with
  | Some v => U64.parseInt v
  | None => 0
  end.

Definition isSharesKey (key : string) : bool :=
  String.prefix "shares:" key.

(** The sum of every holder's share record. *)
Definition sumShares (st : gmap string string) : Z :=
  map_fold (fun key v acc =>
              if isSharesKey key then U64.parseInt v + acc else acc) 0 st.

Definition totalShares (st : gmap string string) : Z :=
  match st !! TOTAL_SHARES_KEY with
  | Some v => U64.parseInt v
  | None => 0
  end.

(** A deposit or a redemption whose argument is a [u64]. *)
Definition isLedgerOp (c : Call) : bool :=
  match c with
  | CDeposit amount => (0 <=? amount) && (amount <? U64.modulus)
  | CRedeem shares _ => (0 <=? shares) && (shares <? U64.modulus)
  | _ => false
  end.

(** What one storage entry contributes to the sum of the share records. *)
Definition recorded (key : string) (entry : option string) : Z :=
  match entry with
  | Some v => if isSharesKey key then U64.parseInt v else 0
  | None => 0
  end.

(** The ledger is consistent, and holds at most [bound] shares. *)
Definition ledger_ok (bound : Z) (st : gmap string string) : Prop :=
  totalShares st = sumShares st /\ sumShares st <= bound.

(** [key] is in the storage. *)
Definition hasKey (key : string) (st : gmap string string) : Prop :=
  is_Some (st !! key).

(** A successful run of [m] leaves [key] in the storage if it was there. *)
Definition KeepsKey (key : string) {A} (m : M A) : Prop :=
  forall s a s',
    hasKey key (storage s) -> m s = Ok a s' -> hasKey key (storage s').

(** The keys the contract never deletes: all but the reentrancy flag, the
    [auton_scheduled] mark and the holders' share records. *)
Definition sticky (key : string) : Prop :=
  key <> REENTRANCY_GUARD_KEY /\ key <> AUTON_SCHEDULED /\
  isSharesKey key = false.

(** What a swap leg may commit: at most the balance; half of it when the
    deficit is larger than the balance, the deficit otherwise. *)
Definition legCallOk (deficitValue usdcBalance : Z) (c : ExtCall) : Prop :=
  match c with
  | CallSwap amountIn _ _ _ _ _ _ =>
      amountIn <= usdcBalance /\
      (deficitValue > usdcBalance -> amountIn = usdcBalance / 2) /\
      (deficitValue <= usdcBalance -> amountIn = deficitValue)
  | _ => True
  end.

(** What [transferTokenToUser] adds to the call log. *)
Definition payoutCall (token user : string) (amount : Z) : list ExtCall :=
  if amount =? 0 then [] else [CallTransfer token user amount].

(** [(shares * balance) / totalShares] on the 64-bit reading of a balance. *)
Definition payoutOf (shares : Z) (reported : N) (total : Z) : Z :=
  U64.div (U64.mul shares (U64.parseInt (U64.toString (Z.of_N reported)))) total.

(** *** Observations on a run *)

Definition succeeds {A} (r : Result W A) : bool :=
  match r with
  | Ok _ _ => true
  | Revert _ => false
  end.

(** The state a call leaves, the state it started from if it reverts. *)
Definition after {A} (m : M A) (s : State W) : State W :=
  match m s with
  | Ok _ s' => s'
  | Revert _ => s
  end.

Definition returnsTrue (m : M bool) (s : State W) : bool :=
  match m s with
  | Ok b _ => b
  | Revert _ => false
  end.

(** What the autonomous-status query reports as the enabled flag. *)
Definition reportsEnabled (s : State W) : option bool :=
  match getAutonomousStatus s with
  | Ok status _ => Some (autonomousEnabled status)
  | Revert _ => None
  end.

End Contract.

(** The input amounts of the router swaps in a list of calls. *)
Definition swapAmounts (cs : list ExtCall) : list Z :=
  flat_map (fun c => match c with
                     | CallSwap amountIn _ _ _ _ _ _ => [amountIn]
                     | _ => []
                     end) cs.

Definition isSkip (e : Event) : bool :=
  match e with
  | RebalanceSkipped _ _ => true
  | _ => false
  end.

(** ** A concrete world, for running the contract

    A ledger of token balances with an honest token and a one-for-one router;
    two switches turn the token or the router into one that reports success
    and moves nothing. *)

Record Ledger : Type := mkLedger {
  tokens : gmap (string * string) N;
  mas : Z;
  tokenMoves : bool;
  routerMoves : bool;
  quoteFee : Z
}.

Definition held (l : Ledger) (token holder : string) : N :=
  default 0%N (tokens l !! (token, holder)).

Definition move (l : Ledger) (token from to : string) (amount : N)
  : option Ledger :=
  if (amount <=? held l token from)%N then
    let t1 := <[(token, from) := (held l token from - amount)%N]> (tokens l) in
    let l1 := mkLedger t1 (mas l) (tokenMoves l) (routerMoves l) (quoteFee l) in
    let t2 := <[(token, to) := (held l1 token to + amount)%N]> t1 in
    Some (mkLedger t2 (mas l) (tokenMoves l) (routerMoves l) (quoteFee l))
  else None.

Definition spend (l : Ledger) (coins : Z) : option Ledger :=
  if mas l <? coins then None
  else Some (mkLedger (tokens l) (mas l - coins) (tokenMoves l) (routerMoves l)
               (quoteFee l)).

Definition ledger_transferFrom (l : Ledger) (token spender from to : string)
    (amount : Z) : option Ledger :=
  if tokenMoves l then move l token from to (Z.to_N amount) else Some l.

Definition ledger_swap (l : Ledger) (sender : string) (amountIn amountOutMin : Z)
    (pairBinSteps : list Z) (isLegacyPools : list bool)
    (tokenPath : list string) (to : string) (deadline coins : Z)
  : option (Ledger * N) :=
  match tokenPath, last tokenPath with
  | tokenIn :: _, Some tokenOut =>
      l1 ← spend l coins;
      let amountOut := Z.to_N amountIn in
      if routerMoves l then
        l2 ← move l1 tokenIn sender "pool" (Z.to_N amountIn);
        let t3 := <[(tokenOut, to) := (held l2 tokenOut to + amountOut)%N]>
                    (tokens l2) in
        Some (mkLedger t3 (mas l2) (tokenMoves l2) (routerMoves l2) (quoteFee l2),
              amountOut)
      else Some (l1, amountOut)
  | _, _ => None
  end.

#[export] Instance ledger_host : Host Ledger := {|
  balanceOf l token holder := Some (held l token holder);
  transferFrom := ledger_transferFrom;
  transfer l token sender to amount := move l token sender to (Z.to_N amount);
  increaseAllowance l token owner spender amount := Some l;
  swapExactTokensForTokens := ledger_swap;
  getAvailableLBPairBinSteps l tokenX tokenY := Some [BIN_STEP_USDC_WMAS];
  balance := mas;
  findCheapestSlot l first final maxGas paramsSize := mkSlot first 0;
  deferredCallQuote l slot maxGas paramsSize := quoteFee l;
  deferredCallRegister l target function slot maxGas coins :=
    fmap (fun l' => (l', "deferred-1")) (spend l (quoteFee l));
  sendCoinsToSelf l address coins := if mas l <? coins then None else Some l
|}.

Definition VAULT := "AS1vault".
Definition OWNER := "AU1owner".
Definition ALICE := "AU1alice".
Definition BOB := "AU1bob".

(** A call by [who] at time [now] (milliseconds). *)
Definition at_time (who : string) (now : Z) : CallContext :=
  mkContext who VAULT now (now / 500) 0 false.

Definition deployment : CallContext := mkContext OWNER VAULT 1000 2 0 true.

Definition demoArgs (target0 target1 target2 minDeposit : Z) : ConstructorArgs :=
  mkConstructorArgs "Sentinel Index Vault" "SIV" target0 target1 target2
    500 1800 minDeposit 10000 USDC_ADDRESS WMAS_ADDRESS WETH_ADDRESS
    DUSA_ROUTER "".

Definition emptyState (l : Ledger) : State Ledger := mkState ∅ [] [] l.

(** The vault right after its deployment on ledger [l]. *)
Definition genesis (args : ConstructorArgs) (l : Ledger) : State Ledger :=
  step 0 (emptyState l) (deployment, CConstructor args).

Definition fundedLedger (aliceUSDC bobUSDC : N) (vaultMAS : Z) : Ledger :=
  mkLedger {[ (USDC_ADDRESS, ALICE) := aliceUSDC; (USDC_ADDRESS, BOB) := bobUSDC ]}
    vaultMAS true true 1000000000.

(** The events and external calls a call added to the logs. *)
Definition newEvents {W} (before after : State W) : list Event :=
  drop (length (events before)) (events after).

Definition newCalls {W} (before after : State W) : list ExtCall :=
  drop (length (calls before)) (calls after).

(** ** Scenarios *)

Definition standardArgs : ConstructorArgs := demoArgs 3333 3334 3333 100000.

(** Two deposits and a redemption in kind. *)
Definition ledgerGenesis : State Ledger :=
  genesis standardArgs (fundedLedger 1000000 500000 0).

Definition ledgerOps : list (CallContext * Call) :=
  [ (at_time ALICE 5000, CDeposit 1000000);
    (at_time BOB 6000, CDeposit 500000);
    (at_time ALICE 7000, CRedeem 400000 false) ].

(** Two deposits of 2^63 units each. *)
Definition overflowGenesis : State Ledger :=
  genesis standardArgs (fundedLedger (2 ^ 63) (2 ^ 63) 0).

Definition overflowOps : list (CallContext * Call) :=
  [ (at_time ALICE 5000, CDeposit (2 ^ 63));
    (at_time BOB 6000, CDeposit (2 ^ 63)) ].

(** A vault on a ledger whose token reports success and moves nothing. *)
Definition idleTokenLedger (vaultUSDC : N) : Ledger :=
  mkLedger {[ (USDC_ADDRESS, VAULT) := vaultUSDC ]} 0 false true 1000000000.

Definition idleTokenGenesis (vaultUSDC : N) : State Ledger :=
  genesis standardArgs (idleTokenLedger vaultUSDC).

Definition idleDepositAfter : State Ledger :=
  step 1 (idleTokenGenesis (2 ^ 63)%N) (at_time BOB 6000, CDeposit (2 ^ 63)).

(** Two calls of [triggerRebalance] ten seconds apart, the epoch being 1800
    seconds. *)
Definition epochFunded : State Ledger :=
  step 1 (genesis standardArgs (fundedLedger 1000000 0 50000000))
    (at_time ALICE 5000, CDeposit 1000000).

Definition epochFirst : State Ledger :=
  step 1 epochFunded (at_time BOB 2000000, CTriggerRebalance).

Definition epochSecond : State Ledger :=
  step 1 epochFirst (at_time BOB 2010000, CTriggerRebalance).

(** Two holders with half of the shares each; one redeems to the base asset. *)
Definition sharedFunded : State Ledger :=
  run 1 [ (at_time ALICE 5000, CDeposit 500000);
          (at_time BOB 6000, CDeposit 500000) ]
    (genesis standardArgs (fundedLedger 500000 500000 50000000)).

Definition sharedRedeemed : State Ledger :=
  step 1 sharedFunded (at_time ALICE 7000, CRedeem 500000 true).

(** A router that reports an output amount and moves nothing. *)
Definition idleRouterLedger : Ledger :=
  mkLedger {[ (USDC_ADDRESS, ALICE) := 1000000%N ]} 50000000 true false
    1000000000.

Definition idleRouterFunded : State Ledger :=
  step 1 (genesis standardArgs idleRouterLedger)
    (at_time ALICE 5000, CDeposit 1000000).

Definition idleRouterAfter : State Ledger :=
  step 1 idleRouterFunded (at_time BOB 2000000, CTriggerRebalance).

(** Autonomy started with 1.5 MAS in the gas bank; the registration costs 1
    MAS, so the next self-invoked rebalance finds less than [MIN_GAS_BANK_BALANCE]. *)
Definition autoStarted : State Ledger :=
  run 1 [ (at_time ALICE 5000, CDeposit 1000000);
          (at_time OWNER 6000, CSetGuard true);
          (at_time OWNER 7000, CStartAutonomousRebalancing) ]
    (genesis standardArgs (fundedLedger 1000000 0 1500000000)).

Definition autoAfter : State Ledger :=
  step 1 autoStarted (at_time VAULT 1807000, CTriggerRebalance).

(** A vault that holds 0.00001 WETH (10^13 units) besides a deposit of 10
    USDC. *)
Definition wethLedger : Ledger :=
  mkLedger {[ (USDC_ADDRESS, ALICE) := 10000000%N;
              (WETH_ADDRESS, VAULT) := 10000000000000%N ]}
    50000000 true true 1000000000.

Definition wethFunded : State Ledger :=
  step 1 (genesis standardArgs wethLedger) (at_time ALICE 5000, CDeposit 10000000).

Definition wethRedeemed : State Ledger :=
  step 1 wethFunded (at_time ALICE 7000, CRedeem 10000000 false).

(** Targets of 80%, 10% and 10%, and a vault that holds the base asset only. *)
Definition cappedFunded : State Ledger :=
  step 1 (genesis (demoArgs 8000 1000 1000 100000)
            (fundedLedger 1000000 0 50000000))
    (at_time ALICE 5000, CDeposit 1000000).

Definition cappedAfter : State Ledger :=
  step 1 cappedFunded (at_time BOB 2000000, CTriggerRebalance).

(** ** Footprints, access and the shape of the external calls *)

(** The storage keys an entry point writes or deletes. *)
Definition footprint (ctx : CallContext) (c : Call) : list string :=
  match c with
  | CConstructor _ =>
      [NAME_KEY; SYMBOL_KEY; OWNER_KEY; TARGETS_BPS_KEY; MAX_DRIFT_BPS_KEY;
       REBALANCE_EPOCH_SECONDS_KEY; MIN_DEPOSIT_USDC_KEY; MIN_SLICE_VALUE_KEY;
       USDCE_KEY; WMAS_KEY; WETHB_KEY; DUSA_ROUTER_KEY; EAGLEFI_ROUTER_KEY;
       TOTAL_SHARES_KEY; LAST_REBALANCE_KEY]
  | CStartAutonomousRebalancing =>
      [DEFERRED_CALL_ID_KEY; AUTONOMOUS_MODE_ENABLED; LAST_REBALANCE_KEY;
       NEXT_REBALANCE_TIMESTAMP_KEY; DEFERRED_CALL_ACTIVE_KEY;
       LAST_REBALANCE_STATUS_KEY; LAST_ERROR_KEY; REBALANCE_COUNT_KEY]
  | CTriggerRebalance =>
      [LAST_REBALANCE_KEY; AUTON_SCHEDULED; AUTONOMOUS_MODE_ENABLED;
       DEFERRED_CALL_ID_KEY]
  | CValidateBinSteps => []
  | CSetMinDeposit _ => [MIN_DEPOSIT_USDC_KEY]
  | CDeposit _ =>
      [REENTRANCY_GUARD_KEY; userSharesKey (caller ctx); TOTAL_SHARES_KEY]
  | CRedeem _ _ => [userSharesKey (caller ctx); TOTAL_SHARES_KEY]
  | CSetGuard _ => [GUARD_ARMED_KEY]
  | CTopUpGasBank => []
  | CRebalance => [LAST_REBALANCE_KEY; AUTON_SCHEDULED]
  | CPause => [PAUSED_KEY]
  | CUnpause => [PAUSED_KEY]
  | CUpdateTargets _ _ _ => [TARGETS_BPS_KEY]
  | CUpdateMaxDrift _ => [MAX_DRIFT_BPS_KEY]
  | CUpdateRebalanceEpoch _ => [REBALANCE_EPOCH_SECONDS_KEY]
  | CEmergencyWithdraw _ _ => []
  | CTransferOwnership _ => [OWNER_KEY]
  end.

(** A successful run of [m] leaves the entry of [key] as it was. *)
Definition Preserves {W A} (key : string) (m : M W A) : Prop :=
  forall s a s', m s = Ok a s' -> storage s' !! key = storage s !! key.

(** The configuration of the vault: what the constructor and the owner's
    setters write, with the guard and the pause flag. *)
Definition adminKeys : list string :=
  [NAME_KEY; SYMBOL_KEY; OWNER_KEY; TARGETS_BPS_KEY; MAX_DRIFT_BPS_KEY;
   REBALANCE_EPOCH_SECONDS_KEY; MIN_DEPOSIT_USDC_KEY; MIN_SLICE_VALUE_KEY;
   USDCE_KEY; WMAS_KEY; WETHB_KEY; DUSA_ROUTER_KEY; EAGLEFI_ROUTER_KEY;
   GUARD_ARMED_KEY; PAUSED_KEY].

(** Who passes the first assertion of an entry point: the deployment for the
    constructor, the owner for the administration, the owner or the vault
    itself for [rebalance], anyone for the rest. *)
Definition mayCall (owner : string) (ctx : CallContext) (c : Call) : bool :=
  match c with
  | CConstructor _ => isDeployingContract ctx
  | CStartAutonomousRebalancing | CSetMinDeposit _ | CSetGuard _ | CPause
  | CUnpause | CUpdateTargets _ _ _ | CUpdateMaxDrift _
  | CUpdateRebalanceEpoch _ | CEmergencyWithdraw _ _ | CTransferOwnership _ =>
      String.eqb (caller ctx) owner
  | CRebalance =>
      String.eqb (caller ctx) owner || String.eqb (caller ctx) (callee ctx)
  | CTriggerRebalance | CValidateBinSteps | CDeposit _ | CRedeem _ _
  | CTopUpGasBank => true
  end.

(** A call made by someone other than [owner], outside a deployment. *)
Definition outsider (owner : string) (c : CallContext * Call) : Prop :=
  caller (fst c) <> owner /\ isDeployingContract (fst c) = false.

(** The entry points that trade on the router. *)
Definition trades (c : Call) : Prop :=
  match c with
  | CRedeem _ _ | CTriggerRebalance | CRebalance => True
  | _ => False
  end.

(** What the call [c], made in context [ctx], may ask of the world: the
    shape of every external call an entry point makes. *)
Definition expectedCall (ctx : CallContext) (c : Call) (call : ExtCall) : Prop :=
  match call with
  | CallTransferFrom token from to amount =>
      c = CDeposit amount /\ token = USDC_ADDRESS /\ from = caller ctx /\
      to = callee ctx
  | CallTransfer token to amount =>
      to = caller ctx /\
      ((exists shares toUSDC, c = CRedeem shares toUSDC) \/
       c = CEmergencyWithdraw token amount)
  | CallIncreaseAllowance token spender amount =>
      spender = DUSA_ROUTER /\ trades c
  | CallSwap amountIn amountOutMin pairBinSteps tokenPath to deadline coins =>
      amountOutMin = 1 /\ to = callee ctx /\
      deadline = U64.add (timestamp ctx) SWAP_DEADLINE_BUFFER /\
      coins = STORAGE_FEE_PER_SWAP /\ trades c
  | CallSelf function coins =>
      function = "rebalance" /\ coins = 50000000 /\
      (c = CTriggerRebalance \/ c = CRebalance)
  | CallDeferredRegister target function period maxGas =>
      target = callee ctx /\ function = "triggerRebalance" /\
      maxGas = 200000000 /\
      (c = CStartAutonomousRebalancing \/ c = CTriggerRebalance)
  end.

(** A successful run of [m] adds to the call log only calls that satisfy
    [P]. *)
Definition CallsOnly {W A} (P : ExtCall -> Prop) (m : M W A) : Prop :=
  forall s a s',
    m s = Ok a s' ->
    exists new, calls s' = (calls s ++ new)%list /\ Forall P new.

(** The calls of a rebalance: approvals for the router, swaps to the vault
    with a minimum output of 1, and the vault's call of its own
    [rebalance]. *)
Definition RebalanceCalls (ctx : CallContext) (P : ExtCall -> Prop) : Prop :=
  (forall token amount, P (CallIncreaseAllowance token DUSA_ROUTER amount)) /\
  (forall amountIn steps path,
     P (CallSwap amountIn 1 steps path (callee ctx)
          (U64.add (timestamp ctx) SWAP_DEADLINE_BUFFER) STORAGE_FEE_PER_SWAP)) /\
  P (CallSelf "rebalance" 50000000).

(** What the vault asks of the router: approvals name the Dusa router as
    spender; a swap names the vault as recipient, accepts any output of at
    least one unit, expires [SWAP_DEADLINE_BUFFER] after the call and carries
    [STORAGE_FEE_PER_SWAP]. *)
Definition routerCallOk (ctx : CallContext) (call : ExtCall) : Prop :=
  match call with
  | CallIncreaseAllowance _ spender _ => spender = DUSA_ROUTER
  | CallSwap _ amountOutMin _ _ to deadline coins =>
      amountOutMin = 1 /\ to = callee ctx /\
      deadline = U64.add (timestamp ctx) SWAP_DEADLINE_BUFFER /\
      coins = STORAGE_FEE_PER_SWAP
  | _ => True
  end.

(** Where tokens may go: out of the vault to the caller of a redemption or
    of an emergency withdrawal, into the vault from the caller of a deposit,
    in the amount deposited. *)
Definition tokenFlowOk (ctx : CallContext) (c : Call) (call : ExtCall) : Prop :=
  match call with
  | CallTransfer token to amount =>
      to = caller ctx /\
      match c with
      | CRedeem _ _ => True
      | CEmergencyWithdraw token' amount' => token = token' /\ amount = amount'
      | _ => False
      end
  | CallTransferFrom token from to amount =>
      token = USDC_ADDRESS /\ from = caller ctx /\ to = callee ctx /\
      c = CDeposit amount
  | _ => True
  end.

(** The latest rebalance recorded in the storage, 0 when there is none. *)
Definition lastRebalanceOf (st : gmap string string) : Z :=
  U64.parseInt (default "0" (st !! LAST_REBALANCE_KEY)).

(** ** Observations on the configuration, the schedule and the drift *)

(** The configuration a storage holds, as [getConfig] reads it. *)
Definition configOf (st : gmap string string) : option Config :=
  name ← st !! NAME_KEY;
  symbol ← st !! SYMBOL_KEY;
  owner ← st !! OWNER_KEY;
  targetsStr ← st !! TARGETS_BPS_KEY;
  p0 ← split_commas targetsStr "" !! 0%nat;
  p1 ← split_commas targetsStr "" !! 1%nat;
  p2 ← split_commas targetsStr "" !! 2%nat;
  maxDriftStr ← st !! MAX_DRIFT_BPS_KEY;
  epochStr ← st !! REBALANCE_EPOCH_SECONDS_KEY;
  minDepositStr ← st !! MIN_DEPOSIT_USDC_KEY;
  minSliceStr ← st !! MIN_SLICE_VALUE_KEY;
  Some (mkConfig name symbol owner (U64.parseInt p0) (U64.parseInt p1)
          (U64.parseInt p2) (U64.parseInt maxDriftStr)
          (U64.parseInt epochStr) (U64.parseInt minDepositStr)
          (U64.parseInt minSliceStr)).

(** No comma occurs in a text. *)
Fixpoint noComma (s : string) : Prop :=
  match s with
  | EmptyString => True
  | String c rest => c <> ","%char /\ noComma rest
  end.

(** The targets entry has the form the contract writes. *)
Definition targetsWritten (st : gmap string string) : Prop :=
  exists target0 target1 target2,
    st !! TARGETS_BPS_KEY = Some (joinTargets target0 target1 target2).

Definition withMinDeposit (n : Z) (cfg : Config) : Config :=
  mkConfig (cfg_name cfg) (cfg_symbol cfg) (cfg_owner cfg) (cfg_target0 cfg)
    (cfg_target1 cfg) (cfg_target2 cfg) (cfg_maxDriftBps cfg)
    (cfg_rebalanceEpochSeconds cfg) n (cfg_minSliceValue cfg).

Definition withMaxDrift (n : Z) (cfg : Config) : Config :=
  mkConfig (cfg_name cfg) (cfg_symbol cfg) (cfg_owner cfg) (cfg_target0 cfg)
    (cfg_target1 cfg) (cfg_target2 cfg) n
    (cfg_rebalanceEpochSeconds cfg) (cfg_minDepositUSDC cfg)
    (cfg_minSliceValue cfg).

Definition withEpoch (n : Z) (cfg : Config) : Config :=
  mkConfig (cfg_name cfg) (cfg_symbol cfg) (cfg_owner cfg) (cfg_target0 cfg)
    (cfg_target1 cfg) (cfg_target2 cfg) (cfg_maxDriftBps cfg) n
    (cfg_minDepositUSDC cfg) (cfg_minSliceValue cfg).

Definition withTargets (target0 target1 target2 : Z) (cfg : Config) : Config :=
  mkConfig (cfg_name cfg) (cfg_symbol cfg) (cfg_owner cfg) target0 target1
    target2 (cfg_maxDriftBps cfg) (cfg_rebalanceEpochSeconds cfg)
    (cfg_minDepositUSDC cfg) (cfg_minSliceValue cfg).

(** The configuration the constructor's arguments describe, for the
    deployer [owner]. *)
Definition configOfArgs (owner : string) (args : ConstructorArgs) : Config :=
  mkConfig (arg_name args) (arg_symbol args) owner (arg_target0 args)
    (arg_target1 args) (arg_target2 args) (arg_maxDriftBps args)
    (arg_rebalanceEpochSeconds args) (arg_minDepositUSDC args)
    (arg_minSliceValue args).

(** The numbers among the constructor's arguments are [u64]s. *)
Definition argsInRange (args : ConstructorArgs) : Prop :=
  U64.in_range (arg_target0 args) /\ U64.in_range (arg_target1 args) /\
  U64.in_range (arg_target2 args) /\ U64.in_range (arg_maxDriftBps args) /\
  U64.in_range (arg_rebalanceEpochSeconds args) /\
  U64.in_range (arg_minDepositUSDC args) /\
  U64.in_range (arg_minSliceValue args).

(** The epoch the scheduling code reads: 1800 seconds when no epoch is
    stored. *)
Definition epochOf (st : gmap string string) : Z :=
  U64.parseInt (default "1800" (st !! REBALANCE_EPOCH_SECONDS_KEY)).

(** The slot the scheduling code asks the host for: the cheapest within 100
    periods of the current period plus two periods per second of epoch. *)
Definition targetSlotOf {W} `{Host W} (w : W) (ctx : CallContext)
    (epochSeconds : Z) : Slot :=
  let targetPeriod := U64.add (currentPeriod ctx) (U64.mul epochSeconds 2) in
  findCheapestSlot w targetPeriod (U64.add targetPeriod 100) 200000000 0.




(** The value of the holdings in micro USDC, at the prices the contract
    assumes (lines 643-652). *)
Definition wmasValueOf (wmasBalance : Z) : Z :=
  U64.div (U64.mul wmasBalance 6) 100000.

Definition wethValueOf (wethBalance : Z) : Z :=
  U64.div (U64.mul wethBalance 3) 1000000000.

Definition totalValueOf (wmasBalance wethBalance usdcBalance : Z) : Z :=
  U64.add (U64.add (wmasValueOf wmasBalance) (wethValueOf wethBalance))
    usdcBalance.

(** The value an allocation of [targetBps] asks for (lines 716-717). *)
Definition targetValueOf (totalValue targetBps : Z) : Z :=
  U64.div (U64.mul totalValue targetBps) 10000.

(** The value deficits of the two legs (lines 724 and 751): the target
    value less the current value, in 64-bit arithmetic. *)
Definition wmasDeficitOf (wmasBalance wethBalance usdcBalance targetBps : Z)
  : Z :=
  U64.sub
    (targetValueOf (totalValueOf wmasBalance wethBalance usdcBalance) targetBps)
    (wmasValueOf wmasBalance).

Definition wethDeficitOf (wmasBalance wethBalance usdcBalance targetBps : Z)
  : Z :=
  U64.sub
    (targetValueOf (totalValueOf wmasBalance wethBalance usdcBalance) targetBps)
    (wethValueOf wethBalance).

(** What a leg does (lines 720-746 and 748-769). When the asset's share is
    more than 100 bps below its target, the leg commits the deficit, or half
    of the balance when the deficit exceeds the balance, provided the amount
    is at least 10000 units; in every other case it swaps nothing. *)
Definition legSwaps (currentBps targetBps deficitValue usdcBalance : Z)
    (legs : list ExtCall) : Prop :=
  Forall (legCallOk deficitValue usdcBalance) legs /\
  (currentBps < U64.sub targetBps 100 ->
   (deficitValue <= usdcBalance ->
    swapAmounts legs
    = if 10000 <=? deficitValue then [deficitValue] else []) /\
   (deficitValue > usdcBalance ->
    swapAmounts legs
    = if 10000 <=? usdcBalance / 2 then [usdcBalance / 2] else [])) /\
  (U64.sub targetBps 100 <= currentBps -> swapAmounts legs = []).

(** The share of the total a value makes, in basis points (lines 662-664). *)
Definition currentBps (value total : Z) : Z :=
  U64.div (U64.mul value 10000) total.

(** The largest of the three drifts (lines 673-695). *)
Definition maxDriftOf (wmasBalance wethBalance usdcBalance
    wmasTargetBps wethTargetBps usdcTargetBps : Z) : Z :=
  let total := totalValueOf wmasBalance wethBalance usdcBalance in
  max3 (absDiff (currentBps (wmasValueOf wmasBalance) total) wmasTargetBps)
       (absDiff (currentBps (wethValueOf wethBalance) total) wethTargetBps)
       (absDiff (currentBps usdcBalance total) usdcTargetBps).

(** The 64-bit reading of a balance a token reports. *)
Definition reading (reported : N) : Z := U64.wrap (Z.of_N reported).

(** ** Further scenarios *)

(** A vault with one deposit and the guard key set, and [vaultMAS] in the gas
    bank. *)
Definition guardedFunded (vaultMAS : Z) : State Ledger :=
  run 1 [ (at_time ALICE 5000, CDeposit 1000000);
          (at_time OWNER 6000, CSetGuard true) ]
    (genesis standardArgs (fundedLedger 1000000 0 vaultMAS)).



(** Autonomy started with 5 MAS in the gas bank. *)
Definition autoRich : State Ledger :=
  step 1 (guardedFunded 5000000000)
    (at_time OWNER 7000, CStartAutonomousRebalancing).


(** A deposit, a deposit the token refuses (Bob holds 500,000 units), and a
    redemption. *)
Definition refusedOps : list (CallContext * Call) :=
  [ (at_time ALICE 5000, CDeposit 1000000);
    (at_time BOB 6000, CDeposit (2 ^ 64 - 1));
    (at_time ALICE 7000, CRedeem 400000 false) ].

(** A vault that holds 1,000,000 units of the base asset and WETH worth
    9,000,000: the deficit of WMAS, 3,333,000, exceeds the balance. *)
Definition halvedLedger : Ledger :=
  mkLedger {[ (USDC_ADDRESS, VAULT) := 1000000%N;
              (WETH_ADDRESS, VAULT) := 3000000000000000%N ]}
    50000000 true true 1000000000.

Definition halvedGenesis : State Ledger := genesis standardArgs halvedLedger.

Definition halvedAfter : State Ledger :=
  step 1 halvedGenesis (at_time BOB 2000000, CTriggerRebalance).

(** After the start of autonomy: the deferred call of [triggerRebalance], a
    redemption, and a rebalance by the owner past the epoch. *)
Definition frozenOps : list (CallContext * Call) :=
  [ (at_time VAULT 1807000, CTriggerRebalance);
    (at_time ALICE 1900000, CRedeem 100000 false);
    (at_time OWNER 4000000, CRebalance) ].

(** A paused vault that holds a deposit. *)
Definition pausedFunded : State Ledger :=
  run 1 [ (at_time ALICE 5000, CDeposit 1000000);
          (at_time OWNER 6000, CPause) ] ledgerGenesis.

(** * Verification *)

(** ** Facts on the 64-bit arithmetic and on decimal text *)

Section U64Facts.

Lemma wrap_range z : U64.in_range (U64.wrap z).
Proof. unfold U64.in_range, U64.wrap, U64.modulus. apply Z.mod_pos_bound. lia. Qed.

Lemma wrap_small z : U64.in_range z -> U64.wrap z = z.
Proof. unfold U64.in_range, U64.wrap. intros H. apply Z.mod_small. exact H. Qed.

Lemma wrap_wrap z : U64.wrap (U64.wrap z) = U64.wrap z.
Proof. apply wrap_small, wrap_range. Qed.

Lemma digit_value_char d :
  0 <= d < 10 -> U64.digit_value (U64.digit_char d) = Some d.
Proof.
  intros Hd.
  assert (d = 0 \/ d = 1 \/ d = 2 \/ d = 3 \/ d = 4 \/ d = 5 \/ d = 6
          \/ d = 7 \/ d = 8 \/ d = 9) as Hc by lia.
  repeat (destruct Hc as [-> | Hc]; [reflexivity |]). subst d. reflexivity.
Qed.

(** Reading [digits_go n acc] continues the loop as if [n] had been read
    first: the accumulator is shifted by the digits of [n]. *)
Lemma parse_digits_go fuel : forall n acc num,
  0 <= n -> n < 10 ^ Z.of_nat fuel -> (0 < fuel)%nat ->
  exists k, 0 < k /\
    U64.parse_go (U64.digits_go fuel n acc) num
    = U64.parse_go acc (U64.wrap (num * k + n)).
Proof.
  induction fuel as [| fuel IH]; intros n acc num Hn Hlt Hf; [lia |].
  cbn [U64.digits_go].
  assert (Hdm : n = 10 * (n / 10) + n mod 10) by (apply Z.div_mod; lia).
  assert (Hm : 0 <= n mod 10 < 10) by (apply Z.mod_pos_bound; lia).
  assert (Hq : 0 <= n / 10) by (apply Z.div_pos; lia).
  destruct (Z.eqb_spec (n / 10) 0) as [Hz | Hnz].
  - exists 10. split; [lia |].
    cbn [U64.parse_go]. rewrite digit_value_char by exact Hm.
    f_equal. unfold U64.add, U64.mul, U64.wrap.
    rewrite Z.add_mod_idemp_l by (unfold U64.modulus; lia).
    f_equal. lia.
  - destruct fuel as [| fuel'].
    + exfalso. change (10 ^ Z.of_nat 1) with 10 in Hlt.
      apply Hnz. apply Z.div_small. lia.
    + destruct (IH (n / 10) (String (U64.digit_char (n mod 10)) acc) num)
        as (k & Hk & Heq).
      * exact Hq.
      * apply Z.div_lt_upper_bound; [lia |].
        replace (Z.of_nat (S (S fuel'))) with (1 + Z.of_nat (S fuel')) in Hlt by lia.
        rewrite Z.pow_add_r in Hlt by lia. exact Hlt.
      * lia.
      * exists (k * 10). split; [lia |].
        rewrite Heq. cbn [U64.parse_go].
        rewrite digit_value_char by exact Hm.
        f_equal. unfold U64.add, U64.mul, U64.wrap.
        rewrite Z.mul_mod_idemp_l by (unfold U64.modulus; lia).
        rewrite Z.add_mod_idemp_l by (unfold U64.modulus; lia).
        f_equal. lia.
Qed.

Lemma log2_fuel_bound n : 0 <= n -> n < 10 ^ Z.of_nat (S (Z.to_nat (Z.log2 n))).
Proof.
  intros Hn.
  destruct (Z.eq_dec n 0) as [-> | Hnz]; [reflexivity |].
  assert (Hl := Z.log2_nonneg n).
  assert (Hspec : n < 2 ^ Z.succ (Z.log2 n)) by (apply Z.log2_spec; lia).
  eapply Z.lt_le_trans; [exact Hspec |].
  replace (Z.of_nat (S (Z.to_nat (Z.log2 n)))) with (Z.succ (Z.log2 n)) by lia.
  apply Z.pow_le_mono_l. lia.
Qed.

(** Parsing the decimal text of a number gives the number back, reduced to 64
    bits: exact for a [u64], the low 64 bits for a wider value. *)
Theorem parseInt_toString n : 0 <= n -> U64.parseInt (U64.toString n) = U64.wrap n.
Proof.
  intros Hn. unfold U64.parseInt, U64.toString.
  destruct (parse_digits_go (S (Z.to_nat (Z.log2 n))) n "" 0 Hn
              (log2_fuel_bound n Hn) ltac:(lia)) as (k & _ & Heq).
  rewrite Heq. cbn [U64.parse_go]. f_equal.
Qed.

Corollary parseInt_toString_u64 n :
  U64.in_range n -> U64.parseInt (U64.toString n) = n.
Proof.
  intros H. rewrite parseInt_toString by (destruct H; assumption).
  apply wrap_small, H.
Qed.

End U64Facts.

Example toString_ex : U64.toString 1000000 = "1000000". Proof. reflexivity. Qed.
Example parseInt_ex : U64.parseInt "18446744073709551616" = 0. Proof. reflexivity. Qed.
Example parseInt_false : U64.parseInt "false" = 0. Proof. reflexivity. Qed.

(** ** Reasoning about calls: inversion of the monad's primitives *)

Section MonadFacts.

Context {W : Type} `{Host W}.

Lemma bind_Ok {A B} (m : M W A) (f : A -> M W B) s b s' :
  (m ≫= f) s = Ok b s' ->
  exists a s1, m s = Ok a s1 /\ f a s1 = Ok b s'.
Proof.
  unfold mbind, M_bind. destruct (m s) as [a s1 | msg]; [| discriminate].
  intros Hf. exists a, s1. split; [reflexivity | exact Hf].
Qed.

Lemma bind_Revert {A B} (m : M W A) (f : A -> M W B) s msg :
  m s = Revert msg -> (m ≫= f) s = Revert msg.
Proof. unfold mbind, M_bind. intros ->. reflexivity. Qed.

Lemma bind_step {A B} (m : M W A) (f : A -> M W B) s a s1 :
  m s = Ok a s1 -> (m ≫= f) s = f a s1.
Proof. unfold mbind, M_bind. intros ->. reflexivity. Qed.

Lemma ret_Ok {A} (a b : A) (s s1 : State W) :
  (mret a : M W A) s = Ok b s1 -> b = a /\ s1 = s.
Proof. unfold mret, M_ret. intros [= <- <-]. split; reflexivity. Qed.

Lemma has_Ok key (s s1 : State W) b :
  Storage.has key s = Ok b s1 ->
  b = bool_decide (is_Some (storage s !! key)) /\ s1 = s.
Proof. unfold Storage.has. intros [= <- <-]. split; reflexivity. Qed.

Lemma get_Ok key (s s1 : State W) v :
  Storage.get key s = Ok v s1 -> storage s !! key = Some v /\ s1 = s.
Proof.
  unfold Storage.get. destruct (storage s !! key); [| discriminate].
  intros [= <- <-]. split; reflexivity.
Qed.

Lemma set_Ok key value (s s1 : State W) a :
  Storage.set key value s = Ok a s1 ->
  s1 = mkState (<[key := value]> (storage s)) (events s) (calls s) (world s).
Proof. unfold Storage.set. intros [= _ <-]. reflexivity. Qed.

Lemma del_Ok key (s s1 : State W) a :
  Storage.del key s = Ok a s1 ->
  is_Some (storage s !! key) /\
  s1 = mkState (delete key (storage s)) (events s) (calls s) (world s).
Proof.
  unfold Storage.del. destruct (storage s !! key) eqn:Hk; [| discriminate].
  intros [= _ <-]. split; [eauto | reflexivity].
Qed.

Lemma assert_Ok cond msg (s s1 : State W) a :
  assert cond msg s = Ok a s1 -> cond = true /\ s1 = s.
Proof.
  unfold assert. destruct cond; [| discriminate].
  intros [_ ->]%ret_Ok. split; reflexivity.
Qed.

Lemma event_Ok e (s s1 : State W) a :
  generateEvent e s = Ok a s1 ->
  s1 = mkState (storage s) (events s ++ [e]) (calls s) (world s).
Proof. unfold generateEvent. intros [= _ <-]. reflexivity. Qed.

Lemma logCall_Ok c (s s1 : State W) a :
  logCall c s = Ok a s1 ->
  s1 = mkState (storage s) (events s) (calls s ++ [c]) (world s).
Proof. unfold logCall. intros [= _ <-]. reflexivity. Qed.

Lemma getWorld_Ok (s s1 : State W) w :
  getWorld s = Ok w s1 -> w = world s /\ s1 = s.
Proof. unfold getWorld. intros [= <- <-]. split; reflexivity. Qed.

Lemma external_Ok {A} (r : option (W * A)) msg (s s1 : State W) a :
  external r msg s = Ok a s1 ->
  exists w, r = Some (w, a) /\
            s1 = mkState (storage s) (events s) (calls s) w.
Proof.
  unfold external. destruct r as [[w a'] |]; [| discriminate].
  unfold mbind, M_bind, setWorld, mret, M_ret. intros [= <- <-].
  exists w. split; reflexivity.
Qed.

Lemma external__Ok (r : option W) msg (s s1 : State W) a :
  external_ r msg s = Ok a s1 ->
  exists w, r = Some w /\ s1 = mkState (storage s) (events s) (calls s) w.
Proof.
  unfold external_. intros (w & Hr & ->)%external_Ok.
  destruct r as [w' |]; [| discriminate]. injection Hr as <-.
  exists w'. split; reflexivity.
Qed.

Lemma getOr_spec key fallback (s : State W) :
  getOr key fallback s = Ok (default fallback (storage s !! key)) s.
Proof.
  unfold getOr, mbind, M_bind, Storage.has, Storage.get, mret, M_ret.
  destruct (storage s !! key) as [v |] eqn:Hk; cbn.
  - rewrite Hk. reflexivity.
  - reflexivity.
Qed.

Lemma getOr_Ok key fallback (s s1 : State W) v :
  getOr key fallback s = Ok v s1 ->
  v = default fallback (storage s !! key) /\ s1 = s.
Proof. rewrite getOr_spec. intros [= <- <-]. split; reflexivity. Qed.

Lemma part_Ok parts i (s s1 : State W) p :
  part parts i s = Ok p s1 -> parts !! i = Some p /\ s1 = s.
Proof.
  unfold part. destruct (parts !! i); [| discriminate].
  intros [-> ->]%ret_Ok. split; reflexivity.
Qed.

Lemma getTokenBalanceString_Ok ctx token (s s1 : State W) text :
  getTokenBalanceString ctx token s = Ok text s1 ->
  exists bal, balanceOf (world s) token (callee ctx) = Some bal /\
              text = U64.toString (Z.of_N bal) /\ s1 = s.
Proof.
  unfold getTokenBalanceString. intros (w & s2 & [-> ->]%getWorld_Ok & Hm)%bind_Ok.
  destruct (balanceOf (world s) token (callee ctx)) as [bal |]; [| discriminate].
  apply ret_Ok in Hm as [-> ->]. exists bal. repeat split; reflexivity.
Qed.

Lemma getTokenBalance_Ok ctx token (s s1 : State W) n :
  getTokenBalance ctx token s = Ok n s1 ->
  exists bal, balanceOf (world s) token (callee ctx) = Some bal /\
              n = U64.wrap (Z.of_N bal) /\ s1 = s.
Proof.
  unfold getTokenBalance. intros (w & s2 & [-> ->]%getWorld_Ok & Hm)%bind_Ok.
  destruct (balanceOf (world s) token (callee ctx)) as [bal |]; [| discriminate].
  apply ret_Ok in Hm as [-> ->]. exists bal. repeat split; reflexivity.
Qed.

End MonadFacts.

(** Two storage keys differ: constants by their text, a holder's share key
    by its prefix. *)
Ltac key_ne :=
  let E := fresh "E" in
  intros E;
  unfold userSharesKey, PAUSED_KEY, REENTRANCY_GUARD_KEY, TOTAL_SHARES_KEY,
    MIN_DEPOSIT_USDC_KEY, AUTON_SCHEDULED, OWNER_KEY, GUARD_ARMED_KEY in E;
  cbn in E; discriminate E.

Ltac simpl_lookups H :=
  repeat first
    [ rewrite lookup_insert_eq in H
    | rewrite lookup_delete_eq in H
    | rewrite lookup_insert_ne in H by key_ne
    | rewrite lookup_delete_ne in H by key_ne ].

(** Invert a successful run [H : m s = Ok a s']: every bind is split, every
    primitive inverted, every conditional taken apart. Calls of the
    contract's own helper functions are left as hypotheses. *)
Ltac minv H :=
  cbn beta zeta in H;
  simpl_lookups H;
  lazymatch type of H with
  | @mbind _ _ _ _ _ _ _ = Ok _ _ =>
      let a := fresh "a" in
      let s1 := fresh "s" in
      let H1 := fresh "Hstep" in
      apply bind_Ok in H as (a & s1 & H1 & H);
      minv H1; minv H
  | @mret _ _ _ _ _ = Ok _ _ =>
      apply ret_Ok in H as [? ?]; subst; cbn [storage events calls world] in *
  | Storage.has _ _ = Ok _ _ =>
      apply has_Ok in H as [? ?]; subst; cbn [storage events calls world] in *
  | Storage.get _ _ = Ok _ _ =>
      apply get_Ok in H as [H ?]; subst; cbn [storage events calls world] in *;
      simpl_lookups H
  | Storage.set _ _ _ = Ok _ _ =>
      apply set_Ok in H; subst; cbn [storage events calls world] in *
  | Storage.del _ _ = Ok _ _ =>
      apply del_Ok in H as [H ?]; subst; cbn [storage events calls world] in *;
      simpl_lookups H
  | assert _ _ _ = Ok _ _ =>
      apply assert_Ok in H as [H ?]; subst; cbn [storage events calls world] in *;
      try discriminate H
  | generateEvent _ _ = Ok _ _ =>
      apply event_Ok in H; subst; cbn [storage events calls world] in *
  | logCall _ _ = Ok _ _ =>
      apply logCall_Ok in H; subst; cbn [storage events calls world] in *
  | getWorld _ = Ok _ _ =>
      apply getWorld_Ok in H as [? ?]; subst; cbn [storage events calls world] in *
  | getOr _ _ _ = Ok _ _ =>
      apply getOr_Ok in H as [? ?]; subst; cbn [storage events calls world] in *
  | external_ _ _ _ = Ok _ _ =>
      apply external__Ok in H as (? & H & ?); subst;
      cbn [storage events calls world] in *
  | external _ _ _ = Ok _ _ =>
      apply external_Ok in H as (? & H & ?); subst;
      cbn [storage events calls world] in *
  | getTokenBalanceString _ _ _ = Ok _ _ =>
      apply getTokenBalanceString_Ok in H as (? & H & ? & ?); subst;
      cbn [storage events calls world] in *
  | getTokenBalance _ _ _ = Ok _ _ =>
      apply getTokenBalance_Ok in H as (? & H & ? & ?); subst;
      cbn [storage events calls world] in *
  | revert _ _ = Ok _ _ => discriminate H
  | part _ _ _ = Ok _ _ =>
      apply part_Ok in H as [H ?]; subst; cbn [storage events calls world] in *
  | (if bool_decide (is_Some ?l) then _ else _) _ = Ok _ _ =>
      let E := fresh "Hkey" in
      destruct l eqn:E;
      [ rewrite bool_decide_eq_true_2 in H by eauto
      | rewrite bool_decide_eq_false_2 in H by (intros [? ?]; discriminate) ];
      minv H
  | (if negb (bool_decide (is_Some ?l)) then _ else _) _ = Ok _ _ =>
      let E := fresh "Hkey" in
      destruct l eqn:E;
      [ rewrite bool_decide_eq_true_2 in H by eauto
      | rewrite bool_decide_eq_false_2 in H by (intros [? ?]; discriminate) ];
      cbn [negb] in H;
      minv H
  | (if ?c then _ else _) _ = Ok _ _ =>
      let E := fresh "Hcond" in
      destruct c eqn:E; minv H
  | _ => idtac
  end.

(** *** The helpers that only talk to the world *)

Section HelperFacts.

Context {W : Type} `{Host W}.

Lemma approveToken_Ok ctx token amount (s s1 : State W) a :
  approveToken ctx token amount s = Ok a s1 ->
  exists w,
    increaseAllowance (world s) token (callee ctx) DUSA_ROUTER amount = Some w /\
    s1 = mkState (storage s) (events s)
           (calls s ++ [CallIncreaseAllowance token DUSA_ROUTER amount]) w.
Proof.
  intros Ha. unfold approveToken in Ha. minv Ha.
  eexists. split; [eassumption | reflexivity].
Qed.

Lemma routerSwap_Ok ctx amountIn amountOutMin steps legacy path deadline coins
    (s s1 : State W) out :
  routerSwap ctx amountIn amountOutMin steps legacy path deadline coins s
  = Ok out s1 ->
  exists w,
    swapExactTokensForTokens (world s) (callee ctx) amountIn amountOutMin steps
      legacy path (callee ctx) deadline coins = Some (w, out) /\
    s1 = mkState (storage s) (events s)
           (calls s ++ [CallSwap amountIn amountOutMin steps path (callee ctx)
                          deadline coins]) w.
Proof.
  intros Ha. unfold routerSwap in Ha. minv Ha.
  eexists. split; [eassumption | reflexivity].
Qed.

Lemma transferTokenToUser_Ok ctx token user amount (s s1 : State W) a :
  transferTokenToUser ctx token user amount s = Ok a s1 ->
  exists w,
    (if amount =? 0 then w = world s
     else transfer (world s) token (callee ctx) user amount = Some w) /\
    s1 = mkState (storage s) (events s)
           (calls s ++ (if amount =? 0 then []
                        else [CallTransfer token user amount])) w.
Proof.
  intros Ha. unfold transferTokenToUser in Ha. minv Ha.
  - exists (world s). split; [reflexivity |].
    rewrite app_nil_r. destruct s; reflexivity.
  - eexists. split; [eassumption | reflexivity].
Qed.

End HelperFacts.

Ltac minv_helper H :=
  lazymatch type of H with
  | approveToken _ _ _ _ = Ok _ _ =>
      apply approveToken_Ok in H as (? & H & ?); subst;
      cbn [storage events calls world] in *
  | routerSwap _ _ _ _ _ _ _ _ _ = Ok _ _ =>
      apply routerSwap_Ok in H as (? & H & ?); subst;
      cbn [storage events calls world] in *
  | transferTokenToUser _ _ _ _ _ = Ok _ _ =>
      apply transferTokenToUser_Ok in H as (? & H & ?); subst;
      cbn [storage events calls world] in *
  end.

(** Invert every helper call that [minv] left in the context. *)
Ltac minv_helpers :=
  repeat match goal with
         | H : _ = Ok _ _ |- _ => minv_helper H
         end.

(** ** The share ledger: what a successful deposit or redemption did *)

Section LedgerFacts.

Context {W : Type} `{Host W}.

Lemma deposit_inv ctx amount (s s' : State W) :
  deposit ctx amount s = Ok tt s' ->
  exists minText before w1 after totalText,
    storage s !! PAUSED_KEY = None /\
    storage s !! MIN_DEPOSIT_USDC_KEY = Some minText /\
    U64.parseInt minText <= amount /\
    balanceOf (world s) USDC_ADDRESS (callee ctx) = Some before /\
    transferFrom (world s) USDC_ADDRESS (callee ctx) (caller ctx) (callee ctx)
      amount = Some w1 /\
    balanceOf w1 USDC_ADDRESS (callee ctx) = Some after /\
    U64.add (U64.parseInt (U64.toString (Z.of_N before))) amount
      <= U64.parseInt (U64.toString (Z.of_N after)) /\
    storage s !! TOTAL_SHARES_KEY = Some totalText /\
    storage s' =
      delete REENTRANCY_GUARD_KEY
        (<[TOTAL_SHARES_KEY :=
             U64.toString (U64.add (U64.parseInt totalText) amount)]>
           (<[userSharesKey (caller ctx) :=
                U64.toString (U64.add (sharesOf (storage s) (caller ctx)) amount)]>
              (<[REENTRANCY_GUARD_KEY := "true"]> (storage s)))).
Proof.
  intros Hd. unfold deposit in Hd. minv Hd.
  - exists a0, x, x0, x1, a7. unfold sharesOf. rewrite Hkey1.
    apply Z.geb_le in Hstep0, Hstep4.
    assert (a6 = s1) as -> by congruence.
    repeat split; assumption || reflexivity.
  - exists a0, x, x0, x1, a6. unfold sharesOf. rewrite Hkey1.
    apply Z.geb_le in Hstep0, Hstep4.
    repeat split; assumption || reflexivity.
Qed.

Lemma redeem_inv ctx shares toUSDC (s s' : State W) :
  redeem ctx shares toUSDC s = Ok tt s' ->
  exists currentText totalText,
    storage s !! userSharesKey (caller ctx) = Some currentText /\
    shares <= U64.parseInt currentText /\
    storage s !! TOTAL_SHARES_KEY = Some totalText /\
    0 < U64.parseInt totalText /\
    storage s' =
      <[TOTAL_SHARES_KEY :=
          U64.toString (U64.sub (U64.parseInt totalText) shares)]>
        (if U64.sub (U64.parseInt currentText) shares >? 0
         then <[userSharesKey (caller ctx) :=
                  U64.toString (U64.sub (U64.parseInt currentText) shares)]>
                (storage s)
         else delete (userSharesKey (caller ctx)) (storage s)).
Proof.
  intros Hr. unfold redeem in Hr. minv Hr; minv_helpers.
  all: match goal with
       | Hc : storage _ !! userSharesKey _ = Some ?c,
         Ht : storage _ !! TOTAL_SHARES_KEY = Some ?t |- _ => exists c, t
       end.
  all: match goal with
       | Hc : (U64.sub _ _ >? 0) = _ |- _ => rewrite Hc
       end.
  all: match goal with
       | Hge : (U64.parseInt _ >=? _) = true,
         Hgt : (U64.parseInt _ >? 0) = true |- _ =>
           apply Z.geb_le in Hge; apply Z.gtb_lt in Hgt
       end.
  all: repeat split; assumption || reflexivity.
Qed.

(** *** The sum of the share records *)

Lemma parse_go_range text : forall num,
  U64.in_range num -> U64.in_range (U64.parse_go text num).
Proof.
  induction text as [| c rest IH]; intros num Hnum; cbn [U64.parse_go].
  - exact Hnum.
  - destruct (U64.digit_value c); [| exact Hnum].
    apply IH. unfold U64.add. apply wrap_range.
Qed.

Lemma parseInt_range text : U64.in_range (U64.parseInt text).
Proof.
  apply parse_go_range. unfold U64.in_range, U64.modulus. lia.
Qed.

Lemma recorded_nonneg key entry : 0 <= recorded key entry.
Proof.
  unfold recorded. destruct entry as [v |]; [| lia].
  destruct (isSharesKey key); [| lia].
  apply parseInt_range.
Qed.

Lemma sumShares_insert_fresh (st : gmap string string) key v :
  st !! key = None ->
  sumShares (<[key := v]> st) = recorded key (Some v) + sumShares st.
Proof.
  intros Hfresh. unfold sumShares.
  rewrite map_fold_insert_L; [| | exact Hfresh].
  - cbn [recorded]. destruct (isSharesKey key); lia.
  - intros j1 j2 z1 z2 y _ _ _.
    destruct (isSharesKey j1), (isSharesKey j2); lia.
Qed.

Lemma sumShares_delete (st : gmap string string) key :
  sumShares (delete key st) = sumShares st - recorded key (st !! key).
Proof.
  destruct (st !! key) as [v |] eqn:Hk.
  - unfold sumShares at 2.
    rewrite (map_fold_delete_L _ _ key v st); [| | exact Hk].
    + cbn [recorded]. fold (sumShares (delete key st)).
      destruct (isSharesKey key); lia.
    + intros j1 j2 z1 z2 y _ _ _.
      destruct (isSharesKey j1), (isSharesKey j2); lia.
  - rewrite delete_id by exact Hk. cbn [recorded]. lia.
Qed.

Lemma sumShares_insert (st : gmap string string) key v :
  sumShares (<[key := v]> st)
  = sumShares st - recorded key (st !! key) + recorded key (Some v).
Proof.
  rewrite <- insert_delete_eq.
  rewrite sumShares_insert_fresh by apply lookup_delete_eq.
  rewrite sumShares_delete. lia.
Qed.

Lemma sumShares_nonneg (st : gmap string string) : 0 <= sumShares st.
Proof.
  induction st as [| key v st Hfresh IH] using map_ind.
  - unfold sumShares. rewrite map_fold_empty. lia.
  - rewrite sumShares_insert_fresh by exact Hfresh.
    pose proof (recorded_nonneg key (Some v)). lia.
Qed.

Lemma recorded_le_sum (st : gmap string string) key :
  recorded key (st !! key) <= sumShares st.
Proof.
  pose proof (sumShares_delete st key) as Hd.
  pose proof (sumShares_nonneg (delete key st)). lia.
Qed.

Lemma isSharesKey_holder holder : isSharesKey (userSharesKey holder) = true.
Proof. destruct holder; reflexivity. Qed.

Lemma recorded_holder (st : gmap string string) holder :
  recorded (userSharesKey holder) (st !! userSharesKey holder)
  = sharesOf st holder.
Proof.
  unfold recorded, sharesOf. rewrite isSharesKey_holder. reflexivity.
Qed.

Lemma sharesOf_range (st : gmap string string) holder :
  U64.in_range (sharesOf st holder).
Proof.
  unfold sharesOf. destruct (st !! userSharesKey holder).
  - apply parseInt_range.
  - unfold U64.in_range, U64.modulus. lia.
Qed.

Lemma sharesOf_le_sum (st : gmap string string) holder :
  sharesOf st holder <= sumShares st.
Proof. rewrite <- recorded_holder. apply recorded_le_sum. Qed.

End LedgerFacts.

(** ** The share invariant, one call at a time *)

Section Invariant.

Context {W : Type} `{Host W}.

Lemma recorded_other key entry : isSharesKey key = false -> recorded key entry = 0.
Proof. unfold recorded. intros ->. destruct entry; reflexivity. Qed.

Lemma add_exact a b : 0 <= a -> 0 <= b -> a + b < U64.modulus -> U64.add a b = a + b.
Proof. intros. unfold U64.add. apply wrap_small. unfold U64.in_range. lia. Qed.

Lemma sub_exact a b : 0 <= b <= a -> a < U64.modulus -> U64.sub a b = a - b.
Proof. intros. unfold U64.sub. apply wrap_small. unfold U64.in_range. lia. Qed.

Lemma deposit_keeps_ledger ctx amount (s s' : State W) bound :
  ledger_ok bound (storage s) ->
  0 <= amount -> bound + amount < U64.modulus ->
  deposit ctx amount s = Ok tt s' ->
  ledger_ok (bound + amount) (storage s').
Proof.
  intros [Htotal Hbound] Hamount Hfit Hd.
  apply deposit_inv in Hd
    as (minText & before & w1 & after & totalText & _ & _ & _ & _ & _ & _ & _
        & Hlookup & ->).
  pose proof (sharesOf_range (storage s) (caller ctx)) as [Hcur _].
  pose proof (sharesOf_le_sum (storage s) (caller ctx)) as Hle.
  pose proof (sumShares_nonneg (storage s)) as Hsum.
  assert (Htot : U64.parseInt totalText = sumShares (storage s)).
  { rewrite <- Htotal. unfold totalShares. rewrite Hlookup. reflexivity. }
  unfold ledger_ok, totalShares.
  rewrite lookup_delete_ne by key_ne. rewrite lookup_insert_eq.
  rewrite sumShares_delete, sumShares_insert, sumShares_insert, sumShares_insert.
  rewrite !(recorded_other REENTRANCY_GUARD_KEY) by reflexivity.
  rewrite !(recorded_other TOTAL_SHARES_KEY) by reflexivity.
  rewrite lookup_insert_ne by key_ne.
  rewrite recorded_holder. cbn [recorded]. rewrite isSharesKey_holder.
  rewrite Htot.
  rewrite !add_exact by lia.
  rewrite !parseInt_toString_u64 by (unfold U64.in_range; lia).
  lia.
Qed.

Lemma redeem_keeps_ledger ctx shares toUSDC (s s' : State W) bound :
  ledger_ok bound (storage s) ->
  0 <= shares ->
  redeem ctx shares toUSDC s = Ok tt s' ->
  ledger_ok bound (storage s').
Proof.
  intros [Htotal Hbound] Hshares Hr.
  apply redeem_inv in Hr
    as (currentText & totalText & Hcur & Hle & Hlookup & Hpos & ->).
  pose proof (sharesOf_range (storage s) (caller ctx)) as [_ Hcurmax].
  pose proof (sharesOf_le_sum (storage s) (caller ctx)) as Hcursum.
  pose proof (parseInt_range totalText) as [_ Htotmax].
  assert (Htot : U64.parseInt totalText = sumShares (storage s)).
  { rewrite <- Htotal. unfold totalShares. rewrite Hlookup. reflexivity. }
  assert (Hme : sharesOf (storage s) (caller ctx) = U64.parseInt currentText).
  { unfold sharesOf. rewrite Hcur. reflexivity. }
  unfold ledger_ok, totalShares. rewrite lookup_insert_eq.
  rewrite sumShares_insert.
  rewrite !(recorded_other TOTAL_SHARES_KEY) by reflexivity.
  rewrite !sub_exact by lia.
  rewrite parseInt_toString_u64 by (unfold U64.in_range; lia).
  destruct (U64.parseInt currentText - shares >? 0) eqn:Hrest.
  - rewrite sumShares_insert, recorded_holder. cbn [recorded].
    rewrite isSharesKey_holder.
    rewrite parseInt_toString_u64 by (unfold U64.in_range; lia).
    lia.
  - rewrite sumShares_delete, recorded_holder.
    assert (U64.parseInt currentText - shares <= 0) by lia.
    lia.
Qed.

Lemma ledger_ok_exact (st : gmap string string) :
  totalShares st = sumShares st -> ledger_ok (totalShares st) st.
Proof. intros E. split; [exact E | lia]. Qed.

(** One deposit or redemption keeps the total equal to the sum of the
    records, provided a deposit that succeeds does not take the total to
    2^64 or beyond. *)
Lemma step_keeps_total depth (s : State W) ctx c :
  totalShares (storage s) = sumShares (storage s) ->
  isLedgerOp c = true ->
  (forall amount,
     c = CDeposit amount ->
     succeeds (deposit ctx amount s) = true ->
     totalShares (storage s) + amount < U64.modulus) ->
  totalShares (storage (step depth s (ctx, c)))
  = sumShares (storage (step depth s (ctx, c))).
Proof.
  intros Hinv Hop Hfit. unfold step. cbn [fst snd].
  destruct c; try discriminate Hop; cbn [dispatch isLedgerOp] in *;
    apply andb_true_iff in Hop as [Hlo Hhi].
  - specialize (Hfit amount eq_refl).
    destruct (deposit ctx amount s) as [[] s' |] eqn:Hd; [| exact Hinv].
    apply (deposit_keeps_ledger ctx amount s s' (totalShares (storage s))
             (ledger_ok_exact _ Hinv)); [lia | exact (Hfit eq_refl) | exact Hd].
  - destruct (redeem ctx shares toUSDC s) as [[] s' |] eqn:Hr; [| exact Hinv].
    apply (redeem_keeps_ledger ctx shares toUSDC s s' (totalShares (storage s))
             (ledger_ok_exact _ Hinv)); [lia | exact Hr].
Qed.

Lemma run_keeps_total depth (ops : list (CallContext * Call)) :
  forall (n : nat) (s : State W),
    totalShares (storage s) = sumShares (storage s) ->
    Forall (fun c => isLedgerOp (snd c) = true) ops ->
    (forall (k : nat) ctx amount,
       (k < n)%nat ->
       ops !! k = Some (ctx, CDeposit amount) ->
       succeeds (deposit ctx amount (run depth (take k ops) s)) = true ->
       totalShares (storage (run depth (take k ops) s)) + amount
       < U64.modulus) ->
    totalShares (storage (run depth (take n ops) s))
    = sumShares (storage (run depth (take n ops) s)).
Proof.
  induction ops as [| [ctx c] ops IH]; intros n s Hinv Hops Hfit.
  - rewrite take_nil. exact Hinv.
  - destruct n as [| n]; [exact Hinv |].
    inversion Hops as [| ? ? Hc Hrest]; subst. cbn [snd] in Hc.
    change (run depth (take (S n) ((ctx, c) :: ops)) s)
      with (run depth (take n ops) (step depth s (ctx, c))).
    apply IH; [| exact Hrest |].
    + apply step_keeps_total; [exact Hinv | exact Hc |].
      intros amount -> Hok.
      apply (Hfit 0%nat ctx amount); [lia | reflexivity | exact Hok].
    + intros k ctx' amount Hk Hlook Hok.
      apply (Hfit (S k) ctx' amount); [lia | exact Hlook | exact Hok].
Qed.

Lemma sumShares_empty : sumShares ∅ = 0.
Proof. unfold sumShares. apply map_fold_empty. Qed.

(** The freshly constructed vault has no shares and no share record. *)
Lemma constructor_ledger ctx args (s0 s1 : State W) :
  storage s0 = ∅ ->
  constructor ctx args s0 = Ok tt s1 ->
  ledger_ok 0 (storage s1).
Proof.
  intros Hempty Hc. unfold constructor in Hc. minv Hc.
  rewrite Hempty. unfold ledger_ok, totalShares.
  rewrite lookup_insert_ne by key_ne. rewrite lookup_insert_eq.
  rewrite !sumShares_insert, sumShares_empty.
  rewrite !recorded_other by reflexivity.
  change (U64.parseInt "0") with 0. lia.
Qed.

End Invariant.

(** ** Deposits, redemptions and the start of autonomy *)

Section LedgerClaims.
Context {W : Type} `{Host W}.

Lemma step_Ok depth (s : State W) ctx c :
  succeeds (dispatch depth ctx c s) = true ->
  dispatch depth ctx c s = Ok tt (step depth s (ctx, c)).
Proof.
  unfold step. cbn [fst snd].
  destruct (dispatch depth ctx c s) as [[] s' | msg]; [reflexivity | discriminate].
Qed.


(** C6, as amended. Share invariant: for every sequence of deposit and redeem
    calls (with [u64] arguments) on the freshly constructed vault, after
    every call of the sequence before which no deposit that succeeded took
    the shares outstanding (the stored total before it plus its amount) to
    2^64 or beyond, the stored total of shares equals the sum of all the
    holders' share records, and no holder's balance is negative. Deposits
    that are refused and redemptions do not count against the bound. *)
Theorem share_invariant_below_overflow depth ctx0 args (s0 s1 : State W)
    (ops : list (CallContext * Call)) (n : nat) :
  storage s0 = ∅ ->
  constructor ctx0 args s0 = Ok tt s1 ->
  Forall (fun c => isLedgerOp (snd c) = true) ops ->
  (forall (k : nat) ctx amount,
     (k < n)%nat ->
     ops !! k = Some (ctx, CDeposit amount) ->
     succeeds (deposit ctx amount (run depth (take k ops) s1)) = true ->
     totalShares (storage (run depth (take k ops) s1)) + amount
     < U64.modulus) ->
  totalShares (storage (run depth (take n ops) s1))
  = sumShares (storage (run depth (take n ops) s1))
  /\ forall holder, 0 <= sharesOf (storage (run depth (take n ops) s1)) holder.
Proof.
  intros Hempty Hctor Hops Hfit.
  destruct (constructor_ledger ctx0 args s0 s1 Hempty Hctor) as [Hinv _].
  split; [apply run_keeps_total; assumption |].
  intros holder. apply sharesOf_range.
Qed.

Lemma constructor_step (s : State W) ctx args :
  succeeds (constructor ctx args s) = true ->
  constructor ctx args s = Ok tt (step 0 s (ctx, CConstructor args)).
Proof. exact (step_Ok 0 s ctx (CConstructor args)). Qed.

Lemma deposit_step depth (s : State W) ctx amount :
  succeeds (deposit ctx amount s) = true ->
  deposit ctx amount s = Ok tt (step depth s (ctx, CDeposit amount)).
Proof. exact (step_Ok depth s ctx (CDeposit amount)). Qed.

(** C7, as amended. Deposit transfer verification: when the balance the
    token reports before the transfer plus [amount] stays below 2^64, and so
    does the balance it reports afterwards, a deposit that succeeds (and so
    credits shares) saw the vault's balance grow by at least [amount]; and if
    the transfer reported success and the balance grew by less, the whole
    call reverts and the state, with every share count, is as before. *)
Theorem deposit_checks_transfer ctx amount (s : State W) before w1 after :
  balanceOf (world s) USDC_ADDRESS (callee ctx) = Some before ->
  transferFrom (world s) USDC_ADDRESS (callee ctx) (caller ctx) (callee ctx)
    amount = Some w1 ->
  balanceOf w1 USDC_ADDRESS (callee ctx) = Some after ->
  0 <= amount ->
  Z.of_N before + amount < U64.modulus ->
  Z.of_N after < U64.modulus ->
  (forall s', deposit ctx amount s = Ok tt s' ->
              Z.of_N before + amount <= Z.of_N after) /\
  (Z.of_N after < Z.of_N before + amount ->
   (exists msg, deposit ctx amount s = Revert msg) /\
   forall depth, step depth s (ctx, CDeposit amount) = s).
Proof.
  intros Hbefore Htransfer Hafter Hamount Hfit Hafterfit.
  assert (Hcheck : forall s', deposit ctx amount s = Ok tt s' ->
                              Z.of_N before + amount <= Z.of_N after).
  { intros s' Hd.
    apply deposit_inv in Hd
      as (minText & before' & w1' & after' & totalText & _ & _ & _ & Hb & Ht
          & Ha & Hle & _).
    rewrite Hbefore in Hb. injection Hb as <-.
    rewrite Htransfer in Ht. injection Ht as <-.
    rewrite Hafter in Ha. injection Ha as <-.
    rewrite !parseInt_toString_u64 in Hle by (unfold U64.in_range; lia).
    rewrite add_exact in Hle by lia. exact Hle. }
  split; [exact Hcheck |].
  intros Hshort.
  assert (Hrev : exists msg, deposit ctx amount s = Revert msg).
  { destruct (deposit ctx amount s) as [[] s' |msg] eqn:Hd.
    - specialize (Hcheck s' eq_refl). lia.
    - exists msg. reflexivity. }
  split; [exact Hrev |].
  intros depth. destruct Hrev as [msg Hrev].
  unfold step. cbn [fst snd dispatch]. rewrite Hrev. reflexivity.
Qed.

(** C8, as amended. StartAutonomy preconditions: a call of
    [startAutonomousRebalancing] by the owner while the total of shares is 0
    or the guard key is absent is a no-op skip, not a revert: it returns
    normally, emits one [AutonomousStartSkipped] event and leaves the storage
    and the world as they were, so no schedule is recorded and autonomy is
    not enabled. *)
Theorem startAutonomy_unmet_precondition_skips ctx (s : State W) :
  storage s !! OWNER_KEY = Some (caller ctx) ->
  totalShares (storage s) = 0 \/ storage s !! GUARD_ARMED_KEY = None ->
  exists reason,
    startAutonomousRebalancing ctx s
    = Ok tt (mkState (storage s)
               (events s ++ [AutonomousStartSkipped reason]) (calls s)
               (world s)).
Proof.
  intros Howner Hpre. unfold startAutonomousRebalancing.
  rewrite (bind_step _ _ s (caller ctx) s)
    by (unfold Storage.get; rewrite Howner; reflexivity).
  rewrite (bind_step _ _ s tt s)
    by (rewrite String.eqb_refl; reflexivity).
  rewrite (bind_step _ _ s _ s) by apply getOr_spec.
  cbn zeta.
  assert (Htotal : U64.parseInt (default "0" (storage s !! TOTAL_SHARES_KEY))
                   = totalShares (storage s)).
  { unfold totalShares. destruct (storage s !! TOTAL_SHARES_KEY); reflexivity. }
  rewrite Htotal.
  destruct (totalShares (storage s) =? 0) eqn:Hzero.
  - exists "No deposits in vault". reflexivity.
  - destruct Hpre as [Hpre | Hguard]; [rewrite Hpre in Hzero; discriminate |].
    exists "Guard not armed".
    rewrite (bind_step _ _ s false s).
    + reflexivity.
    + unfold Storage.has. rewrite Hguard. reflexivity.
Qed.

End LedgerClaims.

(** Alice deposits; Bob's deposit of 2^64 - 1 units is refused by the token;
    Alice redeems. The refused deposit does not count. *)
Lemma share_invariant_witness :
  succeeds (deposit (at_time BOB 6000) (2 ^ 64 - 1)
              (run 1 (take 1 refusedOps) ledgerGenesis)) = false /\
  totalShares (storage (run 1 (take 3 refusedOps) ledgerGenesis))
  = sumShares (storage (run 1 (take 3 refusedOps) ledgerGenesis))
  /\ forall holder,
       0 <= sharesOf (storage (run 1 (take 3 refusedOps) ledgerGenesis)) holder.
Proof.
  split; [vm_compute; exact eq_refl |].
  unfold ledgerGenesis, genesis.
  apply (share_invariant_below_overflow 1 deployment standardArgs
           (emptyState (fundedLedger 1000000 500000 0))
           (step 0 (emptyState (fundedLedger 1000000 500000 0))
              (deployment, CConstructor standardArgs))
           refusedOps 3).
  - reflexivity.
  - apply constructor_step. vm_compute. exact eq_refl.
  - repeat constructor.
  - intros k ctx amount Hk Hlook Hok.
    destruct k as [| [| [| k]]]; [| | discriminate Hlook | lia].
    + injection Hlook as <- <-. vm_compute. exact eq_refl.
    + injection Hlook as <- <-. vm_compute in Hok. discriminate Hok.
Defined.

Lemma share_invariant_counterexample :
  Forall (fun c => isLedgerOp (snd c) = true) overflowOps /\
  totalShares (storage (run 1 overflowOps overflowGenesis)) = 0 /\
  sumShares (storage (run 1 overflowOps overflowGenesis)) = 2 ^ 64 /\
  totalShares (storage (run 1 overflowOps overflowGenesis))
  <> sumShares (storage (run 1 overflowOps overflowGenesis)).
Proof.
  split; [repeat constructor |].
  split; [vm_compute; exact eq_refl |].
  split; [vm_compute; exact eq_refl |].
  vm_compute. discriminate.
Qed.

Lemma deposit_checks_transfer_witness :
  (0 <= 1000000 /\ 0 + 1000000 < U64.modulus) /\
  exists msg,
    deposit (at_time ALICE 5000) 1000000 (idleTokenGenesis 0) = Revert msg.
Proof.
  split; [split; [lia | reflexivity] |].
  assert (Hbefore : balanceOf (world (idleTokenGenesis 0)) USDC_ADDRESS VAULT
                    = Some 0%N) by (vm_compute; exact eq_refl).
  assert (Hmove : transferFrom (world (idleTokenGenesis 0)) USDC_ADDRESS VAULT
                    ALICE VAULT 1000000 = Some (idleTokenLedger 0))
    by (vm_compute; exact eq_refl).
  assert (Hafter : balanceOf (idleTokenLedger 0) USDC_ADDRESS VAULT = Some 0%N)
    by (vm_compute; exact eq_refl).
  destruct (deposit_checks_transfer (at_time ALICE 5000) 1000000
              (idleTokenGenesis 0) 0%N (idleTokenLedger 0) 0%N
              Hbefore Hmove Hafter ltac:(lia) eq_refl eq_refl) as [_ Hshort].
  destruct (Hshort eq_refl) as [Hrev _]. exact Hrev.
Defined.

(** The vault holds 2^63 units; a deposit of 2^63 more is credited although
    the token moved nothing: the sum the code compares with wraps to 0. *)
Lemma deposit_checks_transfer_counterexample :
  deposit (at_time BOB 6000) (2 ^ 63) (idleTokenGenesis (2 ^ 63)%N)
  = Ok tt idleDepositAfter
  /\ held (world (idleTokenGenesis (2 ^ 63)%N)) USDC_ADDRESS VAULT = (2 ^ 63)%N
  /\ held (world idleDepositAfter) USDC_ADDRESS VAULT = (2 ^ 63)%N
  /\ sharesOf (storage (idleTokenGenesis (2 ^ 63)%N)) BOB = 0
  /\ sharesOf (storage idleDepositAfter) BOB = 2 ^ 63
  /\ totalShares (storage idleDepositAfter) = 2 ^ 63.
Proof.
  split.
  { unfold idleDepositAfter. apply deposit_step. vm_compute. exact eq_refl. }
  repeat split; vm_compute; exact eq_refl.
Qed.

Lemma startAutonomy_skip_witness :
  exists reason,
    startAutonomousRebalancing (at_time OWNER 9000) ledgerGenesis
    = Ok tt (mkState (storage ledgerGenesis)
               (events ledgerGenesis ++ [AutonomousStartSkipped reason])
               (calls ledgerGenesis) (world ledgerGenesis)).
Proof.
  apply (startAutonomy_unmet_precondition_skips (at_time OWNER 9000)
           ledgerGenesis).
  - vm_compute. exact eq_refl.
  - left. vm_compute. exact eq_refl.
Defined.

(** The owner starts autonomy on a vault without deposits: the call returns
    normally, with an event; it does not revert. *)
Lemma startAutonomy_counterexample :
  totalShares (storage ledgerGenesis) = 0 /\
  storage ledgerGenesis !! OWNER_KEY = Some OWNER /\
  succeeds (startAutonomousRebalancing (at_time OWNER 9000) ledgerGenesis)
  = true /\
  (forall msg,
     startAutonomousRebalancing (at_time OWNER 9000) ledgerGenesis
     <> Revert msg).
Proof.
  split; [vm_compute; exact eq_refl |].
  split; [vm_compute; exact eq_refl |].
  assert (Hok : succeeds (startAutonomousRebalancing (at_time OWNER 9000)
                            ledgerGenesis) = true)
    by (vm_compute; exact eq_refl).
  split; [exact Hok |].
  intros msg Hrev. rewrite Hrev in Hok. discriminate Hok.
Qed.

(** ** Keys that are never deleted

    The contract deletes three kinds of keys only: the reentrancy flag, the
    [auton_scheduled] mark and a holder's share record. Any other key, once
    written, stays in the storage whatever is called afterwards. *)

Section Sticky.

Context {W : Type} `{Host W}.

Variable key : string.

Lemma keeps_bind {A B} (m : M W A) (f : A -> M W B) :
  KeepsKey key m -> (forall a, KeepsKey key (f a)) -> KeepsKey key (m ≫= f).
Proof.
  intros Hm Hf s b s' Hp (a & s1 & H1 & H2)%bind_Ok.
  eapply Hf; [| exact H2]. eapply Hm; [exact Hp | exact H1].
Qed.

Lemma keeps_ret {A} (a : A) : KeepsKey key (mret a : M W A).
Proof. intros s b s' Hp [_ ->]%ret_Ok. exact Hp. Qed.

Lemma keeps_revert {A} msg : KeepsKey key (revert msg : M W A).
Proof. intros s b s' _ Hr. discriminate Hr. Qed.

Lemma keeps_assert cond msg : KeepsKey key (assert cond msg : M W unit).
Proof. intros s b s' Hp [_ ->]%assert_Ok. exact Hp. Qed.

Lemma keeps_event e : KeepsKey key (generateEvent e : M W unit).
Proof. intros s b s' Hp ->%event_Ok. exact Hp. Qed.

Lemma keeps_logCall c : KeepsKey key (logCall c : M W unit).
Proof. intros s b s' Hp ->%logCall_Ok. exact Hp. Qed.

Lemma keeps_getWorld : KeepsKey key (getWorld : M W W).
Proof. intros s b s' Hp [_ ->]%getWorld_Ok. exact Hp. Qed.

Lemma keeps_external {A} (r : option (W * A)) msg :
  KeepsKey key (external r msg).
Proof. intros s b s' Hp (w & _ & ->)%external_Ok. exact Hp. Qed.

Lemma keeps_external_ (r : option W) msg : KeepsKey key (external_ r msg).
Proof. intros s b s' Hp (w & _ & ->)%external__Ok. exact Hp. Qed.

Lemma keeps_has k : KeepsKey key (Storage.has k : M W bool).
Proof. intros s b s' Hp [_ ->]%has_Ok. exact Hp. Qed.

Lemma keeps_get k : KeepsKey key (Storage.get k : M W string).
Proof. intros s b s' Hp [_ ->]%get_Ok. exact Hp. Qed.

(** Writing any key keeps [key]: this is all [unpause] does to the pause
    key. *)
Lemma keeps_set k value : KeepsKey key (Storage.set k value : M W unit).
Proof.
  intros s b s' Hp ->%set_Ok. unfold hasKey in *. cbn [storage].
  destruct (decide (k = key)) as [-> | Hne].
  - rewrite lookup_insert_eq. eauto.
  - rewrite lookup_insert_ne by exact Hne. exact Hp.
Qed.

Lemma keeps_del k : k <> key -> KeepsKey key (Storage.del k : M W unit).
Proof.
  intros Hne s b s' Hp [_ ->]%del_Ok. unfold hasKey in *. cbn [storage].
  rewrite lookup_delete_ne by exact Hne. exact Hp.
Qed.

End Sticky.

Create HintDb keeps.

#[export] Hint Resolve keeps_ret keeps_revert keeps_assert keeps_event
  keeps_logCall keeps_getWorld keeps_external keeps_external_ keeps_has
  keeps_get keeps_set : keeps.

(** A deleted key is not the sticky one. *)
Ltac not_sticky :=
  match goal with
  | Hs : sticky ?key |- _ <> ?key =>
      let E := fresh "E" in
      destruct Hs as (? & ? & ?); intros E; subst;
      first [ congruence
            | rewrite isSharesKey_holder in *; discriminate ]
  end.

(** Walk through the body of a function of the contract. *)
Ltac keeps_tac :=
  repeat (intros; cbn beta zeta;
          lazymatch goal with
          | |- KeepsKey _ (@mbind _ _ _ _ _ _) => apply keeps_bind
          | |- KeepsKey _ (if ?c then _ else _) => destruct c
          | |- KeepsKey _ (match ?x with _ => _ end) => destruct x
          | |- KeepsKey _ (Storage.del _) => apply keeps_del; not_sticky
          | |- KeepsKey _ _ => solve [eauto with keeps]
          end).

Section StickyHelpers.

Context {W : Type} `{Host W}.

Variable key : string.

Lemma keeps_getOr k fallback : KeepsKey key (getOr k fallback : M W string).
Proof. unfold getOr. keeps_tac. Qed.

Lemma keeps_part parts i : KeepsKey key (part parts i : M W string).
Proof. unfold part. keeps_tac. Qed.

Lemma keeps_getTokenBalance ctx token :
  KeepsKey key (getTokenBalance ctx token : M W Z).
Proof. unfold getTokenBalance. keeps_tac. Qed.

Lemma keeps_getTokenBalanceString ctx token :
  KeepsKey key (getTokenBalanceString ctx token : M W string).
Proof. unfold getTokenBalanceString. keeps_tac. Qed.

Lemma keeps_approveToken ctx token amount :
  KeepsKey key (approveToken ctx token amount : M W unit).
Proof. unfold approveToken. keeps_tac. Qed.

Lemma keeps_routerSwap ctx a b c d e f g :
  KeepsKey key (routerSwap ctx a b c d e f g : M W N).
Proof. unfold routerSwap. keeps_tac. Qed.

Lemma keeps_transferTokenToUser ctx token user amount :
  KeepsKey key (transferTokenToUser ctx token user amount : M W unit).
Proof. unfold transferTokenToUser. keeps_tac. Qed.

End StickyHelpers.

#[export] Hint Resolve keeps_getOr keeps_part keeps_getTokenBalance
  keeps_getTokenBalanceString keeps_approveToken keeps_routerSwap
  keeps_transferTokenToUser : keeps.

Section StickyEntryPoints.

Context {W : Type} `{Host W}.

Variable key : string.
Hypothesis key_sticky : sticky key.

Lemma keeps_executeTestSwap ctx tokenIn tokenOut amountIn minOut :
  KeepsKey key (executeTestSwap ctx tokenIn tokenOut amountIn minOut : M W N).
Proof. unfold executeTestSwap. keeps_tac. Qed.

Lemma keeps_executeMultiHopSwap ctx amountIn minOut :
  KeepsKey key (executeMultiHopSwap ctx amountIn minOut : M W N).
Proof. unfold executeMultiHopSwap. keeps_tac. Qed.

#[local] Hint Resolve keeps_executeTestSwap keeps_executeMultiHopSwap : keeps.

Lemma keeps_wmasLeg ctx a b c d e :
  KeepsKey key (wmasLeg ctx a b c d e : M W Z).
Proof. unfold wmasLeg. keeps_tac. Qed.

Lemma keeps_wethLeg ctx a b c d e :
  KeepsKey key (wethLeg ctx a b c d e : M W Z).
Proof. unfold wethLeg. keeps_tac. Qed.

#[local] Hint Resolve keeps_wmasLeg keeps_wethLeg : keeps.

Section Nested.

Variable self : CallContext -> M W unit.
Hypothesis keeps_self : forall ctx, KeepsKey key (self ctx).

#[local] Hint Resolve keeps_self : keeps.

Lemma keeps_scheduleNextRebalance ctx :
  KeepsKey key (scheduleNextRebalance self ctx).
Proof. unfold scheduleNextRebalance. keeps_tac. Qed.

#[local] Hint Resolve keeps_scheduleNextRebalance : keeps.

Lemma keeps_executeRebalanceInternal ctx :
  KeepsKey key (executeRebalanceInternal self ctx).
Proof. unfold executeRebalanceInternal. keeps_tac. Qed.

#[local] Hint Resolve keeps_executeRebalanceInternal : keeps.

Lemma keeps_rebalance_body ctx : KeepsKey key (rebalance_body self ctx).
Proof. unfold rebalance_body. keeps_tac. Qed.

End Nested.

Lemma keeps_rebalance depth : forall ctx, KeepsKey key (rebalance depth ctx).
Proof.
  induction depth as [| depth IH]; intros ctx; cbn [rebalance].
  - apply keeps_revert.
  - apply keeps_rebalance_body. exact IH.
Qed.

Lemma keeps_triggerRebalance depth ctx :
  KeepsKey key (triggerRebalance depth ctx).
Proof.
  pose proof (keeps_rebalance depth) as Hself.
  pose proof (keeps_executeRebalanceInternal _ Hself) as Hexec.
  unfold triggerRebalance. keeps_tac.
Qed.

(** No entry point deletes a sticky key. *)
Lemma keeps_dispatch depth ctx c : KeepsKey key (dispatch depth ctx c).
Proof.
  destruct c; cbn [dispatch].
  - unfold constructor. keeps_tac.
  - unfold startAutonomousRebalancing. keeps_tac.
  - apply keeps_triggerRebalance.
  - unfold validateBinSteps, queryAvailableBinSteps. keeps_tac.
  - unfold setMinDeposit. keeps_tac.
  - unfold deposit. keeps_tac.
  - unfold redeem. keeps_tac.
  - unfold setGuard. keeps_tac.
  - unfold topUpGasBank. keeps_tac.
  - apply keeps_rebalance.
  - unfold pause. keeps_tac.
  - unfold unpause. keeps_tac.
  - unfold updateTargets. keeps_tac.
  - unfold updateMaxDrift. keeps_tac.
  - unfold updateRebalanceEpoch. keeps_tac.
  - unfold emergencyWithdraw. keeps_tac.
  - unfold transferOwnership. keeps_tac.
Qed.

Lemma step_keeps_key depth (s : State W) c :
  hasKey key (storage s) -> hasKey key (storage (step depth s c)).
Proof.
  intros Hp. unfold step.
  destruct (dispatch depth (fst c) (snd c) s) as [a s' |] eqn:Hd; [| exact Hp].
  eapply keeps_dispatch; [exact Hp | exact Hd].
Qed.

Lemma run_keeps_key depth (cs : list (CallContext * Call)) :
  forall s : State W,
    hasKey key (storage s) -> hasKey key (storage (run depth cs s)).
Proof.
  induction cs as [| c cs IH]; intros s Hp; [exact Hp |].
  apply IH, step_keeps_key, Hp.
Qed.

End StickyEntryPoints.

(** ** The pause latch and the autonomy flag *)

Section Latches.

Context {W : Type} `{Host W}.

Lemma paused_sticky : sticky PAUSED_KEY.
Proof. repeat split; discriminate. Qed.

Lemma autonomous_sticky : sticky AUTONOMOUS_MODE_ENABLED.
Proof. repeat split; discriminate. Qed.

Lemma guard_sticky : sticky GUARD_ARMED_KEY.
Proof. repeat split; discriminate. Qed.

Lemma run_app depth (cs1 cs2 : list (CallContext * Call)) (s : State W) :
  run depth (cs1 ++ cs2) s = run depth cs2 (run depth cs1 s).
Proof. unfold run. apply fold_left_app. Qed.

Lemma pause_by_owner depth (s : State W) ctx :
  storage s !! OWNER_KEY = Some (caller ctx) ->
  hasKey PAUSED_KEY (storage (step depth s (ctx, CPause))).
Proof.
  intros Howner. unfold step, pause. cbn [fst snd dispatch]. unfold pause.
  rewrite (bind_step _ _ s (caller ctx) s)
    by (unfold Storage.get; rewrite Howner; reflexivity).
  rewrite (bind_step _ _ s tt s) by (rewrite String.eqb_refl; reflexivity).
  unfold mbind, M_bind, Storage.set, generateEvent, hasKey.
  cbn [storage events calls world]. rewrite lookup_insert_eq. eauto.
Qed.

(** [unpause] by the owner succeeds, and what it leaves under the pause key
    is the text "false". *)
Lemma unpause_by_owner (s : State W) ctx :
  storage s !! OWNER_KEY = Some (caller ctx) ->
  exists s', unpause ctx s = Ok tt s' /\
             storage s' !! PAUSED_KEY = Some "false".
Proof.
  intros Howner. unfold unpause.
  rewrite (bind_step _ _ s (caller ctx) s)
    by (unfold Storage.get; rewrite Howner; reflexivity).
  rewrite (bind_step _ _ s tt s) by (rewrite String.eqb_refl; reflexivity).
  eexists. split; [reflexivity |]. cbn [storage]. apply lookup_insert_eq.
Qed.

Lemma paused_isPaused (s : State W) :
  hasKey PAUSED_KEY (storage s) -> isPaused s = Ok true s.
Proof.
  intros Hp. unfold isPaused, Storage.has.
  rewrite bool_decide_eq_true_2 by exact Hp. reflexivity.
Qed.

Lemma paused_deposit_reverts (s : State W) ctx amount :
  hasKey PAUSED_KEY (storage s) ->
  deposit ctx amount s = Revert "Contract is paused".
Proof.
  intros Hp. unfold deposit.
  rewrite (bind_step _ _ s true s).
  - reflexivity.
  - unfold Storage.has. rewrite bool_decide_eq_true_2 by exact Hp. reflexivity.
Qed.

(** Once the enabled key of the autonomous mode is in the storage, no
    sequence of calls makes the status queries report anything but
    enabled: the stop path of [triggerRebalance] overwrites the key with the
    text "false" and every reader tests its presence. *)
Lemma autonomy_flag_never_cleared depth (s : State W)
    (cs : list (CallContext * Call)) :
  hasKey AUTONOMOUS_MODE_ENABLED (storage s) ->
  isAutonomousScheduled (run depth cs s) = Ok true (run depth cs s) /\
  forall status s',
    getAutonomousStatus (run depth cs s) = Ok status s' ->
    autonomousEnabled status = true.
Proof.
  intros Hp.
  apply (run_keeps_key _ autonomous_sticky depth cs) in Hp.
  split.
  - unfold isAutonomousScheduled, Storage.has.
    rewrite bool_decide_eq_true_2 by exact Hp. reflexivity.
  - intros status s' Hq. unfold getAutonomousStatus in Hq.
    apply bind_Ok in Hq as (enabled & s1 & [-> ->]%has_Ok & Hq).
    rewrite bool_decide_eq_true_2 in Hq by exact Hp.
    minv Hq; reflexivity.
Qed.

(** C10. Pause latch: after any sequence of calls that contains a [pause]
    by the owner and, later, an [unpause], the vault is still paused:
    [isPaused] returns true and every deposit reverts with "Contract is
    paused". [unpause] writes the text "false" under the pause key and never
    deletes it, and the checks test the presence of the key. *)
Theorem pause_latch depth (s : State W)
    (before between after : list (CallContext * Call)) ctxP ctxU :
  storage (run depth before s) !! OWNER_KEY = Some (caller ctxP) ->
  isPaused
    (run depth
       (before ++ [(ctxP, CPause)] ++ between ++ [(ctxU, CUnpause)] ++ after) s)
  = Ok true
      (run depth
         (before ++ [(ctxP, CPause)] ++ between ++ [(ctxU, CUnpause)] ++ after)
         s)
  /\ forall ctx amount,
       deposit ctx amount
         (run depth
            (before ++ [(ctxP, CPause)] ++ between ++ [(ctxU, CUnpause)]
             ++ after) s)
       = Revert "Contract is paused".
Proof.
  intros Howner.
  assert (Hp : hasKey PAUSED_KEY
                 (storage
                    (run depth
                       (before ++ [(ctxP, CPause)] ++ between
                        ++ [(ctxU, CUnpause)] ++ after) s))).
  { rewrite run_app. rewrite (run_app _ [(ctxP, CPause)]).
    apply (run_keeps_key _ paused_sticky). cbn [run fold_left].
    apply pause_by_owner. exact Howner. }
  split.
  - apply paused_isPaused, Hp.
  - intros ctx amount. apply paused_deposit_reverts, Hp.
Qed.

End Latches.

Lemma pause_latch_witness :
  isPaused
    (run 1 ([] ++ [(at_time OWNER 7000, CPause)] ++ []
            ++ [(at_time OWNER 8000, CUnpause)] ++ []) ledgerGenesis)
  = Ok true
      (run 1 ([] ++ [(at_time OWNER 7000, CPause)] ++ []
              ++ [(at_time OWNER 8000, CUnpause)] ++ []) ledgerGenesis)
  /\ deposit (at_time ALICE 9000) 1000000
       (run 1 ([] ++ [(at_time OWNER 7000, CPause)] ++ []
               ++ [(at_time OWNER 8000, CUnpause)] ++ []) ledgerGenesis)
     = Revert "Contract is paused".
Proof.
  assert (Howner : storage (run 1 [] ledgerGenesis) !! OWNER_KEY
                   = Some (caller (at_time OWNER 7000)))
    by (vm_compute; exact eq_refl).
  destruct (pause_latch 1 ledgerGenesis [] [] [] (at_time OWNER 7000)
              (at_time OWNER 8000) Howner) as [Hq Hd].
  split; [exact Hq | exact (Hd (at_time ALICE 9000) 1000000)].
Defined.

(** After [pause] and [unpause] by the owner the stored flag reads "false",
    and the vault is paused all the same. *)
Example unpause_leaves_false :
  storage (run 1 [(at_time OWNER 7000, CPause); (at_time OWNER 8000, CUnpause)]
             ledgerGenesis) !! PAUSED_KEY = Some "false".
Proof. vm_compute. exact eq_refl. Qed.

(** ** The swap legs of a rebalance *)

Section Legs.

Context {W : Type} `{Host W}.

Lemma executeTestSwap_Ok ctx tokenIn tokenOut amountIn minOut (s s' : State W) out :
  executeTestSwap ctx tokenIn tokenOut amountIn minOut s = Ok out s' ->
  exists steps deadline,
    storage s' = storage s /\
    calls s' = (calls s ++ [CallIncreaseAllowance tokenIn DUSA_ROUTER amountIn;
                            CallSwap amountIn minOut steps [tokenIn; tokenOut]
                              (callee ctx) deadline STORAGE_FEE_PER_SWAP])%list.
Proof.
  intros He. unfold executeTestSwap in He. minv He. minv_helpers.
  eexists _, _. split; [reflexivity |].
  rewrite <- app_assoc. reflexivity.
Qed.

Lemma executeMultiHopSwap_Ok ctx amountIn minOut (s s' : State W) out :
  executeMultiHopSwap ctx amountIn minOut s = Ok out s' ->
  exists deadline,
    storage s' = storage s /\
    calls s' = (calls s ++ [CallIncreaseAllowance USDC_ADDRESS DUSA_ROUTER amountIn;
                            CallSwap amountIn minOut
                              [BIN_STEP_USDC_WMAS; BIN_STEP_WMAS_WETH]
                              [USDC_ADDRESS; WMAS_ADDRESS; WETH_ADDRESS]
                              (callee ctx) deadline STORAGE_FEE_PER_SWAP])%list.
Proof.
  intros He. unfold executeMultiHopSwap in He. minv He. minv_helpers.
  eexists. split; [reflexivity |].
  rewrite <- app_assoc. reflexivity.
Qed.

(** The direct swap completes whenever its sub-calls do: the balance read
    after the router call is reported in the event and compared with
    nothing. *)
Lemma executeTestSwap_unverified ctx tokenIn tokenOut amountIn minOut
    (s : State W) balanceIn balanceBefore w1 steps w2 out balanceAfter :
  balanceOf (world s) tokenIn (callee ctx) = Some balanceIn ->
  balanceOf (world s) tokenOut (callee ctx) = Some balanceBefore ->
  increaseAllowance (world s) tokenIn (callee ctx) DUSA_ROUTER amountIn
  = Some w1 ->
  steps = (if String.eqb tokenIn WMAS_ADDRESS && String.eqb tokenOut WETH_ADDRESS
           then BIN_STEP_WMAS_WETH else BIN_STEP_USDC_WMAS) ->
  swapExactTokensForTokens w1 (callee ctx) amountIn minOut [steps] [false]
    [tokenIn; tokenOut] (callee ctx)
    (U64.add (timestamp ctx) SWAP_DEADLINE_BUFFER) STORAGE_FEE_PER_SWAP
  = Some (w2, out) ->
  balanceOf w2 tokenOut (callee ctx) = Some balanceAfter ->
  succeeds (executeTestSwap ctx tokenIn tokenOut amountIn minOut s) = true.
Proof.
  intros Hin Hbefore Happrove -> Hswap Hafter.
  unfold executeTestSwap, getTokenBalance, approveToken, routerSwap.
  repeat progress
    (unfold mbind, M_bind, mret, M_ret, getWorld, logCall, external_, external,
       setWorld, generateEvent;
     cbn [world storage events calls fmap option_fmap option_map];
     rewrite ?Hin, ?Hbefore, ?Happrove, ?Hswap, ?Hafter).
  reflexivity.
Qed.

Lemma swapAmountOf_ok deficitValue usdcBalance :
  (usdcBalance >=? swapAmountOf deficitValue usdcBalance) = true ->
  swapAmountOf deficitValue usdcBalance <= usdcBalance /\
  (deficitValue > usdcBalance ->
   swapAmountOf deficitValue usdcBalance = usdcBalance / 2) /\
  (deficitValue <= usdcBalance ->
   swapAmountOf deficitValue usdcBalance = deficitValue).
Proof.
  unfold swapAmountOf, U64.div.
  destruct (deficitValue >? usdcBalance) eqn:Hgt; intros Hle; lia.
Qed.

Lemma legSwaps_none cur tgt deficit bal :
  (cur <? U64.sub tgt 100) = false
  \/ (swapAmountOf deficit bal >=? 10000) && (bal >=? swapAmountOf deficit bal)
     = false ->
  0 <= bal ->
  legSwaps cur tgt deficit bal [].
Proof.
  intros Hno Hbal. unfold legSwaps.
  split; [constructor |]. split; [| reflexivity].
  intros Hunder.
  destruct Hno as [Hno | Hno]; [lia |].
  unfold swapAmountOf, U64.div in Hno.
  split; intros Hd; cbn [swapAmounts flat_map].
  - destruct (Z.gtb_spec deficit bal); [lia |].
    destruct (Z.leb_spec 10000 deficit); [| reflexivity].
    exfalso. apply andb_false_iff in Hno as [Hno | Hno]; lia.
  - destruct (Z.gtb_spec deficit bal); [| lia].
    assert (bal / 2 <= bal) by (apply Z.div_le_upper_bound; lia).
    destruct (Z.leb_spec 10000 (bal / 2)); [| reflexivity].
    exfalso. apply andb_false_iff in Hno as [Hno | Hno]; lia.
Qed.

Lemma legSwaps_one cur tgt deficit bal token steps path to deadline coins :
  (cur <? U64.sub tgt 100) = true ->
  (swapAmountOf deficit bal >=? 10000) && (bal >=? swapAmountOf deficit bal)
  = true ->
  legSwaps cur tgt deficit bal
    [CallIncreaseAllowance token DUSA_ROUTER (swapAmountOf deficit bal);
     CallSwap (swapAmountOf deficit bal) 1 steps path to deadline coins].
Proof.
  intros Hunder Hok. apply andb_true_iff in Hok as [Hmin Hfits].
  pose proof (swapAmountOf_ok deficit bal Hfits) as (Hle & Hhalf & Hdef).
  unfold legSwaps. split; [repeat constructor; assumption |].
  split; [| lia].
  intros _. split; intros Hd; cbn [swapAmounts flat_map app].
  - rewrite Hdef in * by exact Hd.
    destruct (Z.leb_spec 10000 deficit); [reflexivity | lia].
  - rewrite Hhalf in * by exact Hd.
    destruct (Z.leb_spec 10000 (bal / 2)); [reflexivity | lia].
Qed.

Lemma wmasLeg_swaps ctx cur tgt targetValue valueUSDC bal (s s' : State W) n :
  0 <= bal ->
  wmasLeg ctx cur tgt targetValue valueUSDC bal s = Ok n s' ->
  exists new,
    calls s' = (calls s ++ new)%list /\
    legSwaps cur tgt (U64.sub targetValue valueUSDC) bal new.
Proof.
  intros Hbal Hleg. unfold wmasLeg in Hleg. minv Hleg.
  - apply executeTestSwap_Ok in Hstep as (steps & deadline & _ & ->).
    eexists. split; [reflexivity |]. apply legSwaps_one; assumption.
  - exists []. split; [symmetry; apply app_nil_r |].
    apply legSwaps_none; [right; assumption | exact Hbal].
  - exists []. split; [symmetry; apply app_nil_r |].
    apply legSwaps_none; [left; assumption | exact Hbal].
Qed.

Lemma wethLeg_swaps ctx cur tgt targetValue valueUSDC bal (s s' : State W) n :
  0 <= bal ->
  wethLeg ctx cur tgt targetValue valueUSDC bal s = Ok n s' ->
  exists new,
    calls s' = (calls s ++ new)%list /\
    legSwaps cur tgt (U64.sub targetValue valueUSDC) bal new.
Proof.
  intros Hbal Hleg. unfold wethLeg in Hleg. minv Hleg.
  - apply executeMultiHopSwap_Ok in Hstep as (deadline & _ & ->).
    eexists. split; [reflexivity |]. apply legSwaps_one; assumption.
  - exists []. split; [symmetry; apply app_nil_r |].
    apply legSwaps_none; [right; assumption | exact Hbal].
  - exists []. split; [symmetry; apply app_nil_r |].
    apply legSwaps_none; [left; assumption | exact Hbal].
Qed.

Lemma reading_text reported :
  U64.parseInt (U64.toString (Z.of_N reported)) = reading reported.
Proof. apply parseInt_toString. lia. Qed.

(** C9, as amended. Anti-drain cap: in every rebalance, the calls made up to
    the re-scheduling step are the two swap legs, and every swap of a leg
    commits at most the base-asset balance read at the start of the
    rebalance: half of that balance (rounded down) when the value deficit of
    the leg exceeds the balance, and the deficit itself otherwise. The
    deficit of a leg is the 64-bit difference of the asset's target value
    and its current value. A leg swaps when the drift is beyond the
    threshold, the asset is more than 100 bps below its target and the
    amount is at least 10000 units, and only then. *)
Theorem rebalance_legs_within_balance self ctx (s s' : State W) :
  executeRebalanceInternal self ctx s = Ok tt s' ->
  exists wmas weth usdc,
    balanceOf (world s) WMAS_ADDRESS (callee ctx) = Some wmas /\
    balanceOf (world s) WETH_ADDRESS (callee ctx) = Some weth /\
    balanceOf (world s) USDC_ADDRESS (callee ctx) = Some usdc /\
    (calls s' = calls s
     \/ exists targetsStr wmasTarget wethTarget usdcTarget thresholdText
         legs1 legs2 mid,
          storage s !! TARGETS_BPS_KEY = Some targetsStr /\
          split_commas targetsStr "" !! 0%nat = Some wmasTarget /\
          split_commas targetsStr "" !! 1%nat = Some wethTarget /\
          split_commas targetsStr "" !! 2%nat = Some usdcTarget /\
          storage s !! MAX_DRIFT_BPS_KEY = Some thresholdText /\
          calls mid = (calls s ++ legs1 ++ legs2)%list /\
          (if maxDriftOf (reading wmas) (reading weth) (reading usdc)
                (U64.parseInt wmasTarget) (U64.parseInt wethTarget)
                (U64.parseInt usdcTarget)
              <=? U64.parseInt thresholdText
           then legs1 = [] /\ legs2 = []
           else
             legSwaps
               (currentBps (wmasValueOf (reading wmas))
                  (totalValueOf (reading wmas) (reading weth) (reading usdc)))
               (U64.parseInt wmasTarget)
               (wmasDeficitOf (reading wmas) (reading weth) (reading usdc)
                  (U64.parseInt wmasTarget))
               (reading usdc) legs1 /\
             legSwaps
               (currentBps (wethValueOf (reading weth))
                  (totalValueOf (reading wmas) (reading weth) (reading usdc)))
               (U64.parseInt wethTarget)
               (wethDeficitOf (reading wmas) (reading weth) (reading usdc)
                  (U64.parseInt wethTarget))
               (reading usdc) legs2) /\
          scheduleNextRebalance self ctx mid = Ok tt s').
Proof.
  intros He. unfold executeRebalanceInternal in He. minv He.
  - exists x, x0, x1. repeat (split; [assumption |]). left. reflexivity.
  - exists x, x0, x1. repeat (split; [assumption |]). right.
    rewrite !reading_text in Hcond0.
    match type of He with
    | scheduleNextRebalance _ _ ?m = _ =>
        exists a0, a1, a2, a3, a4, [], [], m
    end.
    repeat (split; [assumption |]).
    split; [cbn [calls app]; symmetry; apply app_nil_r |].
    split; [| exact He].
    replace (maxDriftOf (reading x) (reading x0) (reading x1)
               (U64.parseInt a1) (U64.parseInt a2) (U64.parseInt a3)
             <=? U64.parseInt a4) with true by (symmetry; exact Hcond0).
    split; reflexivity.
  - exists x, x0, x1. repeat (split; [assumption |]). right.
    rewrite !reading_text in Hcond0, Hstep7, Hstep8.
    apply wmasLeg_swaps in Hstep7 as (new1 & Hcalls1 & Hall1);
      [| apply wrap_range].
    apply wethLeg_swaps in Hstep8 as (new2 & Hcalls2 & Hall2);
      [| apply wrap_range].
    cbn [calls] in Hcalls1.
    match type of He with
    | scheduleNextRebalance _ _ ?m = _ =>
        exists a0, a1, a2, a3, a4, new1, new2, m
    end.
    repeat (split; [assumption |]).
    split; [cbn [calls]; rewrite Hcalls2, Hcalls1, app_assoc; reflexivity |].
    split; [| exact He].
    replace (maxDriftOf (reading x) (reading x0) (reading x1)
               (U64.parseInt a1) (U64.parseInt a2) (U64.parseInt a3)
             <=? U64.parseInt a4) with false by (symmetry; exact Hcond0).
    split; [exact Hall1 | exact Hall2].
Qed.

End Legs.

(** ** Epoch gating *)

Section Gate.
Context {W : Type} `{Host W}.

(** X1. The epoch gate of [rebalance], the sibling of [triggerRebalance]: a
    call that comes before [lastRebalance + epochSeconds * 1000] emits the
    skip event and changes nothing else. *)
Lemma rebalance_too_soon depth ctx (s : State W) owner totalText lastText
    epochText :
  storage s !! OWNER_KEY = Some owner ->
  caller ctx = owner \/ caller ctx = callee ctx ->
  storage s !! TOTAL_SHARES_KEY = Some totalText ->
  U64.parseInt totalText <> 0 ->
  is_Some (storage s !! GUARD_ARMED_KEY) ->
  100000000 <= balance (world s) ->
  storage s !! LAST_REBALANCE_KEY = Some lastText ->
  storage s !! REBALANCE_EPOCH_SECONDS_KEY = Some epochText ->
  0 < U64.parseInt lastText ->
  timestamp ctx
  < U64.add (U64.parseInt lastText) (U64.mul (U64.parseInt epochText) 1000) ->
  rebalance (S depth) ctx s
  = Ok tt
      (mkState (storage s)
         (events s ++
          [RebalanceSkipped "Too soon"
             [U64.sub
                (U64.add (U64.parseInt lastText)
                   (U64.mul (U64.parseInt epochText) 1000))
                (timestamp ctx)]])
         (calls s) (world s)).
Proof.
  intros Howner Hauth Htotal Hpos Hguard Hgas Hlast Hepoch Hlastpos Hsoon.
  cbn [rebalance]. unfold rebalance_body.
  rewrite (bind_step _ _ s owner s)
    by (unfold Storage.get; rewrite Howner; reflexivity).
  rewrite (bind_step _ _ s tt s).
  2:{ replace (String.eqb (caller ctx) owner || String.eqb (caller ctx) (callee ctx))
        with true; [reflexivity |].
      symmetry. apply orb_true_iff.
      destruct Hauth as [-> | ->]; [left | right]; apply String.eqb_refl. }
  rewrite (bind_step _ _ s totalText s)
    by (unfold Storage.get; rewrite Htotal; reflexivity).
  cbn zeta.
  destruct (U64.parseInt totalText =? 0) eqn:Hzero; [lia |].
  rewrite (bind_step _ _ s true s)
    by (unfold Storage.has; rewrite bool_decide_eq_true_2 by exact Hguard;
        reflexivity).
  cbn [negb].
  rewrite (bind_step _ _ s (world s) s) by reflexivity.
  cbn zeta.
  destruct (balance (world s) <? 100000000) eqn:Hlow; [lia |].
  rewrite (bind_step _ _ s lastText s)
    by (rewrite getOr_spec, Hlast; reflexivity).
  rewrite (bind_step _ _ s epochText s)
    by (unfold Storage.get; rewrite Hepoch; reflexivity).
  cbn zeta.
  replace ((U64.parseInt lastText >? 0)
           && (timestamp ctx
               <? U64.add (U64.parseInt lastText)
                    (U64.mul (U64.parseInt epochText) 1000)))
    with true by (symmetry; apply andb_true_iff; split; lia).
  reflexivity.
Qed.

End Gate.

(** ** Redemption in kind *)

Section Payouts.

Context {W : Type} `{Host W}.

(** Redemption in kind: the three transfers it makes. *)
Lemma redeem_in_kind_calls ctx shares (s s' : State W) :
  redeem ctx shares false s = Ok tt s' ->
  exists wmas weth usdc totalText currentText,
    balanceOf (world s) WMAS_ADDRESS (callee ctx) = Some wmas /\
    balanceOf (world s) WETH_ADDRESS (callee ctx) = Some weth /\
    balanceOf (world s) USDC_ADDRESS (callee ctx) = Some usdc /\
    storage s !! TOTAL_SHARES_KEY = Some totalText /\
    storage s !! userSharesKey (caller ctx) = Some currentText /\
    shares <= U64.parseInt currentText /\
    calls s'
    = (calls s
       ++ payoutCall WMAS_ADDRESS (caller ctx)
            (payoutOf shares wmas (U64.parseInt totalText))
       ++ payoutCall WETH_ADDRESS (caller ctx)
            (payoutOf shares weth (U64.parseInt totalText))
       ++ payoutCall USDC_ADDRESS (caller ctx)
            (payoutOf shares usdc (U64.parseInt totalText)))%list.
Proof.
  intros Hr. unfold redeem in Hr. minv Hr; minv_helpers.
  all: match goal with
       | Hge : (U64.parseInt _ >=? _) = true |- _ => apply Z.geb_le in Hge
       end.
  all: eexists _, _, _, _, _.
  all: repeat (split; [eassumption |]).
  all: unfold payoutCall, payoutOf; rewrite <- !app_assoc; reflexivity.
Qed.

(** Where the product fits 64 bits the payout is the floor of
    [shares * balance / total], and it is within the balance when the
    shares redeemed are within the total. *)
Lemma payoutOf_in_range shares reported total :
  0 <= shares -> 0 < total ->
  shares * Z.of_N reported < U64.modulus ->
  Z.of_N reported < U64.modulus ->
  payoutOf shares reported total = shares * Z.of_N reported / total /\
  (shares <= total -> payoutOf shares reported total <= Z.of_N reported).
Proof.
  intros Hshares Htotal Hfit Hrep. unfold payoutOf, U64.div, U64.mul.
  rewrite parseInt_toString_u64 by (unfold U64.in_range; lia).
  rewrite wrap_small by (unfold U64.in_range; nia).
  split; [reflexivity |].
  intros Hle. apply Z.div_le_upper_bound; [lia | nia].
Qed.

(** Redemption to the base asset: whatever the holder's own payout, the one
    transfer that ends the redemption is of the whole balance the vault
    reports after the swaps. *)
Lemma redeem_toUSDC_final_transfer ctx shares (s s' : State W) :
  redeem ctx shares true s = Ok tt s' ->
  exists w final pre,
    balanceOf w USDC_ADDRESS (callee ctx) = Some final /\
    (if U64.parseInt (U64.toString (Z.of_N final)) =? 0 then world s' = w
     else transfer w USDC_ADDRESS (callee ctx) (caller ctx)
            (U64.parseInt (U64.toString (Z.of_N final))) = Some (world s')) /\
    calls s'
    = (pre ++ payoutCall USDC_ADDRESS (caller ctx)
                (U64.parseInt (U64.toString (Z.of_N final))))%list.
Proof.
  intros Hr. unfold redeem in Hr. minv Hr; minv_helpers.
  all: match goal with
       | Hf : balanceOf ?w USDC_ADDRESS _ = Some ?final,
         Ht : (if U64.parseInt (U64.toString (Z.of_N ?final)) =? 0
               then _ = ?w else _) |- _ =>
           exists w, final; eexists;
           split; [exact Hf |]; split; [exact Ht |]
       end.
  all: unfold payoutCall; reflexivity.
Qed.

End Payouts.

(** ** The contract on the concrete ledger *)

Lemma succeeds_after {W} (m : M W unit) (s : State W) :
  succeeds (m s) = true -> m s = Ok tt (after m s).
Proof.
  unfold after. destruct (m s) as [[] s' | msg]; [reflexivity | discriminate].
Qed.

(** C1, the defect. Epoch gating of [triggerRebalance]: with an epoch of
    1800 seconds, a second call ten seconds after the first is not a skip.
    It succeeds, emits no skip event, swaps 111,076 and 111,128 units of the
    base asset and rewrites the time of the last rebalance: the function has
    no epoch gate (its sibling [rebalance] has one, see
    [rebalance_too_soon]). *)
Theorem triggerRebalance_has_no_epoch_gate :
  storage epochFirst !! REBALANCE_EPOCH_SECONDS_KEY = Some "1800"
  /\ storage epochFirst !! LAST_REBALANCE_KEY = Some "2000000"
  /\ succeeds (triggerRebalance 1 (at_time BOB 2010000) epochFirst) = true
  /\ existsb isSkip (newEvents epochFirst epochSecond) = false
  /\ newEvents epochFirst epochSecond
     = [ TriggerRebalanceStarted BOB 2010000;
         DriftCalculated 0 0 9999 3333 3334 6666 6666;
         SwapExecuted USDC_ADDRESS WMAS_ADDRESS 111076 111076 333300 444376;
         MultiHopSwapExecuted 111128 111128 333400 444528;
         RebalanceExecuted 2010000 2 6666 500 ]
  /\ swapAmounts (newCalls epochFirst epochSecond) = [111076; 111128]
  /\ storage epochSecond !! LAST_REBALANCE_KEY = Some "2010000"
  /\ held (world epochFirst) USDC_ADDRESS VAULT = 333300%N
  /\ held (world epochSecond) USDC_ADDRESS VAULT = 111096%N.
Proof. repeat split; vm_compute; exact eq_refl. Qed.

(** C2, the defect. Redemption to the base asset: Alice and Bob hold half
    of the shares each and the vault holds 1,000,000 units of the base asset.
    Alice redeems her 500,000 shares with [toUSDC = true]: her own payout is
    500,000, but the one transfer sends her the vault's whole balance,
    1,000,000, and nothing is left for Bob's 500,000 shares. *)
Theorem redeem_toUSDC_sends_whole_balance :
  sharesOf (storage sharedFunded) ALICE = 500000
  /\ sharesOf (storage sharedFunded) BOB = 500000
  /\ held (world sharedFunded) USDC_ADDRESS VAULT = 1000000%N
  /\ succeeds (redeem (at_time ALICE 7000) 500000 true sharedFunded) = true
  /\ newCalls sharedFunded sharedRedeemed
     = [CallTransfer USDC_ADDRESS ALICE 1000000]
  /\ newEvents sharedFunded sharedRedeemed
     = [ RedeemExecutedToUSDC 500000 1000000;
         Withdraw ALICE 500000 0 0 500000 true ]
  /\ held (world sharedRedeemed) USDC_ADDRESS ALICE = 1000000%N
  /\ held (world sharedRedeemed) USDC_ADDRESS VAULT = 0%N
  /\ sharesOf (storage sharedRedeemed) BOB = 500000.
Proof. repeat split; vm_compute; exact eq_refl. Qed.

(** C3, the defect. Post-swap verification: with a router that reports an
    output amount and moves nothing, both swap legs of a rebalance leave the
    destination balances at 0 (the events record before = after = 0), and
    the call completes with [RebalanceExecuted] all the same: the assertions
    on the balances are commented out in the source. *)
Theorem swap_without_balance_increase_completes :
  succeeds (triggerRebalance 1 (at_time BOB 2000000) idleRouterFunded) = true
  /\ newEvents idleRouterFunded idleRouterAfter
     = [ TriggerRebalanceStarted BOB 2000000;
         DriftCalculated 0 0 10000 3333 3334 6667 6667;
         SwapExecuted USDC_ADDRESS WMAS_ADDRESS 333300 333300 0 0;
         MultiHopSwapExecuted 333400 333400 0 0;
         RebalanceExecuted 2000000 2 6667 500 ]
  /\ held (world idleRouterFunded) WMAS_ADDRESS VAULT = 0%N
  /\ held (world idleRouterAfter) WMAS_ADDRESS VAULT = 0%N
  /\ held (world idleRouterAfter) WETH_ADDRESS VAULT = 0%N
  /\ storage idleRouterAfter !! LAST_REBALANCE_KEY = Some "2000000".
Proof. repeat split; vm_compute; exact eq_refl. Qed.

(** C4, the defect. Autonomy exhaustion: the gas bank holds 0.48 MAS, below
    [MIN_GAS_BANK_BALANCE], when the self-invoked [triggerRebalance] reaches
    the re-arm step. The call completes and emits [AutonomousModeStopped],
    but what it leaves under the enabled key is the text "false": the key is
    still there, so [getAutonomousStatus] and [isAutonomousScheduled], which
    test its presence, report autonomy as enabled. *)
Theorem autonomy_stop_leaves_flag_present :
  storage autoStarted !! AUTONOMOUS_MODE_ENABLED = Some "true"
  /\ succeeds (triggerRebalance 1 (at_time VAULT 1807000) autoStarted) = true
  /\ balance (world autoAfter) = 480000000
  /\ last (newEvents autoStarted autoAfter)
     = Some (AutonomousModeStopped "Low gas bank" [0])
  /\ storage autoAfter !! AUTONOMOUS_MODE_ENABLED = Some "false"
  /\ reportsEnabled autoAfter = Some true
  /\ returnsTrue isAutonomousScheduled autoAfter = true.
Proof. repeat split; vm_compute; exact eq_refl. Qed.

(** C5, the defect. Proportional redemption: Alice holds all 10,000,000
    shares and the vault 10^13 units of WETH. The floor of
    [shares * balance / total] is 10^13, but the 64-bit product wraps and
    [redeem(10000000, false)] pays 776,627,963,145 units of WETH; the rest
    stays in the vault with no share left to claim it. *)
Theorem redeem_payout_wraps :
  sharesOf (storage wethFunded) ALICE = 10000000
  /\ totalShares (storage wethFunded) = 10000000
  /\ held (world wethFunded) WETH_ADDRESS VAULT = 10000000000000%N
  /\ 10000000 * 10000000000000 / 10000000 = 10000000000000
  /\ succeeds (redeem (at_time ALICE 7000) 10000000 false wethFunded) = true
  /\ newCalls wethFunded wethRedeemed
     = [ CallTransfer WETH_ADDRESS ALICE 776627963145;
         CallTransfer USDC_ADDRESS ALICE 10000000 ]
  /\ held (world wethRedeemed) WETH_ADDRESS VAULT = 9223372036855%N
  /\ totalShares (storage wethRedeemed) = 0.
Proof. repeat split; vm_compute; exact eq_refl. Qed.

Lemma rebalance_legs_witness :
  exists wmas weth usdc,
    balanceOf (world cappedFunded) WMAS_ADDRESS (callee (at_time BOB 2000000))
    = Some wmas /\
    balanceOf (world cappedFunded) WETH_ADDRESS (callee (at_time BOB 2000000))
    = Some weth /\
    balanceOf (world cappedFunded) USDC_ADDRESS (callee (at_time BOB 2000000))
    = Some usdc /\
    (calls (after (executeRebalanceInternal (rebalance 1) (at_time BOB 2000000))
              cappedFunded) = calls cappedFunded
     \/ exists targetsStr wmasTarget wethTarget usdcTarget thresholdText
         legs1 legs2 mid,
          storage cappedFunded !! TARGETS_BPS_KEY = Some targetsStr /\
          split_commas targetsStr "" !! 0%nat = Some wmasTarget /\
          split_commas targetsStr "" !! 1%nat = Some wethTarget /\
          split_commas targetsStr "" !! 2%nat = Some usdcTarget /\
          storage cappedFunded !! MAX_DRIFT_BPS_KEY = Some thresholdText /\
          calls mid = (calls cappedFunded ++ legs1 ++ legs2)%list /\
          (if maxDriftOf (reading wmas) (reading weth) (reading usdc)
                (U64.parseInt wmasTarget) (U64.parseInt wethTarget)
                (U64.parseInt usdcTarget)
              <=? U64.parseInt thresholdText
           then legs1 = [] /\ legs2 = []
           else
             legSwaps
               (currentBps (wmasValueOf (reading wmas))
                  (totalValueOf (reading wmas) (reading weth) (reading usdc)))
               (U64.parseInt wmasTarget)
               (wmasDeficitOf (reading wmas) (reading weth) (reading usdc)
                  (U64.parseInt wmasTarget))
               (reading usdc) legs1 /\
             legSwaps
               (currentBps (wethValueOf (reading weth))
                  (totalValueOf (reading wmas) (reading weth) (reading usdc)))
               (U64.parseInt wethTarget)
               (wethDeficitOf (reading wmas) (reading weth) (reading usdc)
                  (U64.parseInt wethTarget))
               (reading usdc) legs2) /\
          scheduleNextRebalance (rebalance 1) (at_time BOB 2000000) mid
          = Ok tt (after (executeRebalanceInternal (rebalance 1)
                            (at_time BOB 2000000)) cappedFunded)).
Proof.
  apply (rebalance_legs_within_balance (rebalance 1) (at_time BOB 2000000)
           cappedFunded
           (after (executeRebalanceInternal (rebalance 1) (at_time BOB 2000000))
              cappedFunded)).
  apply succeeds_after. vm_compute. exact eq_refl.
Defined.

(** Both rules on the ledger. With targets of 80%, 10% and 10% and 1,000,000
    units of the base asset as the whole value, the deficits are 800,000 and
    100,000, within the balance, and they are what the legs commit. With
    WETH worth 9,000,000 beside the 1,000,000 units, the deficit of WMAS is
    3,333,000, beyond the balance, and the leg commits half of the balance. *)
Example rebalance_legs_on_the_ledger :
  wmasDeficitOf 0 0 1000000 8000 = 800000
  /\ wethDeficitOf 0 0 1000000 1000 = 100000
  /\ swapAmounts (newCalls cappedFunded cappedAfter) = [800000; 100000]
  /\ wmasDeficitOf 0 3000000000000000 1000000 3333 = 3333000
  /\ held (world halvedGenesis) USDC_ADDRESS VAULT = 1000000%N
  /\ succeeds (triggerRebalance 1 (at_time BOB 2000000) halvedGenesis) = true
  /\ swapAmounts (newCalls halvedGenesis halvedAfter) = [500000].
Proof. repeat split; vm_compute; exact eq_refl. Qed.

(** The vault holds 1,000,000 units of the base asset, all its value; with a
    target of 80% for WMAS the first leg commits 800,000 units, more than
    half of the balance. *)
Lemma rebalance_legs_counterexample :
  held (world cappedFunded) USDC_ADDRESS VAULT = 1000000%N
  /\ succeeds (triggerRebalance 1 (at_time BOB 2000000) cappedFunded) = true
  /\ swapAmounts (newCalls cappedFunded cappedAfter) = [800000; 100000]
  /\ ~ (800000 <= 1000000 / 2).
Proof.
  repeat split; try (vm_compute; exact eq_refl).
  vm_compute. intros Hle. apply Hle. exact eq_refl.
Qed.

(** * Further properties of the contract *)

(** ** The frame: what an entry point leaves alone *)

Section Frame.

Context {W : Type} `{Host W}.

Variable key : string.

Lemma preserves_bind {A B} (m : M W A) (f : A -> M W B) :
  Preserves key m -> (forall a, Preserves key (f a)) -> Preserves key (m ≫= f).
Proof.
  intros Hm Hf s b s' (a & s1 & H1 & H2)%bind_Ok.
  rewrite (Hf _ _ _ _ H2). exact (Hm _ _ _ H1).
Qed.

Lemma preserves_ret {A} (a : A) : Preserves key (mret a : M W A).
Proof. intros s b s' [_ ->]%ret_Ok. reflexivity. Qed.

Lemma preserves_revert {A} msg : Preserves key (revert msg : M W A).
Proof. intros s b s' Hr. discriminate Hr. Qed.

Lemma preserves_assert cond msg : Preserves key (assert cond msg : M W unit).
Proof. intros s b s' [_ ->]%assert_Ok. reflexivity. Qed.

Lemma preserves_event e : Preserves key (generateEvent e : M W unit).
Proof. intros s b s' ->%event_Ok. reflexivity. Qed.

Lemma preserves_logCall c : Preserves key (logCall c : M W unit).
Proof. intros s b s' ->%logCall_Ok. reflexivity. Qed.

Lemma preserves_getWorld : Preserves key (getWorld : M W W).
Proof. intros s b s' [_ ->]%getWorld_Ok. reflexivity. Qed.

Lemma preserves_external {A} (r : option (W * A)) msg :
  Preserves key (external r msg).
Proof. intros s b s' (w & _ & ->)%external_Ok. reflexivity. Qed.

Lemma preserves_external_ (r : option W) msg : Preserves key (external_ r msg).
Proof. intros s b s' (w & _ & ->)%external__Ok. reflexivity. Qed.

Lemma preserves_has k : Preserves key (Storage.has k : M W bool).
Proof. intros s b s' [_ ->]%has_Ok. reflexivity. Qed.

Lemma preserves_get k : Preserves key (Storage.get k : M W string).
Proof. intros s b s' [_ ->]%get_Ok. reflexivity. Qed.

Lemma preserves_set k value :
  key <> k -> Preserves key (Storage.set k value : M W unit).
Proof.
  intros Hne s b s' ->%set_Ok. cbn [storage].
  apply lookup_insert_ne. congruence.
Qed.

Lemma preserves_del k : key <> k -> Preserves key (Storage.del k : M W unit).
Proof.
  intros Hne s b s' [_ ->]%del_Ok. cbn [storage].
  apply lookup_delete_ne. congruence.
Qed.

Lemma preserves_getOr k fallback : Preserves key (getOr k fallback : M W string).
Proof. intros s b s' [_ ->]%getOr_Ok. reflexivity. Qed.

Lemma preserves_part parts i : Preserves key (part parts i : M W string).
Proof. intros s b s' [_ ->]%part_Ok. reflexivity. Qed.

Lemma preserves_getTokenBalance ctx token :
  Preserves key (getTokenBalance ctx token : M W Z).
Proof. intros s b s' (? & _ & _ & ->)%getTokenBalance_Ok. reflexivity. Qed.

Lemma preserves_getTokenBalanceString ctx token :
  Preserves key (getTokenBalanceString ctx token : M W string).
Proof. intros s b s' (? & _ & _ & ->)%getTokenBalanceString_Ok. reflexivity. Qed.

Lemma preserves_approveToken ctx token amount :
  Preserves key (approveToken ctx token amount : M W unit).
Proof. intros s b s' (? & _ & ->)%approveToken_Ok. reflexivity. Qed.

Lemma preserves_routerSwap ctx a b c d e f g :
  Preserves key (routerSwap ctx a b c d e f g : M W N).
Proof. intros s x s' (? & _ & ->)%routerSwap_Ok. reflexivity. Qed.

Lemma preserves_transferTokenToUser ctx token user amount :
  Preserves key (transferTokenToUser ctx token user amount : M W unit).
Proof. intros s b s' (? & _ & ->)%transferTokenToUser_Ok. reflexivity. Qed.

End Frame.

Create HintDb frame.

#[export] Hint Resolve preserves_ret preserves_revert preserves_assert
  preserves_event preserves_logCall preserves_getWorld preserves_external
  preserves_external_ preserves_has preserves_get preserves_getOr
  preserves_part preserves_getTokenBalance preserves_getTokenBalanceString
  preserves_approveToken preserves_routerSwap preserves_transferTokenToUser
  : frame.

(** Split [key ∉ [k1; ...; kn]] into the inequalities [key <> ki]. *)
Ltac split_footprint H :=
  cbn [footprint] in H;
  repeat match type of H with
         | _ ∉ _ :: _ =>
             let Hne := fresh "Hne" in
             apply not_elem_of_cons in H as [Hne H]
         end.

(** Walk through the body of a function of the contract; a write to [k] asks
    for [key <> k], found among the hypotheses. *)
Ltac frame_tac :=
  repeat (intros; cbn beta zeta;
          lazymatch goal with
          | |- Preserves _ (@mbind _ _ _ _ _ _) => apply preserves_bind
          | |- Preserves _ (if ?c then _ else _) => destruct c
          | |- Preserves _ (match ?x with _ => _ end) => destruct x
          | |- Preserves _ (Storage.set _ _) =>
              apply preserves_set; assumption
          | |- Preserves _ (Storage.del _) =>
              apply preserves_del; assumption
          | |- Preserves _ _ => solve [eauto with frame]
          end).

Section FrameEntryPoints.

Context {W : Type} `{Host W}.

Variable key : string.

Lemma preserves_executeTestSwap ctx tokenIn tokenOut amountIn minOut :
  Preserves key (executeTestSwap ctx tokenIn tokenOut amountIn minOut : M W N).
Proof. unfold executeTestSwap. frame_tac. Qed.

Lemma preserves_executeMultiHopSwap ctx amountIn minOut :
  Preserves key (executeMultiHopSwap ctx amountIn minOut : M W N).
Proof. unfold executeMultiHopSwap. frame_tac. Qed.

#[local] Hint Resolve preserves_executeTestSwap preserves_executeMultiHopSwap
  : frame.

Lemma preserves_wmasLeg ctx a b c d e :
  Preserves key (wmasLeg ctx a b c d e : M W Z).
Proof. unfold wmasLeg. frame_tac. Qed.

Lemma preserves_wethLeg ctx a b c d e :
  Preserves key (wethLeg ctx a b c d e : M W Z).
Proof. unfold wethLeg. frame_tac. Qed.

#[local] Hint Resolve preserves_wmasLeg preserves_wethLeg : frame.

Hypothesis not_last : key <> LAST_REBALANCE_KEY.
Hypothesis not_scheduled : key <> AUTON_SCHEDULED.

Section FrameNested.

Variable self : CallContext -> M W unit.
Hypothesis preserves_self : forall ctx, Preserves key (self ctx).

#[local] Hint Resolve preserves_self : frame.

Lemma preserves_scheduleNextRebalance ctx :
  Preserves key (scheduleNextRebalance self ctx).
Proof. unfold scheduleNextRebalance. frame_tac. Qed.

#[local] Hint Resolve preserves_scheduleNextRebalance : frame.

Lemma preserves_executeRebalanceInternal ctx :
  Preserves key (executeRebalanceInternal self ctx).
Proof. unfold executeRebalanceInternal. frame_tac. Qed.

#[local] Hint Resolve preserves_executeRebalanceInternal : frame.

Lemma preserves_rebalance_body ctx : Preserves key (rebalance_body self ctx).
Proof. unfold rebalance_body. frame_tac. Qed.

End FrameNested.

Lemma preserves_rebalance depth : forall ctx, Preserves key (rebalance depth ctx).
Proof.
  induction depth as [| depth IH]; intros ctx; cbn [rebalance].
  - apply preserves_revert.
  - apply preserves_rebalance_body. exact IH.
Qed.

Lemma preserves_triggerRebalance depth ctx :
  key <> AUTONOMOUS_MODE_ENABLED -> key <> DEFERRED_CALL_ID_KEY ->
  Preserves key (triggerRebalance depth ctx).
Proof.
  intros Hne1 Hne2.
  pose proof (preserves_rebalance depth) as Hself.
  pose proof (preserves_executeRebalanceInternal _ Hself) as Hexec.
  unfold triggerRebalance. frame_tac.
Qed.

End FrameEntryPoints.

Section FrameTheorem.

Context {W : Type} `{Host W}.

(** Every entry point writes within its footprint. *)
Lemma dispatch_frame depth ctx c key :
  key ∉ footprint ctx c -> Preserves key (dispatch depth ctx c : M W unit).
Proof.
  intros Hout. destruct c; cbn [dispatch]; split_footprint Hout.
  - unfold constructor. frame_tac.
  - unfold startAutonomousRebalancing. frame_tac.
  - apply preserves_triggerRebalance; assumption.
  - unfold validateBinSteps, queryAvailableBinSteps. frame_tac.
  - unfold setMinDeposit. frame_tac.
  - unfold deposit. frame_tac.
  - unfold redeem. frame_tac.
  - unfold setGuard. frame_tac.
  - unfold topUpGasBank. frame_tac.
  - apply preserves_rebalance; assumption.
  - unfold pause. frame_tac.
  - unfold unpause. frame_tac.
  - unfold updateTargets. frame_tac.
  - unfold updateMaxDrift. frame_tac.
  - unfold updateRebalanceEpoch. frame_tac.
  - unfold emergencyWithdraw. frame_tac.
  - unfold transferOwnership. frame_tac.
Qed.

Lemma step_frame_lemma depth (s : State W) ctx c key :
  key ∉ footprint ctx c ->
  storage (step depth s (ctx, c)) !! key = storage s !! key.
Proof.
  intros Hout. unfold step. cbn [fst snd].
  destruct (dispatch depth ctx c s) as [a s' |] eqn:Hd; [| reflexivity].
  exact (dispatch_frame depth ctx c key Hout s a s' Hd).
Qed.

End FrameTheorem.

(** ** Access control *)

Lemma userSharesKey_inj a b : userSharesKey a = userSharesKey b -> a = b.
Proof. unfold userSharesKey. cbn. intros [= E]. exact E. Qed.

(** A key outside a list of keys, each a constant or a share record. *)
Ltac outside :=
  repeat (apply not_elem_of_cons; split);
  [ .. | apply not_elem_of_nil ];
  try (unfold userSharesKey; cbn; discriminate).

Section Access.

Context {W : Type} `{Host W}.

Lemma run_cons depth (c : CallContext * Call) cs (s : State W) :
  run depth (c :: cs) s = run depth cs (step depth s c).
Proof. reflexivity. Qed.

Lemma step_revert depth (s : State W) ctx c msg :
  dispatch depth ctx c s = Revert msg -> step depth s (ctx, c) = s.
Proof. unfold step. cbn [fst snd]. intros ->. reflexivity. Qed.

Lemma dispatch_unauthorised depth ctx c (s : State W) owner :
  storage s !! OWNER_KEY = Some owner ->
  mayCall owner ctx c = false ->
  exists msg, dispatch depth ctx c s = Revert msg.
Proof.
  intros Howner Hno.
  destruct c; cbn [mayCall] in Hno; try discriminate Hno; cbn [dispatch].
  - eexists. unfold constructor. apply bind_Revert. rewrite Hno. reflexivity.
  - eexists. unfold startAutonomousRebalancing.
    rewrite (bind_step _ _ s owner s)
      by (unfold Storage.get; rewrite Howner; reflexivity).
    apply bind_Revert. rewrite Hno. reflexivity.
  - eexists. unfold setMinDeposit.
    rewrite (bind_step _ _ s owner s)
      by (unfold Storage.get; rewrite Howner; reflexivity).
    apply bind_Revert. rewrite Hno. reflexivity.
  - eexists. unfold setGuard.
    rewrite (bind_step _ _ s owner s)
      by (unfold Storage.get; rewrite Howner; reflexivity).
    apply bind_Revert. rewrite Hno. reflexivity.
  - destruct depth as [| depth]; cbn [rebalance]; [eexists; reflexivity |].
    eexists. unfold rebalance_body.
    rewrite (bind_step _ _ s owner s)
      by (unfold Storage.get; rewrite Howner; reflexivity).
    apply bind_Revert. rewrite Hno. reflexivity.
  - eexists. unfold pause.
    rewrite (bind_step _ _ s owner s)
      by (unfold Storage.get; rewrite Howner; reflexivity).
    apply bind_Revert. rewrite Hno. reflexivity.
  - eexists. unfold unpause.
    rewrite (bind_step _ _ s owner s)
      by (unfold Storage.get; rewrite Howner; reflexivity).
    apply bind_Revert. rewrite Hno. reflexivity.
  - eexists. unfold updateTargets.
    rewrite (bind_step _ _ s owner s)
      by (unfold Storage.get; rewrite Howner; reflexivity).
    apply bind_Revert. rewrite Hno. reflexivity.
  - eexists. unfold updateMaxDrift.
    rewrite (bind_step _ _ s owner s)
      by (unfold Storage.get; rewrite Howner; reflexivity).
    apply bind_Revert. rewrite Hno. reflexivity.
  - eexists. unfold updateRebalanceEpoch.
    rewrite (bind_step _ _ s owner s)
      by (unfold Storage.get; rewrite Howner; reflexivity).
    apply bind_Revert. rewrite Hno. reflexivity.
  - eexists. unfold emergencyWithdraw.
    rewrite (bind_step _ _ s owner s)
      by (unfold Storage.get; rewrite Howner; reflexivity).
    apply bind_Revert. rewrite Hno. reflexivity.
  - eexists. unfold transferOwnership.
    rewrite (bind_step _ _ s owner s)
      by (unfold Storage.get; rewrite Howner; reflexivity).
    apply bind_Revert. rewrite Hno. reflexivity.
Qed.

(** An entry point other than the constructor and the owner's setters writes
    no configuration key. *)
Lemma adminKeys_outside ctx c key :
  key ∈ adminKeys ->
  match c with
  | CTriggerRebalance | CValidateBinSteps | CDeposit _ | CRedeem _ _
  | CTopUpGasBank | CRebalance => True
  | _ => False
  end ->
  key ∉ footprint ctx c.
Proof.
  intros Hkey Hc. unfold adminKeys in Hkey.
  repeat (apply elem_of_cons in Hkey as [-> | Hkey]);
    try (apply elem_of_nil in Hkey; contradiction);
    destruct c; try contradiction; cbn [footprint]; outside.
Qed.

Lemma outsider_step depth (s : State W) c owner key :
  storage s !! OWNER_KEY = Some owner ->
  outsider owner c ->
  key ∈ adminKeys ->
  storage (step depth s c) !! key = storage s !! key.
Proof.
  intros Howner [Hcaller Hdeploy] Hkey. destruct c as [ctx c]. cbn [fst] in *.
  destruct (mayCall owner ctx c) eqn:Hmay.
  - apply step_frame_lemma, adminKeys_outside; [exact Hkey |].
    apply String.eqb_neq in Hcaller.
    destruct c; cbn [mayCall] in Hmay; try exact I; congruence.
  - destruct (dispatch_unauthorised depth ctx c s owner Howner Hmay) as [msg Hr].
    rewrite (step_revert _ _ _ _ _ Hr). reflexivity.
Qed.

End Access.

Section AccessTheorems.

Context {W : Type} `{Host W}.

(** X2. Frame. Whatever sequence of calls runs, an entry of the storage whose
    key is in the footprint of none of them is left as it was. *)
Theorem untouched_outside_footprint depth (cs : list (CallContext * Call))
    (s : State W) key :
  Forall (fun c => key ∉ footprint (fst c) (snd c)) cs ->
  storage (run depth cs s) !! key = storage s !! key.
Proof.
  intros Hall. revert s.
  induction Hall as [| [ctx c] cs Hout _ IH]; intros s; [reflexivity |].
  rewrite run_cons, IH. apply step_frame_lemma, Hout.
Qed.

(** X3. A holder's share record changes only in calls the holder makes. *)
Theorem shares_change_only_by_holder depth (cs : list (CallContext * Call))
    (s : State W) holder :
  Forall (fun c => caller (fst c) <> holder) cs ->
  storage (run depth cs s) !! userSharesKey holder
  = storage s !! userSharesKey holder
  /\ sharesOf (storage (run depth cs s)) holder = sharesOf (storage s) holder.
Proof.
  intros Hall.
  assert (Hrec : storage (run depth cs s) !! userSharesKey holder
                 = storage s !! userSharesKey holder).
  { revert s.
    induction Hall as [| [ctx c] cs Hother _ IH]; intros s; [reflexivity |].
    rewrite run_cons, IH. apply step_frame_lemma. cbn [fst snd] in *.
    assert (userSharesKey holder <> userSharesKey (caller ctx))
      by (intros E%userSharesKey_inj; congruence).
    destruct c; cbn [footprint]; outside; assumption. }
  split; [exact Hrec |]. unfold sharesOf. rewrite Hrec. reflexivity.
Qed.

(** X4. Access control. A call by someone [mayCall] does not admit reverts,
    and the chain keeps the state as it was. *)
Theorem unauthorised_call_reverts depth ctx c (s : State W) owner :
  storage s !! OWNER_KEY = Some owner ->
  mayCall owner ctx c = false ->
  (exists msg, dispatch depth ctx c s = Revert msg)
  /\ step depth s (ctx, c) = s.
Proof.
  intros Howner Hno.
  destruct (dispatch_unauthorised depth ctx c s owner Howner Hno) as [msg Hr].
  split; [exists msg; exact Hr | exact (step_revert _ _ _ _ _ Hr)].
Qed.

(** X5. The configuration is the owner's: no sequence of calls by others
    changes any configuration entry, the owner's address included. *)
Theorem configuration_needs_owner depth (cs : list (CallContext * Call))
    (s : State W) owner key :
  storage s !! OWNER_KEY = Some owner ->
  Forall (outsider owner) cs ->
  key ∈ adminKeys ->
  storage (run depth cs s) !! key = storage s !! key.
Proof.
  intros Howner Hall Hkey. revert s Howner.
  induction Hall as [| c cs Hout _ IH]; intros s Howner; [reflexivity |].
  rewrite run_cons, IH.
  - apply (outsider_step depth s c owner key Howner Hout Hkey).
  - rewrite (outsider_step depth s c owner OWNER_KEY Howner Hout).
    + exact Howner.
    + unfold adminKeys. do 2 apply list_elem_of_further. apply list_elem_of_here.
Qed.

(** X6. The owner changes in one way only: [transferOwnership], called by the
    owner, with a new owner that is not the empty text. *)
Theorem owner_changes_only_by_transfer depth (s : State W) ctx c owner :
  storage s !! OWNER_KEY = Some owner ->
  isDeployingContract ctx = false ->
  storage (step depth s (ctx, c)) !! OWNER_KEY = Some owner
  \/ exists newOwner,
       c = CTransferOwnership newOwner /\ caller ctx = owner /\
       newOwner <> "" /\
       storage (step depth s (ctx, c)) !! OWNER_KEY = Some newOwner.
Proof.
  intros Howner Hdeploy.
  destruct c.
  all: try (left; rewrite step_frame_lemma by (cbn [footprint]; outside);
            exact Howner).
  - left. rewrite (step_revert depth s ctx _ "Can only be called during deployment");
      [exact Howner |].
    cbn [dispatch]. unfold constructor. apply bind_Revert.
    rewrite Hdeploy. reflexivity.
  - unfold step. cbn [fst snd dispatch].
    destruct (transferOwnership ctx newOwner s) as [[] s' |] eqn:Hcall;
      [| left; exact Howner].
    right. exists newOwner. unfold transferOwnership in Hcall. minv Hcall.
    rewrite Howner in Hstep. injection Hstep as <-.
    split; [reflexivity |].
    split; [apply String.eqb_eq; assumption |].
    split; [| apply lookup_insert_eq].
    intros ->. discriminate.
Qed.

(** X7. The reentrancy flag is never left behind: a deposit that succeeds has
    deleted it, a deposit that fails has written nothing, and no other entry
    point touches it. *)
Theorem reentrancy_flag_released depth (cs : list (CallContext * Call))
    (s : State W) :
  storage s !! REENTRANCY_GUARD_KEY = None ->
  storage (run depth cs s) !! REENTRANCY_GUARD_KEY = None.
Proof.
  revert s. induction cs as [| [ctx c] cs IH]; intros s Hfree; [exact Hfree |].
  rewrite run_cons. apply IH.
  destruct c.
  all: try (rewrite step_frame_lemma by (cbn [footprint]; outside);
            exact Hfree).
  unfold step. cbn [fst snd dispatch].
  destruct (deposit ctx amount s) as [[] s' |] eqn:Hcall; [| exact Hfree].
  apply deposit_inv in Hcall
    as (? & ? & ? & ? & ? & _ & _ & _ & _ & _ & _ & _ & _ & ->).
  apply lookup_delete_eq.
Qed.

(** X8. The guard latch: once the owner has called [setGuard], with [true] or
    with [false], the guard key is in the storage and [getGuardStatus] answers
    [true] after every later sequence of calls. *)
Theorem guard_latch depth (s : State W) (before after : list (CallContext * Call))
    ctx armed :
  storage (run depth before s) !! OWNER_KEY = Some (caller ctx) ->
  getGuardStatus (run depth (before ++ [(ctx, CSetGuard armed)] ++ after) s)
  = Ok true (run depth (before ++ [(ctx, CSetGuard armed)] ++ after) s).
Proof.
  intros Howner.
  assert (Hp : hasKey GUARD_ARMED_KEY
                 (storage (run depth
                             (before ++ [(ctx, CSetGuard armed)] ++ after) s))).
  { rewrite run_app, run_app. apply (run_keeps_key _ guard_sticky).
    cbn [run fold_left]. unfold step. cbn [fst snd dispatch]. unfold setGuard.
    rewrite (bind_step _ _ _ (caller ctx) (run depth before s))
      by (unfold Storage.get; rewrite Howner; reflexivity).
    rewrite (bind_step _ _ _ tt (run depth before s))
      by (rewrite String.eqb_refl; reflexivity).
    unfold mbind, M_bind, Storage.set, generateEvent, hasKey.
    cbn [storage events calls world]. rewrite lookup_insert_eq. eauto. }
  unfold getGuardStatus, Storage.has.
  rewrite bool_decide_eq_true_2 by exact Hp. reflexivity.
Qed.

End AccessTheorems.

Lemma untouched_outside_footprint_witness :
  Forall (fun c => OWNER_KEY ∉ footprint (fst c) (snd c)) ledgerOps /\
  storage (run 1 ledgerOps ledgerGenesis) !! OWNER_KEY
  = storage ledgerGenesis !! OWNER_KEY.
Proof.
  assert (Hout : Forall (fun c => OWNER_KEY ∉ footprint (fst c) (snd c))
                   ledgerOps).
  { unfold ledgerOps.
    repeat first [apply List.Forall_nil | apply List.Forall_cons];
      cbn [fst snd footprint]; outside. }
  split; [exact Hout |].
  exact (untouched_outside_footprint 1 ledgerOps ledgerGenesis OWNER_KEY Hout).
Defined.

Lemma shares_change_only_by_holder_witness :
  storage (run 1 [(at_time BOB 6000, CDeposit 500000);
                  (at_time OWNER 7000, CPause)]
             (step 1 ledgerGenesis (at_time ALICE 5000, CDeposit 1000000)))
    !! userSharesKey ALICE
  = storage (step 1 ledgerGenesis (at_time ALICE 5000, CDeposit 1000000))
      !! userSharesKey ALICE
  /\ sharesOf
       (storage (run 1 [(at_time BOB 6000, CDeposit 500000);
                        (at_time OWNER 7000, CPause)]
                   (step 1 ledgerGenesis (at_time ALICE 5000, CDeposit 1000000))))
       ALICE
     = sharesOf
         (storage (step 1 ledgerGenesis (at_time ALICE 5000, CDeposit 1000000)))
         ALICE.
Proof.
  apply (shares_change_only_by_holder 1
           [(at_time BOB 6000, CDeposit 500000); (at_time OWNER 7000, CPause)]
           (step 1 ledgerGenesis (at_time ALICE 5000, CDeposit 1000000)) ALICE).
  repeat first [apply List.Forall_nil | apply List.Forall_cons];
    cbn [fst caller at_time]; discriminate.
Defined.

Lemma unauthorised_call_reverts_witness :
  (exists msg, dispatch 1 (at_time ALICE 5000) CPause ledgerGenesis = Revert msg)
  /\ step 1 ledgerGenesis (at_time ALICE 5000, CPause) = ledgerGenesis.
Proof.
  apply (unauthorised_call_reverts 1 (at_time ALICE 5000) CPause ledgerGenesis
           OWNER).
  - vm_compute. exact eq_refl.
  - vm_compute. exact eq_refl.
Defined.

Lemma configuration_needs_owner_witness :
  storage (run 1 [(at_time ALICE 5000, CPause);
                  (at_time ALICE 6000, CUpdateMaxDrift 2000);
                  (at_time ALICE 7000, CDeposit 1000000)] ledgerGenesis)
    !! MAX_DRIFT_BPS_KEY
  = storage ledgerGenesis !! MAX_DRIFT_BPS_KEY.
Proof.
  apply (configuration_needs_owner 1
           [(at_time ALICE 5000, CPause);
            (at_time ALICE 6000, CUpdateMaxDrift 2000);
            (at_time ALICE 7000, CDeposit 1000000)] ledgerGenesis OWNER
           MAX_DRIFT_BPS_KEY).
  - vm_compute. exact eq_refl.
  - repeat first [apply List.Forall_nil | apply List.Forall_cons];
      (split; [cbn [fst caller at_time]; discriminate | reflexivity]).
  - unfold adminKeys. do 4 apply list_elem_of_further. apply list_elem_of_here.
Defined.

Lemma owner_changes_only_by_transfer_witness :
  storage (step 1 ledgerGenesis (at_time OWNER 5000, CTransferOwnership ALICE))
    !! OWNER_KEY = Some OWNER
  \/ exists newOwner,
       CTransferOwnership ALICE = CTransferOwnership newOwner /\
       caller (at_time OWNER 5000) = OWNER /\
       newOwner <> "" /\
       storage (step 1 ledgerGenesis
                  (at_time OWNER 5000, CTransferOwnership ALICE))
         !! OWNER_KEY = Some newOwner.
Proof.
  apply (owner_changes_only_by_transfer 1 ledgerGenesis (at_time OWNER 5000)
           (CTransferOwnership ALICE) OWNER).
  - vm_compute. exact eq_refl.
  - reflexivity.
Defined.

Lemma reentrancy_flag_released_witness :
  storage (run 1 ledgerOps ledgerGenesis) !! REENTRANCY_GUARD_KEY = None.
Proof.
  apply (reentrancy_flag_released 1 ledgerOps ledgerGenesis).
  vm_compute. exact eq_refl.
Defined.

Lemma guard_latch_witness :
  getGuardStatus
    (run 1 ([] ++ [(at_time OWNER 6000, CSetGuard false)] ++ ledgerOps)
       ledgerGenesis)
  = Ok true
      (run 1 ([] ++ [(at_time OWNER 6000, CSetGuard false)] ++ ledgerOps)
         ledgerGenesis).
Proof.
  apply (guard_latch 1 ledgerGenesis [] ledgerOps (at_time OWNER 6000) false).
  vm_compute. exact eq_refl.
Defined.

(** ** Deposits and redemptions, forwards *)

Section Forward.

Context {W : Type} `{Host W}.

Lemma get_fwd key v (s : State W) :
  storage s !! key = Some v -> Storage.get key s = Ok v s.
Proof. unfold Storage.get. intros ->. reflexivity. Qed.

Lemma has_present key (s : State W) :
  is_Some (storage s !! key) -> Storage.has key s = Ok true s.
Proof.
  intros Hp. unfold Storage.has. rewrite bool_decide_eq_true_2 by exact Hp.
  reflexivity.
Qed.

Lemma has_absent key (s : State W) :
  storage s !! key = None -> Storage.has key s = Ok false s.
Proof.
  intros Hn. unfold Storage.has.
  rewrite bool_decide_eq_false_2 by (rewrite Hn; intros [? ?]; discriminate).
  reflexivity.
Qed.

Lemma getTokenBalanceString_fwd ctx token (s : State W) bal :
  balanceOf (world s) token (callee ctx) = Some bal ->
  getTokenBalanceString ctx token s = Ok (U64.toString (Z.of_N bal)) s.
Proof.
  intros Hb. unfold getTokenBalanceString.
  rewrite (bind_step _ _ s (world s) s) by reflexivity.
  rewrite Hb. reflexivity.
Qed.

Lemma getTokenBalance_fwd ctx token (s : State W) bal :
  balanceOf (world s) token (callee ctx) = Some bal ->
  getTokenBalance ctx token s = Ok (U64.wrap (Z.of_N bal)) s.
Proof.
  intros Hb. unfold getTokenBalance.
  rewrite (bind_step _ _ s (world s) s) by reflexivity.
  rewrite Hb. reflexivity.
Qed.

Lemma external__fwd (w : W) msg (s : State W) :
  external_ (Some w) msg s
  = Ok tt (mkState (storage s) (events s) (calls s) w).
Proof. reflexivity. Qed.

Lemma transferTokenToUser_fwd ctx token user amount (s : State W) w :
  amount <> 0 ->
  transfer (world s) token (callee ctx) user amount = Some w ->
  transferTokenToUser ctx token user amount s
  = Ok tt (mkState (storage s) (events s)
             (calls s ++ [CallTransfer token user amount]) w).
Proof.
  intros Hnz Ht. unfold transferTokenToUser.
  destruct (Z.eqb_spec amount 0) as [| _]; [contradiction |].
  erewrite bind_step by reflexivity.
  erewrite bind_step by reflexivity.
  cbn [world]. rewrite Ht. reflexivity.
Qed.

Lemma sharesOf_insert_same (st : gmap string string) holder n :
  U64.in_range n ->
  sharesOf (<[userSharesKey holder := U64.toString n]> st) holder = n.
Proof.
  intros Hn. unfold sharesOf. rewrite lookup_insert_eq.
  apply parseInt_toString_u64, Hn.
Qed.

Lemma totalShares_insert (st : gmap string string) n :
  U64.in_range n ->
  totalShares (<[TOTAL_SHARES_KEY := U64.toString n]> st) = n.
Proof.
  intros Hn. unfold totalShares. rewrite lookup_insert_eq.
  apply parseInt_toString_u64, Hn.
Qed.

End Forward.

Section LedgerTheorems.

Context {W : Type} `{Host W}.

(** The state a successful deposit of [amount] by the caller of [ctx] leaves,
    the token ledger having become [w1]. *)
Lemma deposit_fwd ctx amount (s : State W) minText totalText before w1 after :
  storage s !! PAUSED_KEY = None ->
  storage s !! REENTRANCY_GUARD_KEY = None ->
  storage s !! MIN_DEPOSIT_USDC_KEY = Some minText ->
  storage s !! TOTAL_SHARES_KEY = Some totalText ->
  U64.parseInt minText <= amount ->
  balanceOf (world s) USDC_ADDRESS (callee ctx) = Some before ->
  transferFrom (world s) USDC_ADDRESS (callee ctx) (caller ctx) (callee ctx)
    amount = Some w1 ->
  balanceOf w1 USDC_ADDRESS (callee ctx) = Some after ->
  Z.of_N before + amount <= Z.of_N after < U64.modulus ->
  deposit ctx amount s
  = Ok tt
      (mkState
         (delete REENTRANCY_GUARD_KEY
            (<[TOTAL_SHARES_KEY :=
                 U64.toString (U64.add (U64.parseInt totalText) amount)]>
               (<[userSharesKey (caller ctx) :=
                    U64.toString
                      (U64.add (sharesOf (storage s) (caller ctx)) amount)]>
                  (<[REENTRANCY_GUARD_KEY := "true"]> (storage s)))))
         (events s ++ [Deposit (caller ctx) amount amount])
         (calls s ++ [CallTransferFrom USDC_ADDRESS (caller ctx) (callee ctx)
                        amount])
         w1).
Proof.
  intros Hpaused Hflag Hmin Htotal Hamount Hbefore Hmove Hafter Hgrow.
  assert (Hmin0 := parseInt_range minText).
  assert (Hbefore0 : U64.parseInt (U64.toString (Z.of_N before)) = Z.of_N before)
    by (apply parseInt_toString_u64; unfold U64.in_range in *; lia).
  assert (Hafter0 : U64.parseInt (U64.toString (Z.of_N after)) = Z.of_N after)
    by (apply parseInt_toString_u64; unfold U64.in_range; lia).
  unfold deposit.
  rewrite (bind_step _ _ s false s) by (apply has_absent, Hpaused).
  rewrite (bind_step _ _ s tt s) by reflexivity.
  rewrite (bind_step _ _ s false s) by (apply has_absent, Hflag).
  rewrite (bind_step _ _ s tt s) by reflexivity.
  rewrite (bind_step _ _ s tt _) by reflexivity.
  erewrite bind_step
    by (apply get_fwd; cbn [storage];
        rewrite lookup_insert_ne by discriminate; exact Hmin).
  cbn zeta.
  erewrite bind_step
    by (unfold assert; destruct (Z.geb_spec amount (U64.parseInt minText));
        [reflexivity | lia]).
  erewrite bind_step by (apply getTokenBalanceString_fwd; exact Hbefore).
  erewrite bind_step by reflexivity.
  erewrite bind_step by reflexivity.
  cbn [world].
  erewrite bind_step by (rewrite Hmove; apply external__fwd).
  erewrite bind_step by (apply getTokenBalanceString_fwd; exact Hafter).
  rewrite Hbefore0, Hafter0.
  erewrite bind_step.
  2:{ unfold assert, U64.add.
      rewrite wrap_small by (unfold U64.in_range, U64.in_range in *; lia).
      destruct (Z.geb_spec (Z.of_N after) (Z.of_N before + amount));
        [reflexivity | lia]. }
  cbn [storage events calls world].
  unfold sharesOf.
  destruct (storage s !! userSharesKey (caller ctx)) as [cur |] eqn:Hcur.
  - erewrite bind_step
      by (apply has_present; cbn [storage];
          rewrite lookup_insert_ne by (unfold userSharesKey; cbn; discriminate);
          rewrite Hcur; eauto).
    erewrite bind_step.
    2:{ erewrite bind_step
          by (apply get_fwd; cbn [storage];
              rewrite lookup_insert_ne
                by (unfold userSharesKey; cbn; discriminate); exact Hcur).
        reflexivity. }
    cbn zeta. erewrite bind_step by reflexivity.
    erewrite bind_step
      by (apply get_fwd; cbn [storage];
          rewrite lookup_insert_ne by (unfold userSharesKey; cbn; discriminate);
          rewrite lookup_insert_ne by discriminate; exact Htotal).
    cbn zeta. erewrite bind_step by reflexivity.
    erewrite bind_step.
    2:{ unfold Storage.del. cbn [storage].
        rewrite lookup_insert_ne by discriminate.
        rewrite lookup_insert_ne by (unfold userSharesKey; cbn; discriminate).
        rewrite lookup_insert_eq. reflexivity. }
    reflexivity.
  - erewrite bind_step
      by (apply has_absent; cbn [storage];
          rewrite lookup_insert_ne by (unfold userSharesKey; cbn; discriminate);
          exact Hcur).
    erewrite bind_step by reflexivity.
    cbn zeta. erewrite bind_step by reflexivity.
    erewrite bind_step
      by (apply get_fwd; cbn [storage];
          rewrite lookup_insert_ne by (unfold userSharesKey; cbn; discriminate);
          rewrite lookup_insert_ne by discriminate; exact Htotal).
    cbn zeta. erewrite bind_step by reflexivity.
    erewrite bind_step.
    2:{ unfold Storage.del. cbn [storage].
        rewrite lookup_insert_ne by discriminate.
        rewrite lookup_insert_ne by (unfold userSharesKey; cbn; discriminate).
        rewrite lookup_insert_eq. reflexivity. }
    reflexivity.
Qed.

(** X9. A deposit that meets every check succeeds, and credits exactly
    [amount] (in 64-bit arithmetic) to the caller and to the total; it pulls
    [amount] from the caller with one [transferFrom] and leaves no reentrancy
    flag. *)
Theorem deposit_credits_caller ctx amount (s : State W) minText totalText
    before w1 after :
  storage s !! PAUSED_KEY = None ->
  storage s !! REENTRANCY_GUARD_KEY = None ->
  storage s !! MIN_DEPOSIT_USDC_KEY = Some minText ->
  storage s !! TOTAL_SHARES_KEY = Some totalText ->
  U64.parseInt minText <= amount ->
  balanceOf (world s) USDC_ADDRESS (callee ctx) = Some before ->
  transferFrom (world s) USDC_ADDRESS (callee ctx) (caller ctx) (callee ctx)
    amount = Some w1 ->
  balanceOf w1 USDC_ADDRESS (callee ctx) = Some after ->
  Z.of_N before + amount <= Z.of_N after < U64.modulus ->
  exists s',
    deposit ctx amount s = Ok tt s' /\
    sharesOf (storage s') (caller ctx)
    = U64.add (sharesOf (storage s) (caller ctx)) amount /\
    totalShares (storage s') = U64.add (totalShares (storage s)) amount /\
    storage s' !! REENTRANCY_GUARD_KEY = None /\
    events s' = (events s ++ [Deposit (caller ctx) amount amount])%list /\
    calls s'
    = (calls s ++ [CallTransferFrom USDC_ADDRESS (caller ctx) (callee ctx)
                     amount])%list /\
    world s' = w1.
Proof.
  intros Hpaused Hflag Hmin Htotal Hamount Hbefore Hmove Hafter Hgrow.
  eexists. split.
  { eapply deposit_fwd; eassumption. }
  cbn [storage events calls world].
  split; [| split; [| split; [| repeat split]]].
  - unfold sharesOf at 1.
    rewrite lookup_delete_ne by (unfold userSharesKey; cbn; discriminate).
    rewrite lookup_insert_ne by (unfold userSharesKey; cbn; discriminate).
    rewrite lookup_insert_eq. apply parseInt_toString_u64, wrap_range.
  - unfold totalShares. rewrite lookup_delete_ne by discriminate.
    rewrite lookup_insert_eq, Htotal. apply parseInt_toString_u64, wrap_range.
  - apply lookup_delete_eq.
Qed.

Lemma setMinDeposit_fwd ctx n (s : State W) :
  storage s !! OWNER_KEY = Some (caller ctx) ->
  setMinDeposit ctx n s
  = Ok tt (mkState (<[MIN_DEPOSIT_USDC_KEY := U64.toString n]> (storage s))
             (events s ++ [MinimumDepositUpdated n]) (calls s) (world s)).
Proof.
  intros Howner. unfold setMinDeposit.
  rewrite (bind_step _ _ s (caller ctx) s) by (apply get_fwd, Howner).
  rewrite (bind_step _ _ s tt s) by (rewrite String.eqb_refl; reflexivity).
  reflexivity.
Qed.

(** X10. The minimum the owner sets is the minimum deposits are held to: after
    [setMinDeposit n], every deposit of less than [n] reverts. *)
Theorem min_deposit_enforced depth ctxO ctx (s : State W) n amount :
  storage s !! OWNER_KEY = Some (caller ctxO) ->
  U64.in_range n ->
  amount < n ->
  (exists msg,
     deposit ctx amount (step depth s (ctxO, CSetMinDeposit n)) = Revert msg)
  /\ (storage s !! PAUSED_KEY = None ->
      storage s !! REENTRANCY_GUARD_KEY = None ->
      deposit ctx amount (step depth s (ctxO, CSetMinDeposit n))
      = Revert "Amount below minimum deposit").
Proof.
  intros Howner Hn Hlt.
  unfold step. cbn [fst snd dispatch]. rewrite (setMinDeposit_fwd _ _ _ Howner).
  set (s1 := mkState _ _ _ _).
  assert (Hmin : deposit ctx amount s1 = Revert "Amount below minimum deposit"
                 \/ is_Some (storage s !! PAUSED_KEY)
                 \/ is_Some (storage s !! REENTRANCY_GUARD_KEY)).
  { destruct (storage s !! PAUSED_KEY) eqn:Hp; [right; left; eauto |].
    destruct (storage s !! REENTRANCY_GUARD_KEY) eqn:Hf; [right; right; eauto |].
    left. unfold deposit.
    rewrite (bind_step _ _ s1 false s1)
      by (apply has_absent; cbn [s1 storage];
          rewrite lookup_insert_ne by discriminate; exact Hp).
    rewrite (bind_step _ _ s1 tt s1) by reflexivity.
    rewrite (bind_step _ _ s1 false s1)
      by (apply has_absent; cbn [s1 storage];
          rewrite lookup_insert_ne by discriminate; exact Hf).
    rewrite (bind_step _ _ s1 tt s1) by reflexivity.
    erewrite bind_step by reflexivity.
    erewrite bind_step
      by (apply get_fwd; cbn [s1 storage];
          rewrite lookup_insert_ne by discriminate;
          apply lookup_insert_eq).
    cbn zeta. apply bind_Revert.
    rewrite parseInt_toString_u64 by exact Hn.
    unfold assert. destruct (Z.geb_spec amount n); [lia | reflexivity]. }
  split.
  - destruct Hmin as [Hmin | [Hp | Hf]]; [eexists; exact Hmin | |].
    + exists "Contract is paused". apply paused_deposit_reverts.
      unfold hasKey. cbn [s1 storage].
      rewrite lookup_insert_ne by discriminate. exact Hp.
    + destruct (storage s !! PAUSED_KEY) eqn:Hp.
      * exists "Contract is paused". apply paused_deposit_reverts.
        unfold hasKey. cbn [s1 storage].
        rewrite lookup_insert_ne by discriminate. rewrite Hp. eauto.
      * exists "Reentrancy attempt detected". unfold deposit.
        rewrite (bind_step _ _ s1 false s1)
          by (apply has_absent; cbn [s1 storage];
              rewrite lookup_insert_ne by discriminate; exact Hp).
        rewrite (bind_step _ _ s1 tt s1) by reflexivity.
        rewrite (bind_step _ _ s1 true s1)
          by (apply has_present; cbn [s1 storage];
              rewrite lookup_insert_ne by discriminate; exact Hf).
        reflexivity.
  - intros Hp Hf. destruct Hmin as [Hmin | [[? E] | [? E]]]; [exact Hmin | |];
      congruence.
Qed.

(** X11. Nobody redeems more shares than are recorded for them: the call
    reverts, with "No shares to redeem" when the caller has no record at all
    and with "Insufficient shares" when there is a record of fewer shares. *)
Theorem redeem_more_than_held_reverts ctx shares toUSDC (s : State W) :
  sharesOf (storage s) (caller ctx) < shares ->
  redeem ctx shares toUSDC s
  = Revert (match storage s !! userSharesKey (caller ctx) with
            | Some _ => "Insufficient shares"
            | None => "No shares to redeem"
            end).
Proof.
  unfold sharesOf. intros Hlt. unfold redeem. cbn zeta.
  destruct (storage s !! userSharesKey (caller ctx)) as [cur |] eqn:Hcur.
  - rewrite (bind_step _ _ s true s) by (apply has_present; rewrite Hcur; eauto).
    rewrite (bind_step _ _ s tt s) by reflexivity.
    rewrite (bind_step _ _ s cur s) by (apply get_fwd, Hcur).
    apply bind_Revert. unfold assert.
    destruct (Z.geb_spec (U64.parseInt cur) shares); [lia | reflexivity].
  - rewrite (bind_step _ _ s false s) by (apply has_absent, Hcur).
    reflexivity.
Qed.

(** The ledger after a redemption. *)
Lemma redeem_ledger ctx shares toUSDC (s s' : State W) :
  0 <= shares ->
  redeem ctx shares toUSDC s = Ok tt s' ->
  shares <= sharesOf (storage s) (caller ctx) /\
  sharesOf (storage s') (caller ctx)
  = sharesOf (storage s) (caller ctx) - shares /\
  totalShares (storage s') = U64.sub (totalShares (storage s)) shares /\
  (shares = sharesOf (storage s) (caller ctx) ->
   storage s' !! userSharesKey (caller ctx) = None).
Proof.
  intros Hshares Hr.
  apply redeem_inv in Hr as (cur & total & Hcur & Hle & Htotal & _ & ->).
  assert (Hrange := parseInt_range cur).
  assert (Hsub : U64.sub (U64.parseInt cur) shares = U64.parseInt cur - shares)
    by (apply sub_exact; unfold U64.in_range in Hrange; lia).
  unfold sharesOf, totalShares. rewrite Hcur, Htotal, lookup_insert_eq.
  rewrite !lookup_insert_ne by (unfold userSharesKey; cbn; discriminate).
  rewrite Hsub.
  split; [exact Hle |].
  split; [| split].
  - destruct (Z.gtb_spec (U64.parseInt cur - shares) 0).
    + rewrite lookup_insert_eq. apply parseInt_toString_u64.
      unfold U64.in_range in *. lia.
    + rewrite lookup_delete_eq. lia.
  - apply parseInt_toString_u64, wrap_range.
  - intros ->. rewrite Z.sub_diag. cbn. apply lookup_delete_eq.
Qed.

(** X12. A redemption that succeeds burns exactly the shares redeemed: from
    the caller's record, which is deleted when nothing is left on it, and from
    the total; the record of every other holder is left as it was. *)
Theorem redeem_burns_shares ctx shares toUSDC (s s' : State W) :
  0 <= shares ->
  redeem ctx shares toUSDC s = Ok tt s' ->
  shares <= sharesOf (storage s) (caller ctx) /\
  sharesOf (storage s') (caller ctx)
  = sharesOf (storage s) (caller ctx) - shares /\
  totalShares (storage s') = U64.sub (totalShares (storage s)) shares /\
  (shares = sharesOf (storage s) (caller ctx) ->
   storage s' !! userSharesKey (caller ctx) = None) /\
  (forall other,
     other <> caller ctx ->
     storage s' !! userSharesKey other = storage s !! userSharesKey other).
Proof.
  intros Hshares Hr.
  destruct (redeem_ledger ctx shares toUSDC s s' Hshares Hr)
    as (Hle & Hcur & Htot & Hdel).
  repeat (split; [assumption |]).
  intros other Hother.
  apply redeem_inv in Hr as (cur & total & _ & _ & _ & _ & ->).
  assert (Hkey : userSharesKey (caller ctx) <> userSharesKey other)
    by (intros E%userSharesKey_inj; congruence).
  rewrite lookup_insert_ne by (unfold userSharesKey; cbn; discriminate).
  destruct (U64.sub (U64.parseInt cur) shares >? 0).
  - apply lookup_insert_ne, Hkey.
  - apply lookup_delete_ne, Hkey.
Qed.

(** X13. Deposit and redemption compose: a holder who deposits [amount] and
    then redeems [amount] shares has the share count from before the deposit,
    and so has the total. *)
Theorem deposit_then_redeem_restores_shares ctxD ctxR amount toUSDC
    (s s1 s2 : State W) :
  caller ctxR = caller ctxD ->
  0 <= amount < U64.modulus ->
  deposit ctxD amount s = Ok tt s1 ->
  redeem ctxR amount toUSDC s1 = Ok tt s2 ->
  sharesOf (storage s2) (caller ctxD) = sharesOf (storage s) (caller ctxD) /\
  totalShares (storage s2) = totalShares (storage s).
Proof.
  intros Hsame Hamount Hd Hr.
  apply deposit_inv in Hd
    as (? & ? & ? & ? & total & _ & _ & _ & _ & _ & _ & _ & Htotal & Hs1).
  destruct (redeem_ledger ctxR amount toUSDC s1 s2 ltac:(lia) Hr)
    as (Hle & Hshares & Htot & _).
  rewrite Hsame in Hle, Hshares.
  assert (Hcur1 : sharesOf (storage s1) (caller ctxD)
                  = U64.add (sharesOf (storage s) (caller ctxD)) amount).
  { rewrite Hs1. unfold sharesOf at 1.
    rewrite lookup_delete_ne by (unfold userSharesKey; cbn; discriminate).
    rewrite lookup_insert_ne by (unfold userSharesKey; cbn; discriminate).
    rewrite lookup_insert_eq. apply parseInt_toString_u64, wrap_range. }
  assert (Htot1 : totalShares (storage s1)
                  = U64.add (totalShares (storage s)) amount).
  { rewrite Hs1. unfold totalShares at 1.
    rewrite lookup_delete_ne by discriminate.
    rewrite lookup_insert_eq. unfold totalShares. rewrite Htotal.
    apply parseInt_toString_u64, wrap_range. }
  assert (Hcur := sharesOf_range (storage s) (caller ctxD)).
  assert (Ht : U64.in_range (totalShares (storage s)))
    by (unfold totalShares; rewrite Htotal; apply parseInt_range).
  rewrite Hshares, Htot, Hcur1, Htot1. rewrite Hcur1 in Hle.
  unfold U64.add, U64.sub, U64.wrap, U64.in_range, U64.modulus in *.
  split.
  - destruct (Z_lt_ge_dec (sharesOf (storage s) (caller ctxD) + amount) (2 ^ 64)).
    + rewrite Z.mod_small by lia. lia.
    + exfalso.
      assert ((sharesOf (storage s) (caller ctxD) + amount) mod 2 ^ 64
              = sharesOf (storage s) (caller ctxD) + amount - 2 ^ 64).
      { symmetry. apply Z.mod_unique with 1; lia. }
      pose proof (Z.mod_pos_bound
                    (sharesOf (storage s) (caller ctxD) + amount) (2 ^ 64)
                    ltac:(lia)).
      lia.
  - rewrite Zminus_mod_idemp_l.
    replace (totalShares (storage s) + amount - amount)
      with (totalShares (storage s)) by lia.
    apply Z.mod_small. lia.
Qed.

End LedgerTheorems.

Lemma deposit_credits_caller_witness :
  exists s',
    deposit (at_time ALICE 5000) 1000000 ledgerGenesis = Ok tt s' /\
    sharesOf (storage s') (caller (at_time ALICE 5000))
    = U64.add (sharesOf (storage ledgerGenesis) (caller (at_time ALICE 5000)))
        1000000 /\
    totalShares (storage s')
    = U64.add (totalShares (storage ledgerGenesis)) 1000000 /\
    storage s' !! REENTRANCY_GUARD_KEY = None /\
    events s'
    = (events ledgerGenesis
       ++ [Deposit (caller (at_time ALICE 5000)) 1000000 1000000])%list /\
    calls s'
    = (calls ledgerGenesis
       ++ [CallTransferFrom USDC_ADDRESS (caller (at_time ALICE 5000))
             (callee (at_time ALICE 5000)) 1000000])%list /\
    world s'
    = world (step 1 ledgerGenesis (at_time ALICE 5000, CDeposit 1000000)).
Proof.
  apply (deposit_credits_caller (at_time ALICE 5000) 1000000 ledgerGenesis
           "100000" "0" 0%N
           (world (step 1 ledgerGenesis (at_time ALICE 5000, CDeposit 1000000)))
           1000000%N).
  - vm_compute. exact eq_refl.
  - vm_compute. exact eq_refl.
  - vm_compute. exact eq_refl.
  - vm_compute. exact eq_refl.
  - vm_compute. discriminate.
  - vm_compute. exact eq_refl.
  - vm_compute. exact eq_refl.
  - vm_compute. exact eq_refl.
  - vm_compute. split; [discriminate | exact eq_refl].
Defined.

Lemma min_deposit_enforced_witness :
  (exists msg,
     deposit (at_time ALICE 6000) 1000000
       (step 1 ledgerGenesis (at_time OWNER 5000, CSetMinDeposit 2000000))
     = Revert msg)
  /\ (storage ledgerGenesis !! PAUSED_KEY = None ->
      storage ledgerGenesis !! REENTRANCY_GUARD_KEY = None ->
      deposit (at_time ALICE 6000) 1000000
        (step 1 ledgerGenesis (at_time OWNER 5000, CSetMinDeposit 2000000))
      = Revert "Amount below minimum deposit").
Proof.
  apply (min_deposit_enforced 1 (at_time OWNER 5000) (at_time ALICE 6000)
           ledgerGenesis 2000000 1000000).
  - vm_compute. exact eq_refl.
  - unfold U64.in_range, U64.modulus. lia.
  - lia.
Defined.

(** Bob, who has no record, and Alice, who holds 1,000,000 shares and asks
    for one more. *)
Lemma redeem_more_than_held_reverts_witness :
  redeem (at_time BOB 7000) 1 false epochFunded = Revert "No shares to redeem"
  /\ sharesOf (storage epochFunded) ALICE = 1000000
  /\ redeem (at_time ALICE 7000) 1000001 false epochFunded
     = Revert "Insufficient shares".
Proof.
  split; [| split; [vm_compute; exact eq_refl |]].
  - etransitivity.
    + apply (redeem_more_than_held_reverts (at_time BOB 7000) 1 false
               epochFunded).
      vm_compute. exact eq_refl.
    + vm_compute. exact eq_refl.
  - etransitivity.
    + apply (redeem_more_than_held_reverts (at_time ALICE 7000) 1000001 false
               epochFunded).
      vm_compute. exact eq_refl.
    + vm_compute. exact eq_refl.
Defined.

Lemma redeem_burns_shares_witness :
  400000 <= sharesOf (storage epochFunded) (caller (at_time ALICE 7000)) /\
  sharesOf (storage (after (redeem (at_time ALICE 7000) 400000 false) epochFunded))
    (caller (at_time ALICE 7000))
  = sharesOf (storage epochFunded) (caller (at_time ALICE 7000)) - 400000 /\
  totalShares
    (storage (after (redeem (at_time ALICE 7000) 400000 false) epochFunded))
  = U64.sub (totalShares (storage epochFunded)) 400000 /\
  (400000 = sharesOf (storage epochFunded) (caller (at_time ALICE 7000)) ->
   storage (after (redeem (at_time ALICE 7000) 400000 false) epochFunded)
     !! userSharesKey (caller (at_time ALICE 7000)) = None) /\
  (forall other,
     other <> caller (at_time ALICE 7000) ->
     storage (after (redeem (at_time ALICE 7000) 400000 false) epochFunded)
       !! userSharesKey other
     = storage epochFunded !! userSharesKey other).
Proof.
  apply (redeem_burns_shares (at_time ALICE 7000) 400000 false epochFunded
           (after (redeem (at_time ALICE 7000) 400000 false) epochFunded)).
  - lia.
  - apply succeeds_after. vm_compute. exact eq_refl.
Defined.

Lemma deposit_then_redeem_restores_shares_witness :
  sharesOf
    (storage (after (redeem (at_time ALICE 7000) 1000000 false)
                (after (deposit (at_time ALICE 5000) 1000000) ledgerGenesis)))
    (caller (at_time ALICE 5000))
  = sharesOf (storage ledgerGenesis) (caller (at_time ALICE 5000)) /\
  totalShares
    (storage (after (redeem (at_time ALICE 7000) 1000000 false)
                (after (deposit (at_time ALICE 5000) 1000000) ledgerGenesis)))
  = totalShares (storage ledgerGenesis).
Proof.
  apply (deposit_then_redeem_restores_shares (at_time ALICE 5000)
           (at_time ALICE 7000) 1000000 false ledgerGenesis
           (after (deposit (at_time ALICE 5000) 1000000) ledgerGenesis)
           (after (redeem (at_time ALICE 7000) 1000000 false)
              (after (deposit (at_time ALICE 5000) 1000000) ledgerGenesis))).
  - reflexivity.
  - unfold U64.modulus. lia.
  - apply succeeds_after. vm_compute. exact eq_refl.
  - apply succeeds_after. vm_compute. exact eq_refl.
Defined.

(** ** The external calls of every entry point *)

Section Calls.

Context {W : Type} `{Host W}.

Variable P : ExtCall -> Prop.

Lemma callsOnly_quiet {A} (m : M W A) :
  (forall s a s', m s = Ok a s' -> calls s' = calls s) -> CallsOnly P m.
Proof.
  intros Hq s a s' Hm. exists []. rewrite app_nil_r.
  split; [exact (Hq _ _ _ Hm) | apply Forall_nil_2].
Qed.

Lemma callsOnly_bind {A B} (m : M W A) (f : A -> M W B) :
  CallsOnly P m -> (forall a, CallsOnly P (f a)) -> CallsOnly P (m ≫= f).
Proof.
  intros Hm Hf s b s' (a & s1 & H1 & H2)%bind_Ok.
  destruct (Hm _ _ _ H1) as (new1 & E1 & F1).
  destruct (Hf _ _ _ _ H2) as (new2 & E2 & F2).
  exists (new1 ++ new2)%list. split.
  - rewrite E2, E1, app_assoc. reflexivity.
  - apply Forall_app. split; assumption.
Qed.

Lemma callsOnly_ret {A} (a : A) : CallsOnly P (mret a : M W A).
Proof. apply callsOnly_quiet. intros s b s' [_ ->]%ret_Ok. reflexivity. Qed.

Lemma callsOnly_revert {A} msg : CallsOnly P (revert msg : M W A).
Proof. intros s b s' Hr. discriminate Hr. Qed.

Lemma callsOnly_assert cond msg : CallsOnly P (assert cond msg : M W unit).
Proof. apply callsOnly_quiet. intros s b s' [_ ->]%assert_Ok. reflexivity. Qed.

Lemma callsOnly_event e : CallsOnly P (generateEvent e : M W unit).
Proof. apply callsOnly_quiet. intros s b s' ->%event_Ok. reflexivity. Qed.

Lemma callsOnly_logCall c : P c -> CallsOnly P (logCall c : M W unit).
Proof.
  intros Hc s b s' ->%logCall_Ok. exists [c]. split; [reflexivity |].
  apply Forall_cons_2; [exact Hc | apply Forall_nil_2].
Qed.

Lemma callsOnly_getWorld : CallsOnly P (getWorld : M W W).
Proof. apply callsOnly_quiet. intros s b s' [_ ->]%getWorld_Ok. reflexivity. Qed.

Lemma callsOnly_external {A} (r : option (W * A)) msg :
  CallsOnly P (external r msg).
Proof.
  apply callsOnly_quiet. intros s b s' (w & _ & ->)%external_Ok. reflexivity.
Qed.

Lemma callsOnly_external_ (r : option W) msg : CallsOnly P (external_ r msg).
Proof.
  apply callsOnly_quiet. intros s b s' (w & _ & ->)%external__Ok. reflexivity.
Qed.

Lemma callsOnly_has k : CallsOnly P (Storage.has k : M W bool).
Proof. apply callsOnly_quiet. intros s b s' [_ ->]%has_Ok. reflexivity. Qed.

Lemma callsOnly_get k : CallsOnly P (Storage.get k : M W string).
Proof. apply callsOnly_quiet. intros s b s' [_ ->]%get_Ok. reflexivity. Qed.

Lemma callsOnly_set k value : CallsOnly P (Storage.set k value : M W unit).
Proof. apply callsOnly_quiet. intros s b s' ->%set_Ok. reflexivity. Qed.

Lemma callsOnly_del k : CallsOnly P (Storage.del k : M W unit).
Proof. apply callsOnly_quiet. intros s b s' [_ ->]%del_Ok. reflexivity. Qed.

Lemma callsOnly_getOr k fallback : CallsOnly P (getOr k fallback : M W string).
Proof. apply callsOnly_quiet. intros s b s' [_ ->]%getOr_Ok. reflexivity. Qed.

Lemma callsOnly_part parts i : CallsOnly P (part parts i : M W string).
Proof. apply callsOnly_quiet. intros s b s' [_ ->]%part_Ok. reflexivity. Qed.

Lemma callsOnly_getTokenBalance ctx token :
  CallsOnly P (getTokenBalance ctx token : M W Z).
Proof.
  apply callsOnly_quiet.
  intros s b s' (? & _ & _ & ->)%getTokenBalance_Ok. reflexivity.
Qed.

Lemma callsOnly_getTokenBalanceString ctx token :
  CallsOnly P (getTokenBalanceString ctx token : M W string).
Proof.
  apply callsOnly_quiet.
  intros s b s' (? & _ & _ & ->)%getTokenBalanceString_Ok. reflexivity.
Qed.

End Calls.

Lemma callsOnly_weaken {W A} (P Q : ExtCall -> Prop) (m : M W A) :
  (forall c, P c -> Q c) -> CallsOnly P m -> CallsOnly Q m.
Proof.
  intros Hpq Hm s a s' Hr. destruct (Hm _ _ _ Hr) as (new & E & F).
  exists new. split; [exact E |]. eapply Forall_impl; [exact F | exact Hpq].
Qed.

Create HintDb calls.

#[export] Hint Resolve callsOnly_ret callsOnly_revert callsOnly_assert
  callsOnly_event callsOnly_getWorld callsOnly_external callsOnly_external_
  callsOnly_has callsOnly_get callsOnly_set callsOnly_del callsOnly_getOr
  callsOnly_part callsOnly_getTokenBalance callsOnly_getTokenBalanceString
  : calls.

(** Walk through the body of a function of the contract; a logged call [c]
    asks for [P c], proved by [tac]. *)
Ltac calls_tac tac :=
  repeat (intros; cbn beta zeta;
          lazymatch goal with
          | |- CallsOnly _ (@mbind _ _ _ _ _ _) => apply callsOnly_bind
          | |- CallsOnly _ (if ?c then _ else _) => destruct c
          | |- CallsOnly _ (match ?x with _ => _ end) => destruct x
          | |- CallsOnly _ (logCall _) => apply callsOnly_logCall; tac
          | |- CallsOnly _ _ => solve [eauto with calls]
          end).

(** The shape of a call, one conjunct at a time. *)
Ltac shape :=
  cbn [expectedCall trades];
  repeat split; first [reflexivity | exact I | eauto].

Section CallsOfRebalance.

Context {W : Type} `{Host W}.

Variable P : ExtCall -> Prop.

Lemma rebalanceCalls_self ctx coins :
  RebalanceCalls ctx P -> RebalanceCalls (selfContext ctx coins) P.
Proof. intros Hp. exact Hp. Qed.

Lemma callsOnly_approveToken ctx token amount :
  RebalanceCalls ctx P -> CallsOnly P (approveToken ctx token amount : M W unit).
Proof.
  intros (Hallow & _ & _). unfold approveToken. calls_tac ltac:(apply Hallow).
Qed.

Lemma callsOnly_routerSwap ctx amountIn steps legacy path :
  RebalanceCalls ctx P ->
  CallsOnly P (routerSwap ctx amountIn 1 steps legacy path
                 (U64.add (timestamp ctx) SWAP_DEADLINE_BUFFER)
                 STORAGE_FEE_PER_SWAP : M W N).
Proof.
  intros (_ & Hswap & _). unfold routerSwap. calls_tac ltac:(apply Hswap).
Qed.

Lemma callsOnly_executeTestSwap ctx tokenIn tokenOut amountIn :
  RebalanceCalls ctx P ->
  CallsOnly P (executeTestSwap ctx tokenIn tokenOut amountIn 1 : M W N).
Proof.
  intros Hp.
  pose proof (callsOnly_approveToken ctx tokenIn amountIn Hp).
  pose proof (fun steps legacy path =>
                callsOnly_routerSwap ctx amountIn steps legacy path Hp).
  unfold executeTestSwap. calls_tac idtac.
Qed.

Lemma callsOnly_executeMultiHopSwap ctx amountIn :
  RebalanceCalls ctx P ->
  CallsOnly P (executeMultiHopSwap ctx amountIn 1 : M W N).
Proof.
  intros Hp.
  pose proof (callsOnly_approveToken ctx USDC_ADDRESS amountIn Hp).
  pose proof (fun steps legacy path =>
                callsOnly_routerSwap ctx amountIn steps legacy path Hp).
  unfold executeMultiHopSwap. calls_tac idtac.
Qed.

Lemma callsOnly_wmasLeg ctx a b c d e :
  RebalanceCalls ctx P -> CallsOnly P (wmasLeg ctx a b c d e : M W Z).
Proof.
  intros Hp.
  pose proof (fun tokenIn tokenOut amountIn =>
                callsOnly_executeTestSwap ctx tokenIn tokenOut amountIn Hp).
  unfold wmasLeg. calls_tac idtac.
Qed.

Lemma callsOnly_wethLeg ctx a b c d e :
  RebalanceCalls ctx P -> CallsOnly P (wethLeg ctx a b c d e : M W Z).
Proof.
  intros Hp.
  pose proof (fun amountIn => callsOnly_executeMultiHopSwap ctx amountIn Hp).
  unfold wethLeg. calls_tac idtac.
Qed.

Section CallsNested.

Variable self : CallContext -> M W unit.
Hypothesis calls_self :
  forall ctx, RebalanceCalls ctx P -> CallsOnly P (self ctx).

Lemma callsOnly_scheduleNextRebalance ctx :
  RebalanceCalls ctx P -> CallsOnly P (scheduleNextRebalance self ctx).
Proof.
  intros Hp.
  pose proof (fun coins => calls_self (selfContext ctx coins)
                             (rebalanceCalls_self ctx coins Hp)).
  destruct Hp as (_ & _ & Hself).
  unfold scheduleNextRebalance. calls_tac ltac:(exact Hself).
Qed.

Lemma callsOnly_executeRebalanceInternal ctx :
  RebalanceCalls ctx P -> CallsOnly P (executeRebalanceInternal self ctx).
Proof.
  intros Hp.
  pose proof (callsOnly_scheduleNextRebalance ctx Hp).
  pose proof (fun a b c d e => callsOnly_wmasLeg ctx a b c d e Hp).
  pose proof (fun a b c d e => callsOnly_wethLeg ctx a b c d e Hp).
  unfold executeRebalanceInternal. calls_tac idtac.
Qed.

Lemma callsOnly_rebalance_body ctx :
  RebalanceCalls ctx P -> CallsOnly P (rebalance_body self ctx).
Proof.
  intros Hp.
  pose proof (callsOnly_scheduleNextRebalance ctx Hp).
  pose proof (callsOnly_executeRebalanceInternal ctx Hp).
  unfold rebalance_body. calls_tac idtac.
Qed.

End CallsNested.

Lemma callsOnly_rebalance depth :
  forall ctx, RebalanceCalls ctx P -> CallsOnly P (rebalance depth ctx).
Proof.
  induction depth as [| depth IH]; intros ctx Hp; cbn [rebalance].
  - apply callsOnly_revert.
  - apply callsOnly_rebalance_body; [exact IH | exact Hp].
Qed.

End CallsOfRebalance.

Section CallsOfEntryPoints.

Context {W : Type} `{Host W}.

Lemma rebalanceCalls_expected ctx c :
  trades c -> c = CTriggerRebalance \/ c = CRebalance ->
  RebalanceCalls ctx (expectedCall ctx c).
Proof. intros Ht Hc. repeat split; first [exact Ht | exact Hc]. Qed.

Lemma callsOnly_triggerRebalance depth ctx :
  CallsOnly (expectedCall ctx CTriggerRebalance)
    (triggerRebalance depth ctx : M W unit).
Proof.
  assert (Hp : RebalanceCalls ctx (expectedCall ctx CTriggerRebalance))
    by (apply rebalanceCalls_expected; [exact I | left; reflexivity]).
  pose proof (callsOnly_executeRebalanceInternal _ (rebalance depth)
                (callsOnly_rebalance _ depth) ctx Hp).
  unfold triggerRebalance. calls_tac shape.
Qed.

Lemma callsOnly_redeem ctx shares toUSDC :
  CallsOnly (expectedCall ctx (CRedeem shares toUSDC))
    (redeem ctx shares toUSDC : M W unit).
Proof.
  unfold redeem, approveToken, routerSwap, transferTokenToUser.
  calls_tac shape.
Qed.

Lemma callsOnly_emergencyWithdraw ctx token amount :
  CallsOnly (expectedCall ctx (CEmergencyWithdraw token amount))
    (emergencyWithdraw ctx token amount : M W unit).
Proof.
  intros s a s' Hr. unfold emergencyWithdraw in Hr. minv Hr. minv_helpers.
  eexists. split; [reflexivity |].
  apply String.eqb_eq in Hstep0. subst.
  destruct (amount =? 0); [apply Forall_nil_2 |].
  apply Forall_cons_2; [| apply Forall_nil_2]. shape.
Qed.

(** Every call an entry point makes to the world has the expected shape. *)
Lemma dispatch_calls depth ctx c :
  CallsOnly (expectedCall ctx c) (dispatch depth ctx c : M W unit).
Proof.
  destruct c; cbn [dispatch].
  - unfold constructor. calls_tac shape.
  - unfold startAutonomousRebalancing. calls_tac shape.
  - apply callsOnly_triggerRebalance.
  - unfold validateBinSteps, queryAvailableBinSteps. calls_tac shape.
  - unfold setMinDeposit. calls_tac shape.
  - unfold deposit. calls_tac shape.
  - apply callsOnly_redeem.
  - unfold setGuard. calls_tac shape.
  - unfold topUpGasBank. calls_tac shape.
  - apply callsOnly_rebalance, rebalanceCalls_expected;
      [exact I | right; reflexivity].
  - unfold pause. calls_tac shape.
  - unfold unpause. calls_tac shape.
  - unfold updateTargets. calls_tac shape.
  - unfold updateMaxDrift. calls_tac shape.
  - unfold updateRebalanceEpoch. calls_tac shape.
  - apply callsOnly_emergencyWithdraw.
  - unfold transferOwnership. calls_tac shape.
Qed.

Lemma step_calls depth (s : State W) ctx c :
  exists new,
    calls (step depth s (ctx, c)) = (calls s ++ new)%list /\
    Forall (expectedCall ctx c) new.
Proof.
  unfold step. cbn [fst snd].
  destruct (dispatch depth ctx c s) as [a s' |] eqn:Hd.
  - exact (dispatch_calls depth ctx c s a s' Hd).
  - exists []. rewrite app_nil_r. split; [reflexivity | apply Forall_nil_2].
Qed.

End CallsOfEntryPoints.

Section CallTheorems.

Context {W : Type} `{Host W}.

(** X14. Whatever entry point is called, every approval it grants is to the
    Dusa router and every swap it requests pays the vault itself, with a
    minimum output of one unit, the deadline ten minutes after the call and
    the storage fee attached. *)
Theorem router_calls_shape depth (s : State W) ctx c :
  exists new,
    calls (step depth s (ctx, c)) = (calls s ++ new)%list /\
    Forall (routerCallOk ctx) new.
Proof.
  destruct (step_calls depth s ctx c) as (new & E & F).
  exists new. split; [exact E |].
  eapply Forall_impl; [exact F |].
  intros [] Hc; cbn [expectedCall routerCallOk] in *; try exact I.
  - apply Hc.
  - destruct Hc as (? & ? & ? & ? & _). repeat split; assumption.
Qed.

(** X15. Tokens leave the vault by [transfer] only towards the caller of a
    redemption or of an emergency withdrawal, and enter it by [transferFrom]
    only from the caller of a deposit, in the amount deposited. No other entry
    point moves tokens this way. *)
Theorem token_transfers_shape depth (s : State W) ctx c :
  exists new,
    calls (step depth s (ctx, c)) = (calls s ++ new)%list /\
    Forall (tokenFlowOk ctx c) new.
Proof.
  destruct (step_calls depth s ctx c) as (new & E & F).
  exists new. split; [exact E |].
  eapply Forall_impl; [exact F |].
  intros [] Hc; cbn [expectedCall tokenFlowOk] in *; try exact I.
  - destruct Hc as (-> & -> & -> & ->). repeat split.
  - destruct Hc as (-> & [(shares & toUSDC & ->) | ->]); repeat split.
Qed.

(** X16. [rebalance] reaches the world only when it is due: a call that adds
    anything to the call log found shares in the vault, the guard key set, at
    least 0.1 MAS in the gas bank, and either no earlier rebalance on record
    or a timestamp at or after the 64-bit sum of the last rebalance and the
    epoch in milliseconds. The sum and the product in it wrap; where they do
    not, the epoch has elapsed since the last rebalance. *)
Theorem rebalance_acts_only_when_due depth ctx (s s' : State W) :
  rebalance depth ctx s = Ok tt s' ->
  calls s' <> calls s ->
  totalShares (storage s) <> 0 /\
  hasKey GUARD_ARMED_KEY (storage s) /\
  100000000 <= balance (world s) /\
  exists epochText,
    storage s !! REBALANCE_EPOCH_SECONDS_KEY = Some epochText /\
    (lastRebalanceOf (storage s) = 0 \/
     U64.add (lastRebalanceOf (storage s))
       (U64.mul (U64.parseInt epochText) 1000) <= timestamp ctx) /\
    (lastRebalanceOf (storage s) + U64.parseInt epochText * 1000
     < U64.modulus ->
     lastRebalanceOf (storage s) = 0 \/
     lastRebalanceOf (storage s) + U64.parseInt epochText * 1000
     <= timestamp ctx).
Proof.
  intros Hr Hcalls. destruct depth as [| depth]; [discriminate Hr |].
  cbn [rebalance] in Hr. unfold rebalance_body in Hr. minv Hr.
  all: try (exfalso; apply Hcalls; reflexivity).
  all: unfold totalShares, hasKey, lastRebalanceOf.
  all: match goal with
       | Ht : storage _ !! TOTAL_SHARES_KEY = Some _ |- _ => rewrite Ht
       end.
  all: split; [lia |]. all: split; [eauto |]. all: split; [lia |].
  all: match goal with
       | He : storage _ !! REBALANCE_EPOCH_SECONDS_KEY = Some ?e |- _ =>
           exists e; split; [exact He |];
           pose proof (parseInt_range e) as Hre
       end.
  all: match goal with
       | Hgate : (U64.parseInt ?last >? 0) && _ = false |- _ =>
           pose proof (parseInt_range last) as Hr0;
           apply andb_false_iff in Hgate as [Hgate | Hgate]
       end.
  all: unfold U64.in_range in *.
  all: split; [first [left; lia | right; lia] |].
  all: intros Hfit.
  all: first
         [ left; lia
         | right;
           match goal with
           | Hlate : (_ <? U64.add _ _) = false |- _ =>
               unfold U64.add, U64.mul in Hlate;
               rewrite (wrap_small (U64.parseInt _ * 1000)) in Hlate
                 by (unfold U64.in_range; lia);
               rewrite wrap_small in Hlate by (unfold U64.in_range; lia)
           end;
           lia ].
Qed.

End CallTheorems.

Lemma rebalance_acts_only_when_due_witness :
  totalShares (storage (guardedFunded 5000000000)) <> 0 /\
  hasKey GUARD_ARMED_KEY (storage (guardedFunded 5000000000)) /\
  100000000 <= balance (world (guardedFunded 5000000000)) /\
  exists epochText,
    storage (guardedFunded 5000000000) !! REBALANCE_EPOCH_SECONDS_KEY
    = Some epochText /\
    (lastRebalanceOf (storage (guardedFunded 5000000000)) = 0 \/
     U64.add (lastRebalanceOf (storage (guardedFunded 5000000000)))
       (U64.mul (U64.parseInt epochText) 1000)
     <= timestamp (at_time OWNER 2000000)) /\
    (lastRebalanceOf (storage (guardedFunded 5000000000))
     + U64.parseInt epochText * 1000 < U64.modulus ->
     lastRebalanceOf (storage (guardedFunded 5000000000)) = 0 \/
     lastRebalanceOf (storage (guardedFunded 5000000000))
     + U64.parseInt epochText * 1000
     <= timestamp (at_time OWNER 2000000)).
Proof.
  apply (rebalance_acts_only_when_due 2 (at_time OWNER 2000000)
           (guardedFunded 5000000000)
           (after (rebalance 2 (at_time OWNER 2000000))
              (guardedFunded 5000000000))).
  - apply succeeds_after. vm_compute. exact eq_refl.
  - vm_compute. discriminate.
Defined.

Lemma rebalance_too_soon_witness :
  rebalance 1 (at_time OWNER 9000) (guardedFunded 5000000000)
  = Ok tt
      (mkState (storage (guardedFunded 5000000000))
         (events (guardedFunded 5000000000) ++
          [RebalanceSkipped "Too soon"
             [U64.sub
                (U64.add (U64.parseInt "1000")
                   (U64.mul (U64.parseInt "1800") 1000))
                (timestamp (at_time OWNER 9000))]])
         (calls (guardedFunded 5000000000))
         (world (guardedFunded 5000000000))).
Proof.
  apply (rebalance_too_soon 0 (at_time OWNER 9000) (guardedFunded 5000000000)
           OWNER "1000000" "1000" "1800").
  - vm_compute. exact eq_refl.
  - left. reflexivity.
  - vm_compute. exact eq_refl.
  - vm_compute. discriminate.
  - exists "true". vm_compute. exact eq_refl.
  - vm_compute. discriminate.
  - vm_compute. exact eq_refl.
  - vm_compute. exact eq_refl.
  - vm_compute. exact eq_refl.
  - vm_compute. exact eq_refl.
Defined.

(** ** The configuration: what is written is what is read *)

Section Texts.

Lemma append_cons c s1 s2 : String c s1 +:+ s2 = String c (s1 +:+ s2).
Proof. reflexivity. Qed.

Lemma append_nil_r s : s +:+ "" = s.
Proof.
  induction s as [| c s IH]; [reflexivity |].
  change (String c s +:+ "") with (String c (s +:+ "")). rewrite IH. reflexivity.
Qed.

Lemma append_assoc s1 s2 s3 : (s1 +:+ s2) +:+ s3 = s1 +:+ (s2 +:+ s3).
Proof.
  induction s1 as [| c s1 IH]; [reflexivity |].
  change (String c ((s1 +:+ s2) +:+ s3) = String c (s1 +:+ (s2 +:+ s3))).
  rewrite IH. reflexivity.
Qed.

Lemma split_commas_plain d : forall current,
  noComma d -> split_commas d current = [current +:+ d].
Proof.
  induction d as [| c d IH]; intros current Hd; cbn [split_commas].
  - rewrite append_nil_r. reflexivity.
  - destruct Hd as [Hc Hd].
    destruct (Ascii.eqb_spec c ","%char) as [-> | _]; [contradiction |].
    rewrite IH by exact Hd. rewrite append_assoc. reflexivity.
Qed.

Lemma split_commas_first d rest : forall current,
  noComma d ->
  split_commas (d +:+ String ","%char rest) current
  = (current +:+ d) :: split_commas rest "".
Proof.
  induction d as [| c d IH]; intros current Hd.
  - change ("" +:+ String ","%char rest) with (String ","%char rest).
    cbn [split_commas]. rewrite append_nil_r. reflexivity.
  - destruct Hd as [Hc Hd]. rewrite append_cons. cbn [split_commas].
    destruct (Ascii.eqb_spec c ","%char) as [-> | _]; [contradiction |].
    rewrite IH by exact Hd. rewrite append_assoc. reflexivity.
Qed.

Lemma digit_char_noComma n : U64.digit_char (n mod 10) <> ","%char.
Proof.
  assert (Hm : 0 <= n mod 10 < 10) by (apply Z.mod_pos_bound; lia).
  assert (Hc : n mod 10 = 0 \/ n mod 10 = 1 \/ n mod 10 = 2 \/ n mod 10 = 3
               \/ n mod 10 = 4 \/ n mod 10 = 5 \/ n mod 10 = 6
               \/ n mod 10 = 7 \/ n mod 10 = 8 \/ n mod 10 = 9) by lia.
  repeat (destruct Hc as [-> | Hc]; [discriminate |]). rewrite Hc. discriminate.
Qed.

Lemma digits_go_noComma fuel : forall n acc,
  noComma acc -> noComma (U64.digits_go fuel n acc).
Proof.
  induction fuel as [| fuel IH]; intros n acc Hacc; cbn [U64.digits_go];
    [exact Hacc |].
  assert (noComma (String (U64.digit_char (n mod 10)) acc))
    by (split; [apply digit_char_noComma | exact Hacc]).
  destruct (n / 10 =? 0); [assumption | apply IH; assumption].
Qed.

Lemma toString_noComma n : noComma (U64.toString n).
Proof. apply digits_go_noComma. exact I. Qed.

(** Splitting the targets text gives back the three numbers written. *)
Lemma split_joinTargets target0 target1 target2 :
  split_commas (joinTargets target0 target1 target2) ""
  = [U64.toString target0; U64.toString target1; U64.toString target2].
Proof.
  unfold joinTargets.
  change ("," +:+ ?x) with (String ","%char x).
  rewrite split_commas_first by apply toString_noComma.
  change ("," +:+ ?x) with (String ","%char x).
  rewrite split_commas_first by apply toString_noComma.
  rewrite split_commas_plain by apply toString_noComma.
  reflexivity.
Qed.

End Texts.

Section ConfigFacts.

Context {W : Type} `{Host W}.

Lemma getConfig_inv (s s' : State W) cfg :
  getConfig s = Ok cfg s' -> configOf (storage s) = Some cfg /\ s' = s.
Proof.
  intros Hg. unfold getConfig in Hg. minv Hg. split; [| reflexivity].
  unfold configOf.
  repeat first
    [ progress cbn [mbind option_bind]
    | match goal with
      | Hl : ?l = Some _ |- context [?l] => rewrite Hl
      end ].
  reflexivity.
Qed.

Lemma getConfig_fwd (s : State W) cfg :
  configOf (storage s) = Some cfg -> getConfig s = Ok cfg s.
Proof.
  unfold configOf, getConfig. intros Hc.
  destruct (storage s !! NAME_KEY) as [name |] eqn:E1; [| discriminate Hc].
  destruct (storage s !! SYMBOL_KEY) as [symbol |] eqn:E2; [| discriminate Hc].
  destruct (storage s !! OWNER_KEY) as [owner |] eqn:E3; [| discriminate Hc].
  destruct (storage s !! TARGETS_BPS_KEY) as [targets |] eqn:E4;
    [| discriminate Hc].
  cbn [mbind option_bind] in Hc.
  destruct (split_commas targets "" !! 0%nat) as [p0 |] eqn:E5;
    [| discriminate Hc].
  destruct (split_commas targets "" !! 1%nat) as [p1 |] eqn:E6;
    [| discriminate Hc].
  destruct (split_commas targets "" !! 2%nat) as [p2 |] eqn:E7;
    [| discriminate Hc].
  cbn [mbind option_bind] in Hc.
  destruct (storage s !! MAX_DRIFT_BPS_KEY) as [drift |] eqn:E8;
    [| discriminate Hc].
  destruct (storage s !! REBALANCE_EPOCH_SECONDS_KEY) as [epoch |] eqn:E9;
    [| discriminate Hc].
  destruct (storage s !! MIN_DEPOSIT_USDC_KEY) as [minDep |] eqn:E10;
    [| discriminate Hc].
  destruct (storage s !! MIN_SLICE_VALUE_KEY) as [minSlice |] eqn:E11;
    [| discriminate Hc].
  cbn [mbind option_bind] in Hc. injection Hc as <-.
  rewrite (bind_step _ _ s name s) by (apply get_fwd, E1).
  rewrite (bind_step _ _ s symbol s) by (apply get_fwd, E2).
  rewrite (bind_step _ _ s owner s) by (apply get_fwd, E3).
  rewrite (bind_step _ _ s targets s) by (apply get_fwd, E4).
  cbn zeta.
  rewrite (bind_step _ _ s p0 s) by (unfold part; rewrite E5; reflexivity).
  rewrite (bind_step _ _ s p1 s) by (unfold part; rewrite E6; reflexivity).
  rewrite (bind_step _ _ s p2 s) by (unfold part; rewrite E7; reflexivity).
  rewrite (bind_step _ _ s drift s) by (apply get_fwd, E8).
  rewrite (bind_step _ _ s epoch s) by (apply get_fwd, E9).
  rewrite (bind_step _ _ s minDep s) by (apply get_fwd, E10).
  rewrite (bind_step _ _ s minSlice s) by (apply get_fwd, E11).
  reflexivity.
Qed.

End ConfigFacts.

(** Look a key up through the writes that came before. *)
Ltac key_differs :=
  solve [discriminate | unfold userSharesKey; cbn; discriminate].

Ltac lookups :=
  repeat first
    [ rewrite lookup_insert_eq
    | rewrite lookup_insert_ne by key_differs
    | rewrite lookup_delete_ne by key_differs ].

Section Setters.

Context {W : Type} `{Host W}.

Lemma owner_passes {A} ctx msg (k : string -> M W A) (s : State W) :
  storage s !! OWNER_KEY = Some (caller ctx) ->
  (owner ← Storage.get OWNER_KEY;
   assert (String.eqb (caller ctx) owner) msg;; k owner) s
  = k (caller ctx) s.
Proof.
  intros Howner.
  rewrite (bind_step _ _ s (caller ctx) s) by (apply get_fwd, Howner).
  rewrite (bind_step _ _ s tt s) by (rewrite String.eqb_refl; reflexivity).
  reflexivity.
Qed.

Lemma updateMaxDrift_fwd ctx n (s : State W) :
  storage s !! OWNER_KEY = Some (caller ctx) ->
  0 < n <= 2000 ->
  updateMaxDrift ctx n s
  = Ok tt (mkState (<[MAX_DRIFT_BPS_KEY := U64.toString n]> (storage s))
             (events s ++ [MaxDriftUpdated n]) (calls s) (world s)).
Proof.
  intros Howner Hn. unfold updateMaxDrift.
  rewrite (owner_passes ctx _ (fun _ => _) s Howner).
  rewrite (bind_step _ _ s tt s); [reflexivity |].
  destruct (Z.gtb_spec n 0); [| lia].
  destruct (Z.leb_spec n 2000); [reflexivity | lia].
Qed.

Lemma updateMaxDrift_rejects ctx n (s : State W) :
  ~ 0 < n <= 2000 ->
  exists msg, updateMaxDrift ctx n s = Revert msg.
Proof.
  intros Hn. unfold updateMaxDrift.
  destruct (Storage.get OWNER_KEY s) as [owner s1 | msg] eqn:Hg;
    [| exists msg; apply bind_Revert, Hg].
  apply get_Ok in Hg as Hg'. destruct Hg' as [_ ->].
  rewrite (bind_step _ _ s owner s) by exact Hg.
  destruct (String.eqb (caller ctx) owner).
  - rewrite (bind_step _ _ s tt s) by reflexivity.
    eexists. apply bind_Revert.
    destruct (Z.gtb_spec n 0); [| reflexivity].
    destruct (Z.leb_spec n 2000); [lia | reflexivity].
  - eexists. apply bind_Revert. reflexivity.
Qed.

Lemma updateRebalanceEpoch_fwd ctx n (s : State W) :
  storage s !! OWNER_KEY = Some (caller ctx) ->
  300 <= n ->
  updateRebalanceEpoch ctx n s
  = Ok tt (mkState (<[REBALANCE_EPOCH_SECONDS_KEY := U64.toString n]> (storage s))
             (events s ++ [RebalanceEpochUpdated n]) (calls s) (world s)).
Proof.
  intros Howner Hn. unfold updateRebalanceEpoch.
  rewrite (owner_passes ctx _ (fun _ => _) s Howner).
  rewrite (bind_step _ _ s tt s); [reflexivity |].
  destruct (Z.geb_spec n 300); [reflexivity | lia].
Qed.

Lemma updateRebalanceEpoch_rejects ctx n (s : State W) :
  n < 300 ->
  exists msg, updateRebalanceEpoch ctx n s = Revert msg.
Proof.
  intros Hn. unfold updateRebalanceEpoch.
  destruct (Storage.get OWNER_KEY s) as [owner s1 | msg] eqn:Hg;
    [| exists msg; apply bind_Revert, Hg].
  apply get_Ok in Hg as Hg'. destruct Hg' as [_ ->].
  rewrite (bind_step _ _ s owner s) by exact Hg.
  destruct (String.eqb (caller ctx) owner).
  - rewrite (bind_step _ _ s tt s) by reflexivity.
    eexists. apply bind_Revert.
    destruct (Z.geb_spec n 300); [lia | reflexivity].
  - eexists. apply bind_Revert. reflexivity.
Qed.

Lemma updateTargets_fwd ctx target0 target1 target2 (s : State W) :
  storage s !! OWNER_KEY = Some (caller ctx) ->
  U64.add (U64.add target0 target1) target2 = 10000 ->
  updateTargets ctx target0 target1 target2 s
  = Ok tt (mkState (<[TARGETS_BPS_KEY := joinTargets target0 target1 target2]>
                      (storage s))
             (events s ++ [TargetsUpdated target0 target1 target2])
             (calls s) (world s)).
Proof.
  intros Howner Hsum. unfold updateTargets.
  rewrite (owner_passes ctx _ (fun _ => _) s Howner).
  rewrite (bind_step _ _ s tt s); [reflexivity |].
  rewrite Hsum. reflexivity.
Qed.

(** What one write does to the configuration read back. *)
Lemma configOf_minDeposit (st : gmap string string) cfg n :
  configOf st = Some cfg -> U64.in_range n ->
  configOf (<[MIN_DEPOSIT_USDC_KEY := U64.toString n]> st)
  = Some (withMinDeposit n cfg).
Proof.
  unfold configOf. intros Hc Hn. lookups.
  destruct (st !! NAME_KEY); [| discriminate Hc].
  destruct (st !! SYMBOL_KEY); [| discriminate Hc].
  destruct (st !! OWNER_KEY); [| discriminate Hc].
  destruct (st !! TARGETS_BPS_KEY) as [t |]; [| discriminate Hc].
  cbn [mbind option_bind] in *.
  destruct (split_commas t "" !! 0%nat); [| discriminate Hc].
  destruct (split_commas t "" !! 1%nat); [| discriminate Hc].
  destruct (split_commas t "" !! 2%nat); [| discriminate Hc].
  cbn [mbind option_bind] in *.
  destruct (st !! MAX_DRIFT_BPS_KEY); [| discriminate Hc].
  destruct (st !! REBALANCE_EPOCH_SECONDS_KEY); [| discriminate Hc].
  destruct (st !! MIN_DEPOSIT_USDC_KEY); [| discriminate Hc].
  destruct (st !! MIN_SLICE_VALUE_KEY); [| discriminate Hc].
  cbn [mbind option_bind] in *. injection Hc as <-.
  rewrite parseInt_toString_u64 by exact Hn. reflexivity.
Qed.

Lemma configOf_maxDrift (st : gmap string string) cfg n :
  configOf st = Some cfg -> U64.in_range n ->
  configOf (<[MAX_DRIFT_BPS_KEY := U64.toString n]> st)
  = Some (withMaxDrift n cfg).
Proof.
  unfold configOf. intros Hc Hn. lookups.
  destruct (st !! NAME_KEY); [| discriminate Hc].
  destruct (st !! SYMBOL_KEY); [| discriminate Hc].
  destruct (st !! OWNER_KEY); [| discriminate Hc].
  destruct (st !! TARGETS_BPS_KEY) as [t |]; [| discriminate Hc].
  cbn [mbind option_bind] in *.
  destruct (split_commas t "" !! 0%nat); [| discriminate Hc].
  destruct (split_commas t "" !! 1%nat); [| discriminate Hc].
  destruct (split_commas t "" !! 2%nat); [| discriminate Hc].
  cbn [mbind option_bind] in *.
  destruct (st !! MAX_DRIFT_BPS_KEY); [| discriminate Hc].
  destruct (st !! REBALANCE_EPOCH_SECONDS_KEY); [| discriminate Hc].
  destruct (st !! MIN_DEPOSIT_USDC_KEY); [| discriminate Hc].
  destruct (st !! MIN_SLICE_VALUE_KEY); [| discriminate Hc].
  cbn [mbind option_bind] in *. injection Hc as <-.
  rewrite parseInt_toString_u64 by exact Hn. reflexivity.
Qed.

Lemma configOf_epoch (st : gmap string string) cfg n :
  configOf st = Some cfg -> U64.in_range n ->
  configOf (<[REBALANCE_EPOCH_SECONDS_KEY := U64.toString n]> st)
  = Some (withEpoch n cfg).
Proof.
  unfold configOf. intros Hc Hn. lookups.
  destruct (st !! NAME_KEY); [| discriminate Hc].
  destruct (st !! SYMBOL_KEY); [| discriminate Hc].
  destruct (st !! OWNER_KEY); [| discriminate Hc].
  destruct (st !! TARGETS_BPS_KEY) as [t |]; [| discriminate Hc].
  cbn [mbind option_bind] in *.
  destruct (split_commas t "" !! 0%nat); [| discriminate Hc].
  destruct (split_commas t "" !! 1%nat); [| discriminate Hc].
  destruct (split_commas t "" !! 2%nat); [| discriminate Hc].
  cbn [mbind option_bind] in *.
  destruct (st !! MAX_DRIFT_BPS_KEY); [| discriminate Hc].
  destruct (st !! REBALANCE_EPOCH_SECONDS_KEY); [| discriminate Hc].
  destruct (st !! MIN_DEPOSIT_USDC_KEY); [| discriminate Hc].
  destruct (st !! MIN_SLICE_VALUE_KEY); [| discriminate Hc].
  cbn [mbind option_bind] in *. injection Hc as <-.
  rewrite parseInt_toString_u64 by exact Hn. reflexivity.
Qed.

Lemma configOf_targets (st : gmap string string) cfg target0 target1 target2 :
  configOf st = Some cfg ->
  U64.in_range target0 -> U64.in_range target1 -> U64.in_range target2 ->
  configOf (<[TARGETS_BPS_KEY := joinTargets target0 target1 target2]> st)
  = Some (withTargets target0 target1 target2 cfg).
Proof.
  unfold configOf. intros Hc H0 H1 H2. lookups.
  destruct (st !! NAME_KEY); [| discriminate Hc].
  destruct (st !! SYMBOL_KEY); [| discriminate Hc].
  destruct (st !! OWNER_KEY); [| discriminate Hc].
  destruct (st !! TARGETS_BPS_KEY) as [t |]; [| discriminate Hc].
  cbn [mbind option_bind] in *.
  destruct (split_commas t "" !! 0%nat); [| discriminate Hc].
  destruct (split_commas t "" !! 1%nat); [| discriminate Hc].
  destruct (split_commas t "" !! 2%nat); [| discriminate Hc].
  cbn [mbind option_bind] in *.
  destruct (st !! MAX_DRIFT_BPS_KEY); [| discriminate Hc].
  destruct (st !! REBALANCE_EPOCH_SECONDS_KEY); [| discriminate Hc].
  destruct (st !! MIN_DEPOSIT_USDC_KEY); [| discriminate Hc].
  destruct (st !! MIN_SLICE_VALUE_KEY); [| discriminate Hc].
  cbn [mbind option_bind] in *. injection Hc as <-.
  rewrite split_joinTargets. cbn [lookup list_lookup mbind option_bind].
  rewrite !parseInt_toString_u64 by assumption. reflexivity.
Qed.

End Setters.

Section ConfigTheorems.

Context {W : Type} `{Host W}.

(** X17. What the owner writes with a setter is what [getConfig] reads back:
    the minimum deposit, the drift threshold and the epoch. *)
Theorem settings_round_trip depth ctx (s : State W) cfg n :
  getConfig s = Ok cfg s ->
  storage s !! OWNER_KEY = Some (caller ctx) ->
  U64.in_range n ->
  getConfig (step depth s (ctx, CSetMinDeposit n))
  = Ok (withMinDeposit n cfg) (step depth s (ctx, CSetMinDeposit n))
  /\ (0 < n <= 2000 ->
      getConfig (step depth s (ctx, CUpdateMaxDrift n))
      = Ok (withMaxDrift n cfg) (step depth s (ctx, CUpdateMaxDrift n)))
  /\ (300 <= n ->
      getConfig (step depth s (ctx, CUpdateRebalanceEpoch n))
      = Ok (withEpoch n cfg) (step depth s (ctx, CUpdateRebalanceEpoch n))).
Proof.
  intros [Hc _]%getConfig_inv Howner Hn.
  unfold step. cbn [fst snd dispatch].
  split; [| split].
  - rewrite (setMinDeposit_fwd _ _ _ Howner).
    apply getConfig_fwd. cbn [storage]. apply configOf_minDeposit; assumption.
  - intros Hb. rewrite (updateMaxDrift_fwd _ _ _ Howner Hb).
    apply getConfig_fwd. cbn [storage]. apply configOf_maxDrift; assumption.
  - intros Hb. rewrite (updateRebalanceEpoch_fwd _ _ _ Howner Hb).
    apply getConfig_fwd. cbn [storage]. apply configOf_epoch; assumption.
Qed.

(** X18. The bounds of the setters: a drift threshold outside 1..2000 bps and
    an epoch below 300 seconds are refused, whoever calls, and nothing
    changes. *)
Theorem settings_out_of_bounds_rejected depth ctx (s : State W) n :
  (~ 0 < n <= 2000 ->
   (exists msg, updateMaxDrift ctx n s = Revert msg) /\
   step depth s (ctx, CUpdateMaxDrift n) = s)
  /\ (n < 300 ->
      (exists msg, updateRebalanceEpoch ctx n s = Revert msg) /\
      step depth s (ctx, CUpdateRebalanceEpoch n) = s).
Proof.
  split; intros Hn.
  - destruct (updateMaxDrift_rejects ctx n s Hn) as [msg Hr].
    split; [exists msg; exact Hr |].
    apply (step_revert depth s ctx (CUpdateMaxDrift n) msg Hr).
  - destruct (updateRebalanceEpoch_rejects ctx n s Hn) as [msg Hr].
    split; [exists msg; exact Hr |].
    apply (step_revert depth s ctx (CUpdateRebalanceEpoch n) msg Hr).
Qed.

(** X19. The targets the owner writes are the targets [getConfig] reads back:
    the three numbers survive the comma-separated text they are stored as. *)
Theorem targets_round_trip depth ctx (s : State W) cfg target0 target1 target2 :
  getConfig s = Ok cfg s ->
  storage s !! OWNER_KEY = Some (caller ctx) ->
  U64.in_range target0 -> U64.in_range target1 -> U64.in_range target2 ->
  U64.add (U64.add target0 target1) target2 = 10000 ->
  getConfig (step depth s (ctx, CUpdateTargets target0 target1 target2))
  = Ok (withTargets target0 target1 target2 cfg)
      (step depth s (ctx, CUpdateTargets target0 target1 target2)).
Proof.
  intros [Hc _]%getConfig_inv Howner H0 H1 H2 Hsum.
  unfold step. cbn [fst snd dispatch].
  rewrite (updateTargets_fwd _ _ _ _ _ Howner Hsum).
  apply getConfig_fwd. cbn [storage]. apply configOf_targets; assumption.
Qed.

End ConfigTheorems.

Section Deployment.

Context {W : Type} `{Host W}.

(** The storage the constructor leaves. *)
Lemma constructor_inv ctx args (s s' : State W) :
  constructor ctx args s = Ok tt s' ->
  isDeployingContract ctx = true /\
  U64.add (U64.add (arg_target0 args) (arg_target1 args)) (arg_target2 args)
  = 10000 /\
  storage s'
  = <[LAST_REBALANCE_KEY := U64.toString (timestamp ctx)]>
      (<[TOTAL_SHARES_KEY := "0"]>
      (<[EAGLEFI_ROUTER_KEY := arg_eaglefiRouter args]>
      (<[DUSA_ROUTER_KEY := arg_dusaRouter args]>
      (<[WETHB_KEY := arg_wethbAddress args]>
      (<[WMAS_KEY := arg_wmasAddress args]>
      (<[USDCE_KEY := arg_usdceAddress args]>
      (<[MIN_SLICE_VALUE_KEY := U64.toString (arg_minSliceValue args)]>
      (<[MIN_DEPOSIT_USDC_KEY := U64.toString (arg_minDepositUSDC args)]>
      (<[REBALANCE_EPOCH_SECONDS_KEY :=
           U64.toString (arg_rebalanceEpochSeconds args)]>
      (<[MAX_DRIFT_BPS_KEY := U64.toString (arg_maxDriftBps args)]>
      (<[TARGETS_BPS_KEY :=
           joinTargets (arg_target0 args) (arg_target1 args) (arg_target2 args)]>
      (<[OWNER_KEY := caller ctx]>
      (<[SYMBOL_KEY := arg_symbol args]>
      (<[NAME_KEY := arg_name args]> (storage s))))))))))))))).
Proof.
  intros Hc. unfold constructor in Hc.
  apply bind_Ok in Hc as ([] & s1 & [Hdep ->]%assert_Ok & Hc).
  cbn zeta in Hc.
  apply bind_Ok in Hc as ([] & s1 & [Hsum ->]%assert_Ok & Hc).
  apply Z.eqb_eq in Hsum.
  split; [exact Hdep |]. split; [exact Hsum |].
  repeat (apply bind_Ok in Hc as ([] & ? & ->%set_Ok & Hc);
          cbn [storage events calls world] in Hc).
  apply event_Ok in Hc. subst s'. reflexivity.
Qed.

Lemma constructor_fwd ctx args (s : State W) :
  isDeployingContract ctx = true ->
  U64.add (U64.add (arg_target0 args) (arg_target1 args)) (arg_target2 args)
  = 10000 ->
  exists s', constructor ctx args s = Ok tt s'.
Proof.
  intros Hdep Hsum. unfold constructor. rewrite Hdep.
  rewrite (bind_step _ _ s tt s) by reflexivity. cbn zeta. rewrite Hsum.
  rewrite (bind_step _ _ s tt s) by reflexivity.
  do 15 (erewrite bind_step by reflexivity; cbn [storage events calls world]).
  eexists. reflexivity.
Qed.

Lemma configOf_constructor ctx args (st : gmap string string) :
  argsInRange args ->
  configOf
    (<[LAST_REBALANCE_KEY := U64.toString (timestamp ctx)]>
      (<[TOTAL_SHARES_KEY := "0"]>
      (<[EAGLEFI_ROUTER_KEY := arg_eaglefiRouter args]>
      (<[DUSA_ROUTER_KEY := arg_dusaRouter args]>
      (<[WETHB_KEY := arg_wethbAddress args]>
      (<[WMAS_KEY := arg_wmasAddress args]>
      (<[USDCE_KEY := arg_usdceAddress args]>
      (<[MIN_SLICE_VALUE_KEY := U64.toString (arg_minSliceValue args)]>
      (<[MIN_DEPOSIT_USDC_KEY := U64.toString (arg_minDepositUSDC args)]>
      (<[REBALANCE_EPOCH_SECONDS_KEY :=
           U64.toString (arg_rebalanceEpochSeconds args)]>
      (<[MAX_DRIFT_BPS_KEY := U64.toString (arg_maxDriftBps args)]>
      (<[TARGETS_BPS_KEY :=
           joinTargets (arg_target0 args) (arg_target1 args) (arg_target2 args)]>
      (<[OWNER_KEY := caller ctx]>
      (<[SYMBOL_KEY := arg_symbol args]>
      (<[NAME_KEY := arg_name args]> st)))))))))))))))
  = Some (configOfArgs (caller ctx) args).
Proof.
  intros (H0 & H1 & H2 & H3 & H4 & H5 & H6).
  unfold configOf. lookups. cbn [mbind option_bind].
  rewrite split_joinTargets. cbn [lookup list_lookup mbind option_bind].
  rewrite !parseInt_toString_u64 by assumption. reflexivity.
Qed.

(** X20. Deployment: the constructor succeeds in a deployment when the targets
    add up to 10000 bps; [getConfig] then reads back the arguments and the
    deployer as owner, and the vault starts with no shares, not paused, the
    guard off, autonomy off, and the deployment as its latest rebalance. *)
Theorem construction_round_trip ctx args (s : State W) :
  storage s = ∅ ->
  isDeployingContract ctx = true ->
  U64.add (U64.add (arg_target0 args) (arg_target1 args)) (arg_target2 args)
  = 10000 ->
  argsInRange args ->
  U64.in_range (timestamp ctx) ->
  exists s',
    constructor ctx args s = Ok tt s' /\
    getConfig s' = Ok (configOfArgs (caller ctx) args) s' /\
    totalShares (storage s') = 0 /\
    (forall holder, sharesOf (storage s') holder = 0) /\
    isPaused s' = Ok false s' /\
    getGuardStatus s' = Ok false s' /\
    isAutonomousScheduled s' = Ok false s' /\
    lastRebalanceOf (storage s') = timestamp ctx.
Proof.
  intros Hempty Hdep Hsum Hargs Hnow.
  destruct (constructor_fwd ctx args s Hdep Hsum) as [s' Hc].
  exists s'. split; [exact Hc |].
  apply constructor_inv in Hc as (_ & _ & Hst).
  split; [apply getConfig_fwd; rewrite Hst; apply configOf_constructor, Hargs |].
  split; [unfold totalShares; rewrite Hst; lookups; reflexivity |].
  split.
  { intros holder. unfold sharesOf. rewrite Hst. lookups.
    rewrite Hempty, lookup_empty. reflexivity. }
  split; [apply has_absent; rewrite Hst; lookups;
          rewrite Hempty; apply lookup_empty |].
  split; [apply has_absent; rewrite Hst; lookups;
          rewrite Hempty; apply lookup_empty |].
  split; [apply has_absent; rewrite Hst; lookups;
          rewrite Hempty; apply lookup_empty |].
  unfold lastRebalanceOf. rewrite Hst. lookups. cbn [default from_option id].
  apply parseInt_toString_u64, Hnow.
Qed.

Lemma sticky_config key :
  key ∈ [NAME_KEY; SYMBOL_KEY; OWNER_KEY; TARGETS_BPS_KEY; MAX_DRIFT_BPS_KEY;
         REBALANCE_EPOCH_SECONDS_KEY; MIN_DEPOSIT_USDC_KEY;
         MIN_SLICE_VALUE_KEY] ->
  sticky key.
Proof.
  intros Hk.
  repeat (apply elem_of_cons in Hk as [-> | Hk]);
    try (apply elem_of_nil in Hk; contradiction);
    repeat split; discriminate.
Qed.

Lemma step_targetsWritten depth (s : State W) c :
  targetsWritten (storage s) -> targetsWritten (storage (step depth s c)).
Proof.
  intros Ht. destruct c as [ctx c]. unfold targetsWritten in *.
  destruct c.
  all: try (rewrite step_frame_lemma by (cbn [footprint]; outside); exact Ht).
  - unfold step. cbn [fst snd dispatch].
    destruct (constructor ctx args s) as [[] s' |] eqn:Hc; [| exact Ht].
    apply constructor_inv in Hc as (_ & _ & ->).
    eexists _, _, _. lookups. reflexivity.
  - unfold step. cbn [fst snd dispatch].
    destruct (updateTargets ctx target0 target1 target2 s) as [[] s' |] eqn:Hc;
      [| exact Ht].
    unfold updateTargets in Hc. minv Hc.
    eexists _, _, _. apply lookup_insert_eq.
Qed.

Lemma run_targetsWritten depth (cs : list (CallContext * Call)) :
  forall s : State W,
    targetsWritten (storage s) -> targetsWritten (storage (run depth cs s)).
Proof.
  induction cs as [| c cs IH]; intros s Ht; [exact Ht |].
  apply IH, step_targetsWritten, Ht.
Qed.

Lemma configOf_total (st : gmap string string) :
  (forall key,
     key ∈ [NAME_KEY; SYMBOL_KEY; OWNER_KEY; TARGETS_BPS_KEY;
            MAX_DRIFT_BPS_KEY; REBALANCE_EPOCH_SECONDS_KEY;
            MIN_DEPOSIT_USDC_KEY; MIN_SLICE_VALUE_KEY] -> hasKey key st) ->
  targetsWritten st ->
  is_Some (configOf st).
Proof.
  intros Hkeys (t0 & t1 & t2 & Ht). unfold configOf.
  assert (Hk : forall key, key ∈ [NAME_KEY; SYMBOL_KEY; OWNER_KEY;
            TARGETS_BPS_KEY; MAX_DRIFT_BPS_KEY; REBALANCE_EPOCH_SECONDS_KEY;
            MIN_DEPOSIT_USDC_KEY; MIN_SLICE_VALUE_KEY] ->
            exists v, st !! key = Some v) by (intros key Hin; apply Hkeys, Hin).
  destruct (Hk NAME_KEY) as [? ->]; [repeat constructor |].
  destruct (Hk SYMBOL_KEY) as [? ->]; [repeat constructor |].
  destruct (Hk OWNER_KEY) as [? ->]; [repeat constructor |].
  rewrite Ht. cbn [mbind option_bind].
  rewrite split_joinTargets. cbn [lookup list_lookup mbind option_bind].
  destruct (Hk MAX_DRIFT_BPS_KEY) as [? ->]; [repeat constructor |].
  destruct (Hk REBALANCE_EPOCH_SECONDS_KEY) as [? ->]; [repeat constructor |].
  destruct (Hk MIN_DEPOSIT_USDC_KEY) as [? ->]; [repeat constructor |].
  destruct (Hk MIN_SLICE_VALUE_KEY) as [? ->]; [repeat constructor |].
  cbn [mbind option_bind]. eauto.
Qed.

(** X21. Once the vault is deployed, [getConfig] answers after every sequence
    of calls: no entry point removes a configuration entry, and the targets
    are always written as three numbers. *)
Theorem getConfig_never_reverts depth ctx args (s0 s1 : State W)
    (cs : list (CallContext * Call)) :
  constructor ctx args s0 = Ok tt s1 ->
  exists cfg, getConfig (run depth cs s1) = Ok cfg (run depth cs s1).
Proof.
  intros Hc. apply constructor_inv in Hc as (_ & _ & Hst).
  destruct (configOf_total (storage (run depth cs s1))) as [cfg Hcfg].
  - intros key Hin. apply (run_keeps_key key (sticky_config key Hin)).
    unfold hasKey. rewrite Hst.
    repeat (apply elem_of_cons in Hin as [-> | Hin]);
      try (apply elem_of_nil in Hin; contradiction);
      lookups; eauto.
  - apply run_targetsWritten. unfold targetsWritten. rewrite Hst.
    eexists _, _, _. lookups. reflexivity.
  - exists cfg. apply getConfig_fwd, Hcfg.
Qed.

End Deployment.

Lemma settings_round_trip_witness :
  getConfig (step 1 ledgerGenesis (at_time OWNER 5000, CSetMinDeposit 1000))
  = Ok (withMinDeposit 1000 (configOfArgs OWNER standardArgs))
      (step 1 ledgerGenesis (at_time OWNER 5000, CSetMinDeposit 1000))
  /\ (0 < 1000 <= 2000 ->
      getConfig (step 1 ledgerGenesis (at_time OWNER 5000, CUpdateMaxDrift 1000))
      = Ok (withMaxDrift 1000 (configOfArgs OWNER standardArgs))
          (step 1 ledgerGenesis (at_time OWNER 5000, CUpdateMaxDrift 1000)))
  /\ (300 <= 1000 ->
      getConfig
        (step 1 ledgerGenesis (at_time OWNER 5000, CUpdateRebalanceEpoch 1000))
      = Ok (withEpoch 1000 (configOfArgs OWNER standardArgs))
          (step 1 ledgerGenesis
             (at_time OWNER 5000, CUpdateRebalanceEpoch 1000))).
Proof.
  apply (settings_round_trip 1 (at_time OWNER 5000) ledgerGenesis
           (configOfArgs OWNER standardArgs) 1000).
  - vm_compute. exact eq_refl.
  - vm_compute. exact eq_refl.
  - unfold U64.in_range, U64.modulus. lia.
Defined.

Lemma settings_out_of_bounds_rejected_witness :
  ((exists msg, updateMaxDrift (at_time OWNER 5000) 2001 ledgerGenesis = Revert msg)
   /\ step 1 ledgerGenesis (at_time OWNER 5000, CUpdateMaxDrift 2001)
      = ledgerGenesis)
  /\ ((exists msg,
         updateRebalanceEpoch (at_time OWNER 5000) 299 ledgerGenesis = Revert msg)
      /\ step 1 ledgerGenesis (at_time OWNER 5000, CUpdateRebalanceEpoch 299)
         = ledgerGenesis).
Proof.
  split.
  - apply (proj1 (settings_out_of_bounds_rejected 1 (at_time OWNER 5000)
                    ledgerGenesis 2001)).
    lia.
  - apply (proj2 (settings_out_of_bounds_rejected 1 (at_time OWNER 5000)
                    ledgerGenesis 299)).
    lia.
Defined.

Lemma targets_round_trip_witness :
  getConfig
    (step 1 ledgerGenesis (at_time OWNER 5000, CUpdateTargets 5000 3000 2000))
  = Ok (withTargets 5000 3000 2000 (configOfArgs OWNER standardArgs))
      (step 1 ledgerGenesis (at_time OWNER 5000, CUpdateTargets 5000 3000 2000)).
Proof.
  apply (targets_round_trip 1 (at_time OWNER 5000) ledgerGenesis
           (configOfArgs OWNER standardArgs) 5000 3000 2000).
  - vm_compute. exact eq_refl.
  - vm_compute. exact eq_refl.
  - unfold U64.in_range, U64.modulus. lia.
  - unfold U64.in_range, U64.modulus. lia.
  - unfold U64.in_range, U64.modulus. lia.
  - reflexivity.
Defined.

Lemma construction_round_trip_witness :
  exists s',
    constructor deployment standardArgs (emptyState (fundedLedger 0 0 0))
    = Ok tt s' /\
    getConfig s' = Ok (configOfArgs (caller deployment) standardArgs) s' /\
    totalShares (storage s') = 0 /\
    (forall holder, sharesOf (storage s') holder = 0) /\
    isPaused s' = Ok false s' /\
    getGuardStatus s' = Ok false s' /\
    isAutonomousScheduled s' = Ok false s' /\
    lastRebalanceOf (storage s') = timestamp deployment.
Proof.
  apply (construction_round_trip deployment standardArgs
           (emptyState (fundedLedger 0 0 0))).
  - reflexivity.
  - reflexivity.
  - reflexivity.
  - unfold argsInRange, U64.in_range, U64.modulus. cbn. lia.
  - unfold U64.in_range, U64.modulus. cbn. lia.
Defined.

Lemma getConfig_never_reverts_witness :
  exists cfg,
    getConfig (run 1 ledgerOps ledgerGenesis)
    = Ok cfg (run 1 ledgerOps ledgerGenesis).
Proof.
  apply (getConfig_never_reverts 1 deployment standardArgs
           (emptyState (fundedLedger 1000000 500000 0)) ledgerGenesis ledgerOps).
  unfold ledgerGenesis, genesis. apply constructor_step.
  vm_compute. exact eq_refl.
Defined.

(** ** The start of autonomy and its report *)

Section Autonomy.

Context {W : Type} `{Host W}.


Lemma getAutonomousStatus_spec (s : State W) :
  getAutonomousStatus s
  = Ok (mkAutonomousStatus
          (bool_decide (is_Some (storage s !! AUTONOMOUS_MODE_ENABLED)))
          (match storage s !! DEFERRED_CALL_ACTIVE_KEY with
           | Some value => String.eqb value "true"
           | None => false
           end)
          (U64.parseInt (default "0" (storage s !! LAST_REBALANCE_KEY)))
          (U64.parseInt (default "0" (storage s !! NEXT_REBALANCE_TIMESTAMP_KEY)))
          (U64.parseInt (default "0" (storage s !! REBALANCE_COUNT_KEY)))
          (default "none" (storage s !! LAST_REBALANCE_STATUS_KEY))
          (default "" (storage s !! LAST_ERROR_KEY))
          (balance (world s))) s.
Proof.
  unfold getAutonomousStatus.
  rewrite (bind_step _ _ s _ s) by reflexivity.
  destruct (storage s !! DEFERRED_CALL_ACTIVE_KEY) as [value |] eqn:Hactive.
  - rewrite (bind_step _ _ s true s) by (apply has_present; rewrite Hactive; eauto).
    rewrite (bind_step _ _ s (String.eqb value "true") s)
      by (rewrite (bind_step _ _ s value s) by (apply get_fwd, Hactive);
          reflexivity).
    repeat (rewrite (bind_step _ _ s _ s) by apply getOr_spec).
    rewrite (bind_step _ _ s (world s) s) by reflexivity.
    reflexivity.
  - rewrite (bind_step _ _ s false s) by (apply has_absent, Hactive).
    rewrite (bind_step _ _ s false s) by reflexivity.
    repeat (rewrite (bind_step _ _ s _ s) by apply getOr_spec).
    rewrite (bind_step _ _ s (world s) s) by reflexivity.
    reflexivity.
Qed.

End Autonomy.

Section AutonomyTheorems.

Context {W : Type} `{Host W}.


(** X23. Starting autonomy needs gas: when the gas bank is below the host's
    quote for the deferred call, the owner's call reverts with the message
    that names the gas bank, the quote and the shortfall in whole MAS;
    nothing is registered and nothing is written. *)
Theorem starting_autonomy_needs_gas depth ctx (s : State W) totalText :
  storage s !! OWNER_KEY = Some (caller ctx) ->
  storage s !! TOTAL_SHARES_KEY = Some totalText ->
  U64.parseInt totalText <> 0 ->
  hasKey GUARD_ARMED_KEY (storage s) ->
  balance (world s)
  < deferredCallQuote (world s)
      (targetSlotOf (world s) ctx (epochOf (storage s))) 200000000 0 ->
  startAutonomousRebalancing ctx s
  = Revert
      (insufficientGasBankText
         (U64.div (balance (world s)) 1000000000)
         (U64.div
            (deferredCallQuote (world s)
               (targetSlotOf (world s) ctx (epochOf (storage s))) 200000000 0)
            1000000000)
         (U64.div
            (U64.sub
               (deferredCallQuote (world s)
                  (targetSlotOf (world s) ctx (epochOf (storage s)))
                  200000000 0)
               (balance (world s)))
            1000000000))
  /\ step depth s (ctx, CStartAutonomousRebalancing) = s.
Proof.
  intros Howner Htotal Hnz Hguard Hgas.
  match goal with
  | |- ?call = Revert ?msg /\ _ => assert (Hr : call = Revert msg)
  end.
  { unfold startAutonomousRebalancing.
    rewrite (owner_passes ctx _ (fun _ => _) s Howner).
    rewrite (bind_step _ _ s totalText s)
      by (rewrite getOr_spec, Htotal; reflexivity).
    cbn zeta. destruct (Z.eqb_spec (U64.parseInt totalText) 0); [contradiction |].
    rewrite (bind_step _ _ s true s) by (apply has_present, Hguard).
    cbn [negb].
    rewrite (bind_step _ _ s _ s) by apply getOr_spec.
    cbn zeta.
    rewrite (bind_step _ _ s (world s) s) by reflexivity.
    cbn zeta. fold (epochOf (storage s)).
    change (findCheapestSlot (world s)
              (U64.add (currentPeriod ctx) (U64.mul (epochOf (storage s)) 2))
              (U64.add (U64.add (currentPeriod ctx)
                          (U64.mul (epochOf (storage s)) 2)) 100)
              200000000 0)
      with (targetSlotOf (world s) ctx (epochOf (storage s))).
    destruct (Z.ltb_spec (balance (world s))
                (deferredCallQuote (world s)
                   (targetSlotOf (world s) ctx (epochOf (storage s)))
                   200000000 0)); [| lia].
    apply bind_Revert.
    erewrite bind_step by reflexivity. reflexivity. }
  split; [exact Hr |].
  apply (step_revert depth s ctx CStartAutonomousRebalancing _ Hr).
Qed.

End AutonomyTheorems.


(** 0.5 MAS in the gas bank against a quote of 1 MAS. *)
Lemma starting_autonomy_needs_gas_witness :
  startAutonomousRebalancing (at_time OWNER 7000) (guardedFunded 500000000)
  = Revert
      "Insufficient gas bank: 0 MAS available, 1 MAS required. Top up 0 MAS."
  /\ step 1 (guardedFunded 500000000)
       (at_time OWNER 7000, CStartAutonomousRebalancing)
     = guardedFunded 500000000.
Proof.
  destruct (starting_autonomy_needs_gas 1 (at_time OWNER 7000)
              (guardedFunded 500000000) "1000000") as [Hrev Hstep].
  - vm_compute. exact eq_refl.
  - vm_compute. exact eq_refl.
  - vm_compute. discriminate.
  - exists "true". vm_compute. exact eq_refl.
  - vm_compute. exact eq_refl.
  - split; [| exact Hstep].
    etransitivity; [exact Hrev |]. vm_compute. exact eq_refl.
Defined.

(** ** The vault's call of its own [rebalance] *)

Section Depth.

Context {W : Type} `{Host W}.



End Depth.



Section DepthFacts.

Context {W : Type} `{Host W}.








End DepthFacts.

Section DepthTheorems.

Context {W : Type} `{Host W}.


End DepthTheorems.


(** ** Drift, emergency withdrawal and ownership *)


Section Rebalancing.

Context {W : Type} `{Host W}.


End Rebalancing.

Section Administration.

Context {W : Type} `{Host W}.

(** X26. Emergency withdrawal: it needs the pause key; with it, the owner's
    call sends [amount] of any token from the vault to the owner, writes
    nothing to the storage and checks the amount against nothing. *)
Theorem emergency_withdraw_pays_owner ctx token amount (s : State W) :
  storage s !! OWNER_KEY = Some (caller ctx) ->
  (storage s !! PAUSED_KEY = None ->
   emergencyWithdraw ctx token amount s
   = Revert "Contract must be paused for emergency withdrawal")
  /\ (forall w,
        hasKey PAUSED_KEY (storage s) ->
        amount <> 0 ->
        transfer (world s) token (callee ctx) (caller ctx) amount = Some w ->
        emergencyWithdraw ctx token amount s
        = Ok tt
            (mkState (storage s)
               (events s ++ [EmergencyWithdraw token amount (caller ctx)])
               (calls s ++ [CallTransfer token (caller ctx) amount]) w)).
Proof.
  intros Howner. unfold emergencyWithdraw.
  rewrite (owner_passes ctx _ (fun _ => _) s Howner).
  split.
  - intros Hp.
    rewrite (bind_step _ _ s false s) by (apply has_absent, Hp).
    reflexivity.
  - intros w Hp Hnz Ht.
    rewrite (bind_step _ _ s true s) by (apply has_present, Hp).
    cbn [negb]. rewrite (bind_step _ _ s tt s) by reflexivity.
    erewrite bind_step by (apply transferTokenToUser_fwd; eassumption).
    reflexivity.
Qed.

Lemma transferOwnership_fwd ctx newOwner (s : State W) :
  storage s !! OWNER_KEY = Some (caller ctx) ->
  newOwner <> "" ->
  transferOwnership ctx newOwner s
  = Ok tt (mkState (<[OWNER_KEY := newOwner]> (storage s))
             (events s ++ [OwnershipTransferred (caller ctx) newOwner])
             (calls s) (world s)).
Proof.
  intros Howner Hne. unfold transferOwnership.
  rewrite (owner_passes ctx _ (fun _ => _) s Howner).
  apply String.eqb_neq in Hne. rewrite Hne. cbn [negb].
  rewrite (bind_step _ _ s tt s) by reflexivity.
  reflexivity.
Qed.

(** X27. Handing the vault over: after the owner's [transferOwnership], the
    new owner is the owner for every entry point, and whoever [mayCall] does
    not admit under the new owner, the old owner included, is turned away. An
    empty new owner is refused. *)
Theorem ownership_handover depth ctx newOwner (s : State W) :
  storage s !! OWNER_KEY = Some (caller ctx) ->
  (newOwner = "" ->
   transferOwnership ctx newOwner s = Revert "New owner address cannot be empty")
  /\ (newOwner <> "" ->
      storage (step depth s (ctx, CTransferOwnership newOwner)) !! OWNER_KEY
      = Some newOwner
      /\ (forall ctx' c,
            mayCall newOwner ctx' c = false ->
            exists msg,
              dispatch depth ctx' c
                (step depth s (ctx, CTransferOwnership newOwner))
              = Revert msg)
      /\ (forall ctx',
            caller ctx' = newOwner ->
            hasKey PAUSED_KEY
              (storage
                 (run depth [(ctx, CTransferOwnership newOwner); (ctx', CPause)]
                    s)))).
Proof.
  intros Howner. split.
  - intros ->. unfold transferOwnership.
    rewrite (owner_passes ctx _ (fun _ => _) s Howner). reflexivity.
  - intros Hne.
    assert (Hnew : storage (step depth s (ctx, CTransferOwnership newOwner))
                   !! OWNER_KEY = Some newOwner).
    { unfold step. cbn [fst snd dispatch].
      rewrite (transferOwnership_fwd _ _ _ Howner Hne).
      apply lookup_insert_eq. }
    split; [exact Hnew |]. split.
    + intros ctx' c Hno. exact (dispatch_unauthorised depth ctx' c _ _ Hnew Hno).
    + intros ctx' <-. cbn [run fold_left].
      apply pause_by_owner. exact Hnew.
Qed.

(** X28. The record of the autonomous mode is written in one place only: the
    rebalance counter, the status and error texts, the active flag and the
    time of the next rebalance change in [startAutonomousRebalancing] and
    nowhere else, so no rebalance is ever counted or reported by the status
    query. *)
Theorem autonomy_record_is_frozen depth (cs : list (CallContext * Call))
    (s : State W) :
  Forall (fun c => snd c <> CStartAutonomousRebalancing) cs ->
  exists before after,
    getAutonomousStatus s = Ok before s /\
    getAutonomousStatus (run depth cs s) = Ok after (run depth cs s) /\
    rebalanceCount after = rebalanceCount before /\
    lastStatus after = lastStatus before /\
    lastError after = lastError before /\
    deferredCallActive after = deferredCallActive before /\
    nextRebalanceTime after = nextRebalanceTime before.
Proof.
  intros Hall.
  assert (Hkeep : forall key,
            key ∈ [REBALANCE_COUNT_KEY; LAST_REBALANCE_STATUS_KEY;
                   LAST_ERROR_KEY; DEFERRED_CALL_ACTIVE_KEY;
                   NEXT_REBALANCE_TIMESTAMP_KEY] ->
            storage (run depth cs s) !! key = storage s !! key).
  { intros key Hkey. revert s.
    induction Hall as [| [ctx c] cs Hc _ IH]; intros s; [reflexivity |].
    rewrite run_cons, IH. apply step_frame_lemma. cbn [snd] in Hc.
    repeat (apply elem_of_cons in Hkey as [-> | Hkey]);
      try (apply elem_of_nil in Hkey; contradiction);
      destruct c; try contradiction; cbn [footprint]; outside. }
  eexists _, _.
  split; [apply getAutonomousStatus_spec |].
  split; [apply getAutonomousStatus_spec |].
  cbn [rebalanceCount lastStatus lastError deferredCallActive nextRebalanceTime].
  rewrite !Hkeep by (repeat constructor).
  repeat split.
Qed.

End Administration.


Lemma emergency_withdraw_pays_owner_witness :
  emergencyWithdraw (at_time OWNER 9000) USDC_ADDRESS 1000000 ledgerGenesis
  = Revert "Contract must be paused for emergency withdrawal"
  /\ emergencyWithdraw (at_time OWNER 9000) USDC_ADDRESS 1000000 pausedFunded
     = Ok tt
         (mkState (storage pausedFunded)
            (events pausedFunded ++
             [EmergencyWithdraw USDC_ADDRESS 1000000
                (caller (at_time OWNER 9000))])
            (calls pausedFunded ++
             [CallTransfer USDC_ADDRESS (caller (at_time OWNER 9000)) 1000000])
            (world (step 1 pausedFunded
                      (at_time OWNER 9000,
                       CEmergencyWithdraw USDC_ADDRESS 1000000)))).
Proof.
  split.
  - apply (proj1 (emergency_withdraw_pays_owner (at_time OWNER 9000)
                    USDC_ADDRESS 1000000 ledgerGenesis
                    ltac:(vm_compute; exact eq_refl))).
    vm_compute. exact eq_refl.
  - apply (proj2 (emergency_withdraw_pays_owner (at_time OWNER 9000)
                    USDC_ADDRESS 1000000 pausedFunded
                    ltac:(vm_compute; exact eq_refl))).
    + exists "true". vm_compute. exact eq_refl.
    + discriminate.
    + vm_compute. exact eq_refl.
Defined.

Lemma ownership_handover_witness :
  storage (step 1 ledgerGenesis (at_time OWNER 5000, CTransferOwnership ALICE))
    !! OWNER_KEY = Some ALICE
  /\ (forall ctx' c,
        mayCall ALICE ctx' c = false ->
        exists msg,
          dispatch 1 ctx' c
            (step 1 ledgerGenesis (at_time OWNER 5000, CTransferOwnership ALICE))
          = Revert msg)
  /\ (forall ctx',
        caller ctx' = ALICE ->
        hasKey PAUSED_KEY
          (storage
             (run 1 [(at_time OWNER 5000, CTransferOwnership ALICE);
                     (ctx', CPause)] ledgerGenesis))).
Proof.
  apply (proj2 (ownership_handover 1 (at_time OWNER 5000) ALICE ledgerGenesis
                  ltac:(vm_compute; exact eq_refl))).
  discriminate.
Defined.

(** Autonomy is started, so the five entries are written; then the deferred
    [triggerRebalance] and a [rebalance] by the owner both swap, with a
    redemption in between. The last rebalance moves to 4,000,000 ms; the
    counter, the status, the error, the active flag and the next time stay. *)
Lemma autonomy_record_is_frozen_witness :
  map (fun key => storage autoRich !! key)
    [REBALANCE_COUNT_KEY; LAST_REBALANCE_STATUS_KEY; LAST_ERROR_KEY;
     DEFERRED_CALL_ACTIVE_KEY; NEXT_REBALANCE_TIMESTAMP_KEY]
  = [Some "0"; Some "pending"; Some ""; Some "true"; Some "1807000"]
  /\ swapAmounts (newCalls autoRich (run 2 frozenOps autoRich))
     = [333300; 333400; 99968; 100015]
  /\ storage (run 2 frozenOps autoRich) !! LAST_REBALANCE_KEY = Some "4000000"
  /\ exists before after,
       getAutonomousStatus autoRich = Ok before autoRich /\
       getAutonomousStatus (run 2 frozenOps autoRich)
       = Ok after (run 2 frozenOps autoRich) /\
       rebalanceCount after = rebalanceCount before /\
       lastStatus after = lastStatus before /\
       lastError after = lastError before /\
       deferredCallActive after = deferredCallActive before /\
       nextRebalanceTime after = nextRebalanceTime before.
Proof.
  do 3 (split; [vm_compute; exact eq_refl |]).
  apply (autonomy_record_is_frozen 2 frozenOps autoRich).
  repeat first [apply List.Forall_nil | apply List.Forall_cons];
    cbn [snd]; discriminate.
Defined.

(** ** Proportional payouts and the next deferred call *)

Section Proportion.

Context {W : Type} `{Host W}.

(** X29. Redemption in kind is proportional where the arithmetic fits: the
    call makes one transfer per token, of [payoutOf] the balance the token
    reports, which is the floor of [shares * balance / total] whenever the
    product fits 64 bits, and then no more than the balance. *)
Theorem redeem_in_kind_is_proportional ctx shares (s s' : State W) :
  0 <= shares ->
  redeem ctx shares false s = Ok tt s' ->
  exists wmas weth usdc,
    balanceOf (world s) WMAS_ADDRESS (callee ctx) = Some wmas /\
    balanceOf (world s) WETH_ADDRESS (callee ctx) = Some weth /\
    balanceOf (world s) USDC_ADDRESS (callee ctx) = Some usdc /\
    0 < totalShares (storage s) /\
    calls s'
    = (calls s
       ++ payoutCall WMAS_ADDRESS (caller ctx)
            (payoutOf shares wmas (totalShares (storage s)))
       ++ payoutCall WETH_ADDRESS (caller ctx)
            (payoutOf shares weth (totalShares (storage s)))
       ++ payoutCall USDC_ADDRESS (caller ctx)
            (payoutOf shares usdc (totalShares (storage s))))%list /\
    forall reported,
      shares * Z.of_N reported < U64.modulus ->
      Z.of_N reported < U64.modulus ->
      payoutOf shares reported (totalShares (storage s))
      = shares * Z.of_N reported / totalShares (storage s) /\
      (shares <= totalShares (storage s) ->
       payoutOf shares reported (totalShares (storage s)) <= Z.of_N reported).
Proof.
  intros Hshares Hr.
  pose proof (redeem_inv _ _ _ _ _ Hr) as (cur & total & _ & _ & Htotal & Hpos & _).
  apply redeem_in_kind_calls in Hr
    as (wmas & weth & usdc & total' & cur' & Hw & He & Hu & Htotal' & _ & _ & Hc).
  rewrite Htotal in Htotal'. injection Htotal' as <-.
  exists wmas, weth, usdc.
  unfold totalShares. rewrite Htotal.
  repeat (split; [assumption |]).
  intros reported Hfit Hrep. apply payoutOf_in_range; assumption.
Qed.

End Proportion.

Section Rearm.

Context {W : Type} `{Host W}.


End Rearm.

Lemma redeem_in_kind_is_proportional_witness :
  exists wmas weth usdc,
    balanceOf (world epochFunded) WMAS_ADDRESS (callee (at_time ALICE 7000))
    = Some wmas /\
    balanceOf (world epochFunded) WETH_ADDRESS (callee (at_time ALICE 7000))
    = Some weth /\
    balanceOf (world epochFunded) USDC_ADDRESS (callee (at_time ALICE 7000))
    = Some usdc /\
    0 < totalShares (storage epochFunded) /\
    calls (after (redeem (at_time ALICE 7000) 400000 false) epochFunded)
    = (calls epochFunded
       ++ payoutCall WMAS_ADDRESS (caller (at_time ALICE 7000))
            (payoutOf 400000 wmas (totalShares (storage epochFunded)))
       ++ payoutCall WETH_ADDRESS (caller (at_time ALICE 7000))
            (payoutOf 400000 weth (totalShares (storage epochFunded)))
       ++ payoutCall USDC_ADDRESS (caller (at_time ALICE 7000))
            (payoutOf 400000 usdc (totalShares (storage epochFunded))))%list /\
    forall reported,
      400000 * Z.of_N reported < U64.modulus ->
      Z.of_N reported < U64.modulus ->
      payoutOf 400000 reported (totalShares (storage epochFunded))
      = 400000 * Z.of_N reported / totalShares (storage epochFunded) /\
      (400000 <= totalShares (storage epochFunded) ->
       payoutOf 400000 reported (totalShares (storage epochFunded))
       <= Z.of_N reported).
Proof.
  apply (redeem_in_kind_is_proportional (at_time ALICE 7000) 400000 epochFunded
           (after (redeem (at_time ALICE 7000) 400000 false) epochFunded)).
  - lia.
  - apply succeeds_after. vm_compute. exact eq_refl.
Defined.

